(** * dasy-csat-api: filename parser, text normalizer and catalog filters

    A shallow embedding of the core of the repository:
    - [script/upload_exams.ts]   (class [ExamFileUploader]),
    - [script/rename_exams.ts]   (function [generateNewFilename]),
    - [script/fix_korean_normalization.ts] (class [KoreanNormalizationFixer]),
    - [src/documents/documents.controller.ts] and [documents.service.ts],
    - the database encoding fix script (class [DatabaseEncodingFixer]),
    - [script/cleanup_exams.ts]  (class [ExamFileCleanup]),
    - the thumbnail generation script (class [ThumbnailGenerator]) and
      [script/update_thumbnails.ts] (class [ThumbnailUpdater]),
    - [script/upload_submission_simple.ts]
      (class [DocumentSubmissionUploader]).

    JavaScript strings are sequences of UTF-16 code units; they are modelled
    as [list Z].  Numbers that the code obtains from [parseInt] are modelled
    by [jsnum] (an integer or NaN). *)

From Stdlib Require Import ZArith List String Ascii Lia Bool Permutation.
From stdpp Require Import base decidable list numbers sorting.

Local Open Scope Z_scope.

(** ** JavaScript strings and the string primitives the code uses *)

Abbreviation jsstring := (list Z).

Module JS.

(** Source literals are written as Rocq strings (UTF-8 bytes) and decoded to
    UTF-16 code units by [lit]. *)
Fixpoint bytes (s : string) : list Z :=
  match s with
  | EmptyString => []
  | String a r => Z.of_N (N_of_ascii a) :: bytes r
  end.

Definition units_of_code_point (cp : Z) : list Z :=
  if cp <? 0x10000 then [cp]
  else [0xD800 + (cp - 0x10000) / 0x400; 0xDC00 + (cp - 0x10000) mod 0x400].

Fixpoint utf8_decode (bs : list Z) : list Z :=
  match bs with
  | [] => []
  | b0 :: r0 =>
    if b0 <? 0x80 then b0 :: utf8_decode r0
    else match r0 with
    | [] => []
    | b1 :: r1 =>
      if b0 <? 0xE0 then
        ((b0 - 0xC0) * 0x40 + (b1 - 0x80)) :: utf8_decode r1
      else match r1 with
      | [] => []
      | b2 :: r2 =>
        if b0 <? 0xF0 then
          ((b0 - 0xE0) * 0x1000 + (b1 - 0x80) * 0x40 + (b2 - 0x80))
            :: utf8_decode r2
        else match r2 with
        | [] => []
        | b3 :: r3 =>
          units_of_code_point
            ((b0 - 0xF0) * 0x40000 + (b1 - 0x80) * 0x1000
             + (b2 - 0x80) * 0x40 + (b3 - 0x80)) ++ utf8_decode r3
        end
      end
    end
  end.

Definition lit (s : string) : jsstring := utf8_decode (bytes s).

(** A number produced by [parseInt]: an integer or NaN.  The integer is the
    mathematical value of the digits; the runtime rounds it to the nearest
    double once it exceeds 2^53. *)
Inductive jsnum : Type :=
  | JInt (z : Z)
  | JNaN.

Definition isNaN (n : jsnum) : bool :=
  match n with JNaN => true | JInt _ => false end.

#[global] Instance jsnum_eq_dec : EqDecision jsnum.
Proof. solve_decision. Defined.

(** [s.split(sep)] for a one-unit separator: always at least one piece. *)
Fixpoint split (sep : Z) (s : jsstring) : list jsstring :=
  match s with
  | [] => [[]]
  | c :: r =>
    if c =? sep then [] :: split sep r
    else match split sep r with
         | h :: t => (c :: h) :: t
         | [] => [[c]]
         end
  end.

(** [parts.join(sep)]. *)
Fixpoint join (sep : jsstring) (parts : list jsstring) : jsstring :=
  match parts with
  | [] => []
  | [p] => p
  | p :: ps => p ++ sep ++ join sep ps
  end.

Fixpoint startsWith (s pre : jsstring) {struct pre} : bool :=
  match pre, s with
  | [], _ => true
  | p :: pre', c :: s' => (c =? p) && startsWith s' pre'
  | _ :: _, [] => false
  end.

(** [s.endsWith(suffix)]. *)
Definition endsWith (s suffix : jsstring) : bool :=
  startsWith (rev s) (rev suffix).

(** [s.slice(0, -n)] for [n > 0]. *)
Definition slice_to_end_minus (s : jsstring) (n : nat) : jsstring :=
  take (length s - n)%nat s.

(** [arr.includes(x)] on an array of strings. *)
Definition includes (arr : list jsstring) (x : jsstring) : bool :=
  bool_decide (x ∈ arr).

(** White space and line terminators, as skipped by [trim] and [parseInt]. *)
Definition isStrWhiteSpaceChar (c : Z) : bool :=
  (c =? 0x09) || (c =? 0x0A) || (c =? 0x0B) || (c =? 0x0C) || (c =? 0x0D)
  || (c =? 0x20) || (c =? 0xA0) || (c =? 0x1680)
  || ((0x2000 <=? c) && (c <=? 0x200A))
  || (c =? 0x2028) || (c =? 0x2029) || (c =? 0x202F) || (c =? 0x205F)
  || (c =? 0x3000) || (c =? 0xFEFF).

Fixpoint trimStart (s : jsstring) : jsstring :=
  match s with
  | [] => []
  | c :: r => if isStrWhiteSpaceChar c then trimStart r else s
  end.

Definition trimEnd (s : jsstring) : jsstring := rev (trimStart (rev s)).

(** [s.trim()]. *)
Definition trim (s : jsstring) : jsstring := trimEnd (trimStart s).

(** The value of a code unit as a digit (any radix up to 36). *)
Definition digitValue (c : Z) : option Z :=
  if (48 <=? c) && (c <=? 57) then Some (c - 48)
  else if (97 <=? c) && (c <=? 122) then Some (c - 87)
  else if (65 <=? c) && (c <=? 90) then Some (c - 55)
  else None.

(** Digit values of the longest prefix made of radix-[R] digits. *)
Fixpoint digitsPrefix (R : Z) (s : jsstring) : list Z :=
  match s with
  | [] => []
  | c :: r =>
    match digitValue c with
    | Some d => if d <? R then d :: digitsPrefix R r else []
    | None => []
    end
  end.

Definition digitsValue (R : Z) (ds : list Z) : Z :=
  fold_left (fun acc d => acc * R + d) ds 0.

(** The sign in front of the digits, and what follows it. *)
Definition stripSign (s : jsstring) : Z * jsstring :=
  match s with
  | c :: r => if c =? 45 then (-1, r) else if c =? 43 then (1, r) else (1, s)
  | [] => (1, s)
  end.

(** A leading "0x" or "0X" switches to radix 16. *)
Definition stripHexPrefix (R : Z) (s : jsstring) : Z * jsstring :=
  match s with
  | z :: x :: r =>
    if (z =? 48) && ((x =? 120) || (x =? 88)) then (16, r) else (R, s)
  | _ => (R, s)
  end.

(** [parseInt(s, radix)]; [radix = 0] stands for an omitted radix. *)
Definition parseInt (s : jsstring) (radix : Z) : jsnum :=
  let '(sign, s1) := stripSign (trimStart s) in
  if negb (radix =? 0) && ((radix <? 2) || (36 <? radix)) then JNaN
  else
    let stripPrefix := (radix =? 0) || (radix =? 16) in
    let R0 := if radix =? 0 then 10 else radix in
    let '(R, s2) := if stripPrefix then stripHexPrefix R0 s1 else (R0, s1) in
    match digitsPrefix R s2 with
    | [] => JNaN
    | ds => JInt (sign * digitsValue R ds)
    end.

(** Decimal digits of a non-negative integer, most significant first. *)
Fixpoint decimalDigits (fuel : nat) (n : Z) : list Z :=
  match fuel with
  | O => [n]
  | S fuel' =>
    if n <? 10 then [n] else decimalDigits fuel' (n / 10) ++ [n mod 10]
  end.

Definition digitChars (n : Z) : jsstring :=
  map (fun d => 48 + d) (decimalDigits (Z.to_nat (Z.log2 n)) n).

(** [String(n)] / template-literal conversion of a number; integers below
    10^21 in magnitude print in plain decimal. *)
Definition numberToString (n : jsnum) : jsstring :=
  match n with
  | JNaN => [78; 97; 78]
  | JInt z => if z <? 0 then 45 :: digitChars (- z) else digitChars z
  end.

Definition isHighSurrogate (c : Z) : bool := (0xD800 <=? c) && (c <=? 0xDBFF).
Definition isLowSurrogate (c : Z) : bool := (0xDC00 <=? c) && (c <=? 0xDFFF).

(** [Buffer.from(str, 'utf8').toString('utf8')]: encoding to UTF-8 replaces
    every unpaired surrogate by U+FFFD; everything else survives. *)
Fixpoint utf8RoundTrip (s : jsstring) : jsstring :=
  match s with
  | [] => []
  | c :: r =>
    if isHighSurrogate c then
      match r with
      | d :: r' =>
        if isLowSurrogate d then c :: d :: utf8RoundTrip r'
        else 0xFFFD :: utf8RoundTrip r
      | [] => [0xFFFD]
      end
    else if isLowSurrogate c then 0xFFFD :: utf8RoundTrip r
    else c :: utf8RoundTrip r
  end.

End JS.

Import JS.


(** ** Unicode normalization

    [String.prototype.normalize('NFC')] is a primitive of the runtime.  The
    program is parameterised by it ([normalize_NFC] below); the properties
    of NFC that the proofs rely on are stated as hypotheses where they are
    used.  [Hangul.nfc] is an executable instance: canonical composition of
    conjoining Hangul jamo (Unicode 3.12), which is what NFC does on text
    made of Hangul and of characters that take no part in normalization
    (ASCII, digits, the middle dot). *)

Module Hangul.

Definition SBase := 0xAC00.
Definition LBase := 0x1100.
Definition VBase := 0x1161.
Definition TBase := 0x11A7.
Definition LCount := 19.
Definition VCount := 21.
Definition TCount := 28.
Definition SCount := 11172.

Definition isL (c : Z) : bool := (LBase <=? c) && (c <? LBase + LCount).
Definition isV (c : Z) : bool := (VBase <=? c) && (c <? VBase + VCount).
Definition isT (c : Z) : bool := (TBase <? c) && (c <? TBase + TCount).
Definition isLV (c : Z) : bool :=
  (SBase <=? c) && (c <? SBase + SCount) && ((c - SBase) mod TCount =? 0).

Definition composeLV (l v : Z) : Z :=
  SBase + ((l - LBase) * VCount + (v - VBase)) * TCount.
Definition composeLVT (lv t : Z) : Z := lv + (t - TBase).

(** Put [c] in front of an already composed text. *)
Definition attach (c : Z) (out : jsstring) : jsstring :=
  match out with
  | [] => [c]
  | d :: out' =>
    if isL c && isV d then
      let lv := composeLV c d in
      match out' with
      | t :: out'' => if isT t then composeLVT lv t :: out'' else lv :: out'
      | [] => [lv]
      end
    else if isLV c && isT d then composeLVT c d :: out'
    else c :: out
  end.

Fixpoint nfc (s : jsstring) : jsstring :=
  match s with
  | [] => []
  | c :: r => attach c (nfc r)
  end.

End Hangul.

(** ** script/upload_exams.ts *)

Module ExamMetadata.
Record t : Type := mk {
  grade_level : jsstring;
  category : jsstring;
  subject : jsstring;
  selection : jsstring;
  exam_type : jsstring;
  exam_year : jsnum;
  exam_month : jsnum;
  source : jsstring;
  doc_type : jsstring;
  filename : jsstring
}.
End ExamMetadata.

Module SupabaseRecord.
Record t : Type := mk {
  id : jsstring;
  title : jsstring;
  subject : jsstring;
  filename : jsstring;
  storage_path : jsstring;
  correct_answers : list (jsstring * jsstring);
  question_scores : list (jsstring * jsstring);
  created_at : jsstring;
  category : jsstring;
  source : jsstring;
  grade_level : jsstring;
  exam_year : jsnum;
  exam_month : jsnum;
  exam_type : jsstring;
  selection : jsstring
}.
End SupabaseRecord.

Module ExamFileUploader.

(** Valid values from the naming convention. *)
Definition validGradeLevels : list jsstring :=
  Eval vm_compute in map lit ["고1"; "고2"; "고3"]%string.
Definition validCategories : list jsstring :=
  Eval vm_compute in
    map lit ["국어"; "수학"; "영어"; "한국사"; "사회탐구"; "과학탐구";
             "직업탐구"; "제2외국어"]%string.
Definition validExamTypes : list jsstring :=
  Eval vm_compute in map lit ["수능"; "학력평가"; "모의고사"]%string.
Definition validSources : list jsstring :=
  Eval vm_compute in map lit ["평가원"; "교육청"; "사설"]%string.
Definition validDocTypes : list jsstring :=
  Eval vm_compute in map lit ["problem"; "answer"; "explanation"]%string.

Definition underscore : Z := 95.
Definition dot_pdf : jsstring := Eval vm_compute in lit ".pdf".

(** The closure [ensureUTF8] of [parseFilename]. *)
Definition ensureUTF8 (str : jsstring) : jsstring := utf8RoundTrip str.

(** [parts[i]]; every use below is within bounds by the length check. *)
Definition at_ (parts : list jsstring) (i : nat) : jsstring := nth i parts [].

(** The six components whose position depends on the number of parts and on
    [parts[3]]: (selection, examType, examYear, examMonth, source, docType). *)
Definition Components : Type :=
  (jsstring * jsstring * jsnum * jsnum * jsstring * jsstring)%type.

Definition layout (parts : list jsstring) : Components :=
  if (length parts =? 8)%nat then
    ([], at_ parts 3, parseInt (at_ parts 4) 0, parseInt (at_ parts 5) 0,
     at_ parts 6, at_ parts 7)
  else if bool_decide (at_ parts 3 = []) then
    ([], at_ parts 4, parseInt (at_ parts 5) 0, parseInt (at_ parts 6) 0,
     at_ parts 7, at_ parts 8)
  else if includes validExamTypes (at_ parts 3) then
    ([], at_ parts 3, parseInt (at_ parts 4) 0, parseInt (at_ parts 5) 0,
     at_ parts 6, at_ parts 7)
  else
    (at_ parts 3, at_ parts 4, parseInt (at_ parts 5) 0,
     parseInt (at_ parts 6) 0, at_ parts 7, at_ parts 8).

Section WithNormalizer.

Variable normalize_NFC : jsstring -> jsstring.

(** Second half of [parseFilename]: normalize, validate, build the record. *)
Definition validateComponents (gradeLevel category subject : jsstring)
    (c : Components) (filename : jsstring) : option ExamMetadata.t :=
  let '(selection, examType, examYear, examMonth, source, docType) := c in
  let normalizedGradeLevel := normalize_NFC gradeLevel in
  let normalizedCategory := normalize_NFC category in
  let normalizedExamType := normalize_NFC examType in
  let normalizedSource := normalize_NFC source in
  let normalizedDocType := normalize_NFC docType in
  let normalizedSubject := normalize_NFC subject in
  let normalizedSelection := normalize_NFC selection in
  let gradeLevelValid := includes validGradeLevels normalizedGradeLevel in
  let categoryValid := includes validCategories normalizedCategory in
  let examTypeValid := includes validExamTypes normalizedExamType in
  let sourceValid := includes validSources normalizedSource in
  let docTypeValid := includes validDocTypes normalizedDocType in
  let examYearValid := negb (isNaN examYear) in
  let examMonthValid := negb (isNaN examMonth) in
  if negb gradeLevelValid || negb categoryValid || negb examTypeValid
     || negb sourceValid || negb docTypeValid
     || negb examYearValid || negb examMonthValid
  then None
  else Some {|
    ExamMetadata.grade_level := ensureUTF8 normalizedGradeLevel;
    ExamMetadata.category := ensureUTF8 normalizedCategory;
    ExamMetadata.subject := ensureUTF8 normalizedSubject;
    ExamMetadata.selection := ensureUTF8 normalizedSelection;
    ExamMetadata.exam_type := ensureUTF8 normalizedExamType;
    ExamMetadata.exam_year := examYear;
    ExamMetadata.exam_month := examMonth;
    ExamMetadata.source := ensureUTF8 normalizedSource;
    ExamMetadata.doc_type := ensureUTF8 normalizedDocType;
    ExamMetadata.filename := filename
  |}.

(** [parseFilename(filename)]; [None] is the [null] result. *)
Definition parseFilename (filename : jsstring) : option ExamMetadata.t :=
  if negb (endsWith filename dot_pdf) then None
  else
    let name := slice_to_end_minus filename 4 in
    let parts := split underscore name in
    if (length parts <? 8)%nat || (9 <? length parts)%nat then None
    else
      let gradeLevel := at_ parts 0 in
      let category := at_ parts 1 in
      let subject := at_ parts 2 in
      validateComponents gradeLevel category subject (layout parts) filename.

End WithNormalizer.

(** [generateTitle(metadata)]. *)
Definition generateTitle (metadata : ExamMetadata.t) : jsstring :=
  let selectionText :=
    match ExamMetadata.selection metadata with
    | [] => []
    | sel => 32 :: sel
    end in
  ExamMetadata.grade_level metadata ++ [32]
  ++ ExamMetadata.category metadata ++ [32]
  ++ ExamMetadata.subject metadata ++ selectionText ++ [32]
  ++ ExamMetadata.exam_type metadata ++ [32]
  ++ numberToString (ExamMetadata.exam_year metadata) ++ lit "년 "
  ++ numberToString (ExamMetadata.exam_month metadata) ++ lit "월 "
  ++ ExamMetadata.source metadata.

Definition slash : Z := 47.
Definition exams_prefix : jsstring := Eval vm_compute in lit "exams/".

(** [generateStoragePath(metadata)]. *)
Definition generateStoragePath (metadata : ExamMetadata.t) : jsstring :=
  let selectionPath :=
    match ExamMetadata.selection metadata with
    | [] => []
    | sel => slash :: sel
    end in
  exams_prefix
  ++ ExamMetadata.grade_level metadata ++ [slash]
  ++ ExamMetadata.category metadata ++ [slash]
  ++ ExamMetadata.subject metadata ++ selectionPath ++ [slash]
  ++ numberToString (ExamMetadata.exam_year metadata) ++ [slash]
  ++ numberToString (ExamMetadata.exam_month metadata) ++ [slash]
  ++ ExamMetadata.source metadata ++ [slash]
  ++ ExamMetadata.doc_type metadata ++ dot_pdf.

(** *** The stores and the console

    The bucket maps a key to the uploaded file (named by its path), the
    [documents] table holds the upserted rows, the console keeps what was
    logged.  What the outside decides (whether a write is accepted, the
    UUID drawn, the clock) is given by [Externals]. *)

Inductive LogLine : Type :=
  | SkippingInvalidFilename (filename : jsstring)
  | UploadedToS3 (s3Key : jsstring)
  | S3UploadFailed (filePath : jsstring)
  | UploadedToSupabase (filename : jsstring)
  | SupabaseUploadFailed (filename : jsstring)
  | DataDirectoryNotFound (dataPath : jsstring)
  | NoPdfFilesFound (dataPath : jsstring)
  | FoundPdfFiles (n : nat)
  | UploadSummary (successCount total : nat).

Record World : Type := mkWorld {
  bucket : list (jsstring * jsstring);
  documents : list SupabaseRecord.t;
  console : list LogLine
}.

Record Externals : Type := mkExternals {
  s3_accepts : World -> jsstring -> jsstring -> bool;
  supabase_accepts : World -> SupabaseRecord.t -> bool;
  randomUUID : World -> jsstring;
  now : World -> jsstring
}.

Definition log (l : LogLine) (w : World) : World :=
  mkWorld (bucket w) (documents w) (console w ++ [l]).

Definition putObject (key filePath : jsstring) (w : World) : World :=
  mkWorld ((key, filePath) :: filter (fun kv => kv.1 ≠ key) (bucket w))
          (documents w) (console w).

Definition upsert (data : SupabaseRecord.t) (w : World) : World :=
  mkWorld (bucket w)
          (filter (fun r => SupabaseRecord.id r ≠ SupabaseRecord.id data)
                  (documents w) ++ [data])
          (console w).

(** [path.join(dataPath, file)] for a resolved directory and one of its
    entries (nothing to normalize), and POSIX [path.basename(filePath)]:
    trailing separators are ignored, the rest after the last separator is
    the base name. *)
Definition path_join (dataPath file : jsstring) : jsstring :=
  dataPath ++ [slash] ++ file.

Fixpoint dropLeadingSlashes (s : jsstring) : jsstring :=
  match s with
  | [] => []
  | c :: r => if c =? slash then dropLeadingSlashes r else s
  end.

Definition path_basename (filePath : jsstring) : jsstring :=
  List.last (split slash (rev (dropLeadingSlashes (rev filePath)))) [].

Section Pipeline.

Variable normalize_NFC : jsstring -> jsstring.
Variable ext : Externals.

(** [uploadToS3(filePath, s3Key)]: every exception is caught. *)
Definition uploadToS3 (filePath s3Key : jsstring) (w : World) : bool * World :=
  if s3_accepts ext w filePath s3Key
  then (true, log (UploadedToS3 s3Key) (putObject s3Key filePath w))
  else (false, log (S3UploadFailed filePath) w).

(** The row built by [uploadToSupabase]. *)
Definition supabaseRecord (metadata : ExamMetadata.t) (storagePath : jsstring)
    (w : World) : SupabaseRecord.t :=
  {| SupabaseRecord.id := randomUUID ext w;
     SupabaseRecord.title := generateTitle metadata;
     SupabaseRecord.subject := ExamMetadata.subject metadata;
     SupabaseRecord.filename := ExamMetadata.filename metadata;
     SupabaseRecord.storage_path := storagePath;
     SupabaseRecord.correct_answers := [];
     SupabaseRecord.question_scores := [];
     SupabaseRecord.created_at := now ext w;
     SupabaseRecord.category := ExamMetadata.category metadata;
     SupabaseRecord.source := ExamMetadata.source metadata;
     SupabaseRecord.grade_level := ExamMetadata.grade_level metadata;
     SupabaseRecord.exam_year := ExamMetadata.exam_year metadata;
     SupabaseRecord.exam_month := ExamMetadata.exam_month metadata;
     SupabaseRecord.exam_type := ExamMetadata.exam_type metadata;
     SupabaseRecord.selection := ExamMetadata.selection metadata |}.

(** [uploadToSupabase(metadata, storagePath)]: every exception is caught. *)
Definition uploadToSupabase (metadata : ExamMetadata.t)
    (storagePath : jsstring) (w : World) : bool * World :=
  let data := supabaseRecord metadata storagePath w in
  if supabase_accepts ext w data
  then (true, log (UploadedToSupabase (ExamMetadata.filename metadata))
                  (upsert data w))
  else (false, log (SupabaseUploadFailed (ExamMetadata.filename metadata)) w).

(** [processFile(filePath)]. *)
Definition processFile (filePath : jsstring) (w : World) : bool * World :=
  let filename := path_basename filePath in
  match parseFilename normalize_NFC filename with
  | None => (false, log (SkippingInvalidFilename filename) w)
  | Some metadata =>
    let storagePath := generateStoragePath metadata in
    let '(s3Success, w1) := uploadToS3 filePath storagePath w in
    if negb s3Success then (false, w1)
    else uploadToSupabase metadata storagePath w1
  end.

(** The [for] loop of [uploadAllFiles], with its counter. *)
Fixpoint uploadLoop (pdfFiles : list jsstring) (successCount : nat)
    (w : World) : nat * World :=
  match pdfFiles with
  | [] => (successCount, w)
  | filePath :: rest =>
    let '(ok, w1) := processFile filePath w in
    uploadLoop rest (if ok then S successCount else successCount) w1
  end.

(** [uploadAllFiles(dataDir)]: [dataPath] is the resolved directory and
    [listing] what [readdirSync] returns, [None] when it does not exist. *)
Definition uploadAllFiles (dataPath : jsstring)
    (listing : option (list jsstring)) (w : World) : World :=
  match listing with
  | None => log (DataDirectoryNotFound dataPath) w
  | Some files =>
    let pdfFiles :=
      map (path_join dataPath)
          (List.filter (fun file => endsWith file dot_pdf) files) in
    match pdfFiles with
    | [] => log (NoPdfFilesFound dataPath) w
    | _ =>
      let w0 := log (FoundPdfFiles (length pdfFiles)) w in
      let '(successCount, w1) := uploadLoop pdfFiles 0%nat w0 in
      log (UploadSummary successCount (length pdfFiles)) w1
    end
  end.

End Pipeline.

End ExamFileUploader.

(** ** script/rename_exams.ts *)

Module RenameExams.

Definition GRADE_LEVEL : jsstring := Eval vm_compute in lit "고3".
Definition EXAM_TYPE : jsstring := Eval vm_compute in lit "수능".
Definition EXAM_YEAR : jsstring := Eval vm_compute in lit "2024".
Definition EXAM_MONTH : jsstring := Eval vm_compute in lit "11".
Definition SOURCE : jsstring := Eval vm_compute in lit "평가원".

Record SubjectInfo : Type := mkInfo {
  category : jsstring;
  subject : jsstring;
  selection : option jsstring
}.

Definition info (c s : string) : SubjectInfo := mkInfo (lit c) (lit s) None.

Definition SUBJECT_MAPPINGS : list (jsstring * SubjectInfo) :=
  Eval vm_compute in
  [ (lit "국어", info "국어" "국어");
    (lit "수학", info "수학" "수학");
    (lit "영어", info "영어" "영어");
    (lit "한국사", info "한국사" "한국사");
    (lit "생활과윤리", info "사회탐구" "생활과 윤리");
    (lit "윤리와사상", info "사회탐구" "윤리와 사상");
    (lit "한국지리", info "사회탐구" "한국지리");
    (lit "세계지리", info "사회탐구" "세계지리");
    (lit "동아시아사", info "사회탐구" "동아시아사");
    (lit "세계사", info "사회탐구" "세계사");
    (lit "경제", info "사회탐구" "경제");
    (lit "정치와법", info "사회탐구" "정치와 법");
    (lit "사회문화", info "사회탐구" "사회·문화");
    (lit "물리학1", info "과학탐구" "물리학 I");
    (lit "물리학2", info "과학탐구" "물리학 II");
    (lit "화학1", info "과학탐구" "화학 I");
    (lit "화학2", info "과학탐구" "화학 II");
    (lit "생명과학1", info "과학탐구" "생명과학 I");
    (lit "생명과학2", info "과학탐구" "생명과학 II");
    (lit "지구과학1", info "과학탐구" "지구과학 I");
    (lit "지구과학2", info "과학탐구" "지구과학 II") ]%string.

Definition DOC_TYPE_MAPPINGS : list (jsstring * jsstring) :=
  Eval vm_compute in
  [ (lit "문제", lit "problem");
    (lit "정답", lit "answer");
    (lit "답지", lit "answer") ]%string.

Fixpoint lookup_key {V : Type} (table : list (jsstring * V)) (key : jsstring)
    : option V :=
  match table with
  | [] => None
  | (k, v) :: rest => if bool_decide (k = key) then Some v else lookup_key rest key
  end.

(** The array literal, [parts.join("_") + ".pdf"] of [generateNewFilename]. *)
Definition joinComponents (gradeLevel category subject selection examType
    examYear examMonth source docType : jsstring) : jsstring :=
  join [ExamFileUploader.underscore]
       [gradeLevel; category; subject; selection; examType; examYear;
        examMonth; source; docType]
  ++ ExamFileUploader.dot_pdf.

(** [generateNewFilename]; [subjectKey] and [docTypeKey] are the results of
    [extractSubjectFromFilename] and [extractDocTypeFromFilename] ([None]
    for [null]), which match the old name against regular expressions. *)
Definition generateNewFilename (subjectKey docTypeKey : option jsstring)
    : option jsstring :=
  match subjectKey, docTypeKey with
  | Some sk, Some dk =>
    match sk, dk with
    | [], _ | _, [] => None
    | _, _ =>
      match lookup_key SUBJECT_MAPPINGS sk, lookup_key DOC_TYPE_MAPPINGS dk with
      | Some subjectInfo, Some docType =>
        Some (joinComponents GRADE_LEVEL (category subjectInfo)
                (subject subjectInfo)
                (default [] (selection subjectInfo))
                EXAM_TYPE EXAM_YEAR EXAM_MONTH SOURCE docType)
      | _, _ => None
      end
    end
  | _, _ => None
  end.

(** The same join applied to the nine fields of a metadata record, the two
    numbers converted as a template literal would. *)
Definition buildFilename (m : ExamMetadata.t) : jsstring :=
  joinComponents (ExamMetadata.grade_level m) (ExamMetadata.category m)
    (ExamMetadata.subject m) (ExamMetadata.selection m)
    (ExamMetadata.exam_type m)
    (numberToString (ExamMetadata.exam_year m))
    (numberToString (ExamMetadata.exam_month m))
    (ExamMetadata.source m) (ExamMetadata.doc_type m).

End RenameExams.


(** ** src/documents/documents.service.ts *)

Module Document.
Record t : Type := mk {
  id : jsstring;
  title : jsstring;
  subject : jsstring;
  category : jsstring;
  exam_year : Z;
  exam_month : Z;
  exam_type : jsstring;
  selection : jsstring;
  grade_level : jsstring;
  filename : jsstring;
  storage_path : jsstring;
  created_at : jsstring;
  source : option jsstring
}.
End Document.

#[global] Instance Document_eq_dec : EqDecision Document.t.
Proof. solve_decision. Defined.

Module DocumentFilters.
Record t : Type := mk {
  grade_levels : option (list jsstring);
  categories : option (list jsstring);
  exam_years : option (list jsnum);
  exam_months : option (list jsnum)
}.
End DocumentFilters.

(** Code-unit order of strings: the order of the default [sort()], and of
    the store on ISO timestamps. *)
Fixpoint str_leb (a b : jsstring) : bool :=
  match a, b with
  | [], _ => true
  | _ :: _, [] => false
  | x :: a', y :: b' => (x <? y) || ((x =? y) && str_leb a' b')
  end.

Definition str_le (a b : jsstring) : Prop := str_leb a b = true.

#[global] Instance str_le_dec : RelDecision str_le.
Proof. intros a b. unfold str_le. apply _. Defined.

(** [[...new Set(arr)]]: distinct values in order of first occurrence. *)
Definition newSet {A : Type} `{EqDecision A} (arr : list A) : list A :=
  fold_left (fun acc x => if decide (x ∈ acc) then acc else acc ++ [x]) arr [].

Module DocumentsService.

Section WithNormalizer.

Variable normalize_NFC : jsstring -> jsstring.

(** [normalizeKoreanText(text)]: the empty string is falsy. *)
Definition normalizeKoreanText (text : jsstring) : jsstring :=
  match text with
  | [] => text
  | _ => normalize_NFC text
  end.

(** [normalizeInput(text)]. *)
Definition normalizeInput (text : jsstring) : jsstring :=
  match text with
  | [] => text
  | _ => normalize_NFC (trim text)
  end.

(** The store: [table] is the content of [documents]. *)
Definition newest_first (a b : Document.t) : Prop :=
  str_le (Document.created_at b) (Document.created_at a).

#[global] Instance newest_first_dec : RelDecision newest_first.
Proof. intros a b. unfold newest_first. apply _. Defined.

(** [.order('created_at', { ascending: false })]. *)
Definition order_created_at_desc (rows : list Document.t) : list Document.t :=
  merge_sort newest_first rows.

(** [.in(column, values)]. *)
Definition in_ {A : Type} `{EqDecision A} (column : Document.t -> A)
    (values : list A) (rows : list Document.t) : list Document.t :=
  filter (fun d => column d ∈ values) rows.

(** [.eq(column, value)]. *)
Definition eq_ {A : Type} `{EqDecision A} (column : Document.t -> A)
    (value : A) (rows : list Document.t) : list Document.t :=
  filter (fun d => column d = value) rows.

Definition getAllDocuments (table : list Document.t) : list Document.t :=
  order_created_at_desc table.

(** [if (filters.f && filters.f.length > 0) query = step(query)]. *)
Definition whenNonEmpty {A : Type} (field : option (list A))
    (step : list A -> list Document.t -> list Document.t)
    (query : list Document.t) : list Document.t :=
  match field with
  | Some (v :: vs) => step (v :: vs) query
  | _ => query
  end.

Definition getDocumentsWithFilters (filters : DocumentFilters.t)
    (table : list Document.t) : list Document.t :=
  let query := table in
  let query :=
    whenNonEmpty (DocumentFilters.grade_levels filters)
      (fun levels => in_ Document.grade_level (map normalizeKoreanText levels))
      query in
  let query :=
    whenNonEmpty (DocumentFilters.categories filters)
      (fun cats => in_ Document.category (map normalizeKoreanText cats))
      query in
  let query :=
    whenNonEmpty (DocumentFilters.exam_years filters)
      (in_ (fun d => JInt (Document.exam_year d))) query in
  let query :=
    whenNonEmpty (DocumentFilters.exam_months filters)
      (in_ (fun d => JInt (Document.exam_month d))) query in
  order_created_at_desc query.

Record FilterValues : Type := mkValues {
  grade_levels : list jsstring;
  categories : list jsstring;
  exam_years : list Z;
  exam_months : list Z
}.

Definition getAvailableFilterValues (table : list Document.t) : FilterValues :=
  let documents := getAllDocuments table in
  {| grade_levels :=
       merge_sort str_le
         (newSet (map (fun doc => normalizeKoreanText (Document.grade_level doc))
                      documents));
     categories :=
       merge_sort str_le
         (newSet (map (fun doc => normalizeKoreanText (Document.category doc))
                      documents));
     exam_years := merge_sort Z.ge (newSet (map Document.exam_year documents));
     exam_months := merge_sort Z.le (newSet (map Document.exam_month documents))
  |}.

Definition getDocumentsByCategory (category : jsstring)
    (table : list Document.t) : list Document.t :=
  order_created_at_desc
    (eq_ Document.category (normalizeKoreanText category) table).

Definition getDocumentsBySubject (subject : jsstring)
    (table : list Document.t) : list Document.t :=
  order_created_at_desc
    (eq_ Document.subject (normalizeKoreanText subject) table).

End WithNormalizer.

(** [.single()]: the query must yield exactly one row, otherwise the store
    answers with an error ([None]). *)
Definition single (rows : list Document.t) : option Document.t :=
  match rows with
  | [d] => Some d
  | _ => None
  end.

(** [getDocumentById(id)]; [None] stands for the thrown error. *)
Definition getDocumentById (id : jsstring) (table : list Document.t)
    : option Document.t :=
  single (eq_ Document.id id table).

End DocumentsService.

(** ** src/documents/documents.controller.ts *)

Module DocumentsController.

Definition comma : Z := 44.

(** A query parameter is [None] when missing; [if (param)] also fails for
    the empty string. *)
Definition whenTruthy {A : Type} (param : option jsstring)
    (decode : jsstring -> A) : option A :=
  match param with
  | Some (c :: r) => Some (decode (c :: r))
  | _ => None
  end.

(** The four [if] blocks that fill [filters] in [getDocumentsWithFilters]. *)
Definition parseQuery (gradeLevels categories examYears examMonths
    : option jsstring) : DocumentFilters.t :=
  {| DocumentFilters.grade_levels :=
       whenTruthy gradeLevels (fun p => map trim (split comma p));
     DocumentFilters.categories :=
       whenTruthy categories (fun p => map trim (split comma p));
     DocumentFilters.exam_years :=
       whenTruthy examYears
         (fun p => map (fun year => parseInt (trim year) 10) (split comma p));
     DocumentFilters.exam_months :=
       whenTruthy examMonths
         (fun p => map (fun month => parseInt (trim month) 10) (split comma p))
  |}.

Record Envelope : Type := mkEnvelope {
  success : bool;
  data : list Document.t;
  count : nat
}.

Definition getDocumentsWithFilters (normalize_NFC : jsstring -> jsstring)
    (gradeLevels categories examYears examMonths : option jsstring)
    (table : list Document.t) : Envelope :=
  let filters := parseQuery gradeLevels categories examYears examMonths in
  let documents :=
    DocumentsService.getDocumentsWithFilters normalize_NFC filters table in
  {| success := true; data := documents; count := length documents |}.

(** [getDocumentById]: [{ success, data }], [data] being [null] on error. *)
Definition getDocumentById (id : jsstring) (table : list Document.t)
    : bool * option Document.t :=
  match DocumentsService.getDocumentById id table with
  | Some document => (true, Some document)
  | None => (false, None)
  end.

(** [getAvailableCategories] and [getAvailableSubjects]: the distinct
    values of a column over all documents ([exam_type] for the first). *)
Definition getAvailableCategories (table : list Document.t)
    : bool * list jsstring :=
  let documents := DocumentsService.getAllDocuments table in
  (true, newSet (map Document.exam_type documents)).

Definition getAvailableSubjects (table : list Document.t)
    : bool * list jsstring :=
  let documents := DocumentsService.getAllDocuments table in
  (true, newSet (map Document.subject documents)).

End DocumentsController.

(** ** script/fix_korean_normalization.ts *)

Module KoreanNormalizationFixer.

Section WithNormalizer.

Variable normalize_NFC : jsstring -> jsstring.

Definition normalizeKoreanText (text : jsstring) : jsstring :=
  match text with
  | [] => text
  | _ => normalize_NFC text
  end.

Definition needsNormalization (text : jsstring) : bool :=
  match text with
  | [] => false
  | _ => negb (bool_decide (text = normalizeKoreanText text))
  end.

(** The [updates] object of [fixAllDocuments]: a [Partial<DocumentRecord>]
    that holds a value for each field to rewrite. *)
Record Updates : Type := mkUpdates {
  title : option jsstring;
  subject : option jsstring;
  category : option jsstring;
  exam_type : option jsstring;
  selection : option jsstring;
  grade_level : option jsstring;
  source : option jsstring
}.

(** One round of the loop over [fieldsToCheck]:
    [if (originalValue && this.needsNormalization(originalValue))
       updates[field] = this.normalizeKoreanText(originalValue)];
    a missing value and the empty string are falsy. *)
Definition checkField (originalValue : option jsstring) : option jsstring :=
  match originalValue with
  | Some (c :: r) =>
    if needsNormalization (c :: r) then Some (normalizeKoreanText (c :: r))
    else None
  | _ => None
  end.

Definition updatesFor (doc : Document.t) : Updates :=
  {| title := checkField (Some (Document.title doc));
     subject := checkField (Some (Document.subject doc));
     category := checkField (Some (Document.category doc));
     exam_type := checkField (Some (Document.exam_type doc));
     selection := checkField (Some (Document.selection doc));
     grade_level := checkField (Some (Document.grade_level doc));
     source := checkField (Document.source doc) |}.

Definition isSome {A : Type} (o : option A) : bool :=
  match o with Some _ => true | None => false end.

Definition hasChanges (updates : Updates) : bool :=
  isSome (title updates) || isSome (subject updates)
  || isSome (category updates) || isSome (exam_type updates)
  || isSome (selection updates) || isSome (grade_level updates)
  || isSome (source updates).

(** The store: [.update(updates).eq('id', id)] rewrites the given fields
    of every row with that id. *)
Definition applyUpdates (updates : Updates) (row : Document.t) : Document.t :=
  {| Document.id := Document.id row;
     Document.title := default (Document.title row) (title updates);
     Document.subject := default (Document.subject row) (subject updates);
     Document.category := default (Document.category row) (category updates);
     Document.exam_year := Document.exam_year row;
     Document.exam_month := Document.exam_month row;
     Document.exam_type := default (Document.exam_type row) (exam_type updates);
     Document.selection := default (Document.selection row) (selection updates);
     Document.grade_level :=
       default (Document.grade_level row) (grade_level updates);
     Document.filename := Document.filename row;
     Document.storage_path := Document.storage_path row;
     Document.created_at := Document.created_at row;
     Document.source :=
       match source updates with
       | Some v => Some v
       | None => Document.source row
       end |}.

Definition update (updates : Updates) (id : jsstring)
    (table : list Document.t) : list Document.t :=
  map (fun row => if decide (Document.id row = id)
                  then applyUpdates updates row else row) table.

(** Whether the store accepts an update is decided outside. *)
Variable update_accepts : list Document.t -> jsstring -> Updates -> bool.

(** [updateDocument(id, updates)]: every error is caught. *)
Definition updateDocument (id : jsstring) (updates : Updates)
    (table : list Document.t) : bool * list Document.t :=
  if update_accepts table id updates then (true, update updates id table)
  else (false, table).

(** The [for] loop of [fixAllDocuments] over the fetched documents, with
    its two counters; the lines logged per field and per document are left
    out. *)
Fixpoint fixLoop (documents : list Document.t)
    (totalFixed documentsWithIssues : nat) (table : list Document.t)
    : nat * nat * list Document.t :=
  match documents with
  | [] => (totalFixed, documentsWithIssues, table)
  | doc :: rest =>
    let updates := updatesFor doc in
    if hasChanges updates then
      let '(success, table1) :=
        updateDocument (Document.id doc) updates table in
      fixLoop rest (if success then S totalFixed else totalFixed)
              (S documentsWithIssues) table1
    else fixLoop rest totalFixed documentsWithIssues table
  end.

(** The four numbers of the normalization summary. *)
Record Summary : Type := mkSummary {
  checked : nat;
  withIssues : nat;
  fixed : nat;
  failed : nat
}.

(** [fixAllDocuments()]: the documents are fetched once, before the loop;
    the result is the summary printed and the table left behind. *)
Definition fixAllDocuments (table : list Document.t)
    : Summary * list Document.t :=
  let documents := table in
  let '(totalFixed, documentsWithIssues, table1) :=
    fixLoop documents 0%nat 0%nat table in
  (mkSummary (length documents) documentsWithIssues totalFixed
             (documentsWithIssues - totalFixed), table1).

(** [showExamples()]: the file names of the documents printed, and whether
    the closing line reports that no issue was found. *)
Fixpoint showLoop (documents : list Document.t) (examplesFound : nat)
    (shown : list jsstring) : nat * list jsstring :=
  match documents with
  | [] => (examplesFound, shown)
  | doc :: rest =>
    if hasChanges (updatesFor doc) then
      let shown1 := shown ++ [Document.filename doc] in
      let examplesFound1 := S examplesFound in
      if (5 <=? examplesFound1)%nat then (examplesFound1, shown1)
      else showLoop rest examplesFound1 shown1
    else showLoop rest examplesFound shown
  end.

Definition showExamples (table : list Document.t) : list jsstring * bool :=
  let '(examplesFound, shown) := showLoop table 0%nat [] in
  (shown, (examplesFound =? 0)%nat).

End WithNormalizer.

End KoreanNormalizationFixer.
(** ** The database encoding fix script (src/unnamed/part_001) *)

Module DatabaseEncodingFixer.

Definition space : Z := 32.

(** [extractCategoryFromTitle(title)]: the second space-separated word. *)
Definition extractCategoryFromTitle (title : jsstring) : option jsstring :=
  match title with
  | [] => None
  | _ =>
    let parts := split space title in
    if (length parts <? 2)%nat then None else Some (nth 1 parts [])
  end.

(** [ensureProperUTF8(text)]. *)
Definition ensureProperUTF8 (text : jsstring) : jsstring :=
  match text with
  | [] => text
  | _ => utf8RoundTrip text
  end.

(** [text.includes(sub)]. *)
Fixpoint includesString (text sub : jsstring) : bool :=
  startsWith text sub
  || match text with
     | [] => false
     | _ :: rest => includesString rest sub
     end.

(** The table of [normalizeKoreanText], in source order. *)
Definition encodingFixes : list (jsstring * jsstring) :=
  Eval vm_compute in
  [ (lit "과학탐구", lit "과학탐구");
    (lit "사회탐구", lit "사회탐구");
    (lit "한국사", lit "한국사");
    (lit "국어", lit "국어");
    (lit "수학", lit "수학");
    (lit "영어", lit "영어") ]%string.

(** [normalizeKoreanText(text)]: the first entry whose key occurs in the
    text decides. *)
Fixpoint firstFix (entries : list (jsstring * jsstring)) (text : jsstring)
    : option jsstring :=
  match entries with
  | [] => None
  | (malformed, correct) :: rest =>
    if includesString text malformed || bool_decide (text = malformed)
    then Some correct
    else firstFix rest text
  end.

Definition normalizeKoreanText (text : jsstring) : jsstring :=
  match text with
  | [] => text
  | _ =>
    match firstFix encodingFixes text with
    | Some correct => ensureProperUTF8 correct
    | None => ensureProperUTF8 text
    end
  end.

(** The table of [getCorrectCategory]. *)
Definition subjectToCategory : list (jsstring * jsstring) :=
  Eval vm_compute in
  [ (lit "물리학 I", lit "과학탐구");
    (lit "물리학 II", lit "과학탐구");
    (lit "화학 I", lit "과학탐구");
    (lit "화학 II", lit "과학탐구");
    (lit "생명과학 I", lit "과학탐구");
    (lit "생명과학 II", lit "과학탐구");
    (lit "지구과학 I", lit "과학탐구");
    (lit "지구과학 II", lit "과학탐구");
    (lit "한국지리", lit "사회탐구");
    (lit "세계지리", lit "사회탐구");
    (lit "세계사", lit "사회탐구");
    (lit "동아시아사", lit "사회탐구");
    (lit "경제", lit "사회탐구");
    (lit "정치와 법", lit "사회탐구");
    (lit "사회·문화", lit "사회탐구");
    (lit "생활과 윤리", lit "사회탐구");
    (lit "윤리와 사상", lit "사회탐구");
    (lit "국어", lit "국어");
    (lit "수학", lit "수학");
    (lit "영어", lit "영어");
    (lit "한국사", lit "한국사") ]%string.

(** [getCorrectCategory(subject)], for a subject that is not the name of a
    property of [Object.prototype]. *)
Definition getCorrectCategory (subject : jsstring) : jsstring :=
  match subject with
  | [] => []
  | _ => default [] (RenameExams.lookup_key subjectToCategory subject)
  end.

(** [.update({ category }).eq('id', id)]. *)
Definition updateCategory (category id : jsstring) (table : list Document.t)
    : list Document.t :=
  map (fun row =>
         if decide (Document.id row = id)
         then Document.mk (Document.id row) (Document.title row)
                (Document.subject row) category (Document.exam_year row)
                (Document.exam_month row) (Document.exam_type row)
                (Document.selection row) (Document.grade_level row)
                (Document.filename row) (Document.storage_path row)
                (Document.created_at row) (Document.source row)
         else row) table.

Section Fixer.

(** Whether the store accepts an update is decided outside. *)
Variable update_accepts : list Document.t -> jsstring -> jsstring -> bool.

(** The [for] loop of [fixCategoryEncoding] over the fetched documents,
    with its two counters; the console lines are left out. *)
Fixpoint categoryLoop (documents : list Document.t)
    (updatedCount errorCount : nat) (table : list Document.t)
    : nat * nat * list Document.t :=
  match documents with
  | [] => (updatedCount, errorCount, table)
  | doc :: rest =>
    match getCorrectCategory (Document.subject doc) with
    | [] => categoryLoop rest updatedCount errorCount table
    | correctCategory =>
      let normalizedCategory := normalizeKoreanText correctCategory in
      if update_accepts table (Document.id doc) normalizedCategory
      then categoryLoop rest (S updatedCount) errorCount
             (updateCategory normalizedCategory (Document.id doc) table)
      else categoryLoop rest updatedCount (S errorCount) table
    end
  end.

(** [fixCategoryEncoding()], the documents having been fetched: the two
    numbers of the summary and the table left behind. *)
Definition fixCategoryEncoding (table : list Document.t)
    : nat * nat * list Document.t :=
  categoryLoop table 0%nat 0%nat table.

End Fixer.

End DatabaseEncodingFixer.

(** ** script/cleanup_exams.ts *)

Module ExamFileCleanup.

Import ExamFileUploader.

Definition nil_uuid : jsstring :=
  Eval vm_compute in lit "00000000-0000-0000-0000-000000000000".

Definition batchSize : nat := 1000.

(** What the outside decides: whether the count, the deletion of the rows,
    the listing and the deletion of one object succeed. *)
Record Externals : Type := mkExternals {
  count_succeeds : World -> bool;
  delete_rows_succeeds : World -> bool;
  list_succeeds : World -> bool;
  delete_object_succeeds : World -> jsstring -> bool
}.

Section Cleanup.

Variable ext : Externals.

(** [deleteFromSupabase()]: the rows are counted, then every row whose id
    is not the nil UUID is deleted; the number returned is the count taken
    before.  Every error is caught and gives 0.  The console lines of this
    script are left out. *)
Definition deleteFromSupabase (w : World) : nat * World :=
  if negb (count_succeeds ext w) then (0%nat, w)
  else
    let count := length (documents w) in
    if negb (delete_rows_succeeds ext w) then (0%nat, w)
    else (count,
          mkWorld (bucket w)
                  (filter (fun r => SupabaseRecord.id r = nil_uuid) (documents w))
                  (console w)).

(** [listS3Objects(prefix)]: the keys that start with the prefix, over all
    pages; an error gives the empty list. *)
Definition listS3Objects (prefix : jsstring) (w : World) : list jsstring :=
  if list_succeeds ext w
  then filter (fun key => startsWith key prefix = true) (map fst (bucket w))
  else [].

(** One batch: a delete command is sent for every key at once, and
    [Promise.all] fails when one of them fails; the objects whose command
    succeeded are gone either way. *)
Definition deleteBatch (batch : list jsstring) (w : World) : bool * World :=
  let deleted := List.filter (delete_object_succeeds ext w) batch in
  (forallb (delete_object_succeeds ext w) batch,
   mkWorld (filter (fun kv => kv.1 ∉ deleted) (bucket w))
           (documents w) (console w)).

(** [for (let i = 0; i < objects.length; i += batchSize)]; [None] stands
    for the exception that leaves the loop.  The index advances at every
    round, so [length objects] rounds are enough. *)
Fixpoint deleteLoop (rounds : nat) (objects : list jsstring) (i : nat)
    (deletedCount : nat) (w : World) : option nat * World :=
  match rounds with
  | O => (Some deletedCount, w)
  | S rounds' =>
    if (i <? length objects)%nat then
      let batch := take batchSize (drop i objects) in
      let '(ok, w1) := deleteBatch batch w in
      if ok
      then deleteLoop rounds' objects (i + batchSize)%nat
                      (deletedCount + length batch)%nat w1
      else (None, w1)
    else (Some deletedCount, w)
  end.

(** [deleteFromS3()]. *)
Definition deleteFromS3 (w : World) : nat * World :=
  let objects := listS3Objects exams_prefix w in
  match objects with
  | [] => (0%nat, w)
  | _ =>
    match deleteLoop (length objects) objects 0%nat 0%nat w with
    | (Some deletedCount, w1) => (deletedCount, w1)
    | (None, w1) => (0%nat, w1)
    end
  end.

(** [cleanup()]: the two numbers of the summary and the stores left. *)
Definition cleanup (w : World) : nat * nat * World :=
  let '(supabaseDeleted, w1) := deleteFromSupabase w in
  let '(s3Deleted, w2) := deleteFromS3 w1 in
  (supabaseDeleted, s3Deleted, w2).

End Cleanup.

End ExamFileCleanup.

(** ** The thumbnail generation script (src/unnamed/part_003) *)

Module ThumbnailGenerator.

Import ExamFileUploader.

Definition documents_prefix : jsstring := Eval vm_compute in lit "documents/".
Definition thumbnails_prefix : jsstring := Eval vm_compute in lit "thumbnails/".
Definition dot_png : jsstring := Eval vm_compute in lit ".png".

(** The two keys of [processDocument]. *)
Definition pdfS3Key (documentId : jsstring) : jsstring :=
  documents_prefix ++ documentId ++ dot_pdf.
Definition thumbnailS3Key (documentId : jsstring) : jsstring :=
  thumbnails_prefix ++ documentId ++ dot_png.

(** The object stored under a key, if any. *)
Fixpoint getObject (key : jsstring) (objects : list (jsstring * jsstring))
    : option jsstring :=
  match objects with
  | [] => None
  | (k, body) :: rest =>
    if bool_decide (k = key) then Some body else getObject key rest
  end.

(** What the outside decides: whether a read or a write of the bucket
    succeeds, and the picture rendered from a PDF, if any. *)
Record Externals : Type := mkExternals {
  get_succeeds : World -> jsstring -> bool;
  render : jsstring -> option jsstring;
  put_succeeds : World -> jsstring -> bool
}.

Section Generator.

Variable ext : Externals.

(** [thumbnailExists(s3Key)]: true when the read succeeds. *)
Definition thumbnailExists (s3Key : jsstring) (w : World) : bool :=
  match getObject s3Key (bucket w) with
  | Some _ => get_succeeds ext w s3Key
  | None => false
  end.

(** [downloadPDFFromS3(s3Key, localPath)]: the file downloaded, if any. *)
Definition downloadPDFFromS3 (s3Key : jsstring) (w : World) : option jsstring :=
  match getObject s3Key (bucket w) with
  | Some body => if get_succeeds ext w s3Key then Some body else None
  | None => None
  end.

(** [uploadThumbnailToS3(localPath, s3Key)]. *)
Definition uploadThumbnailToS3 (thumbnail s3Key : jsstring) (w : World)
    : bool * World :=
  if put_succeeds ext w s3Key then (true, putObject s3Key thumbnail w)
  else (false, w).

(** [processDocument(document)]; the temporary files and the console lines
    are left out. *)
Definition processDocument (document : SupabaseRecord.t) (w : World)
    : bool * World :=
  let documentId := SupabaseRecord.id document in
  if thumbnailExists (thumbnailS3Key documentId) w then (true, w)
  else
    match downloadPDFFromS3 (pdfS3Key documentId) w with
    | None => (false, w)
    | Some pdf =>
      match render ext pdf with
      | None => (false, w)
      | Some thumbnail =>
        uploadThumbnailToS3 thumbnail (thumbnailS3Key documentId) w
      end
    end.

(** The [for] loop of [generateAllThumbnails], with its two counters. *)
Fixpoint generateLoop (documents : list SupabaseRecord.t)
    (successCount errorCount : nat) (w : World) : nat * nat * World :=
  match documents with
  | [] => (successCount, errorCount, w)
  | document :: rest =>
    let '(success, w1) := processDocument document w in
    if success then generateLoop rest (S successCount) errorCount w1
    else generateLoop rest successCount (S errorCount) w1
  end.

(** [generateAllThumbnails()], the documents having been fetched. *)
Definition generateAllThumbnails (w : World) : nat * nat * World :=
  generateLoop (documents w) 0%nat 0%nat w.

End Generator.

End ThumbnailGenerator.

(** ** script/upload_submission_simple.ts *)

Module SubmissionData.
(** [user_answers] holds strings here, and a score is an integer or NaN. *)
Record t : Type := mk {
  user_id : jsstring;
  document_id : jsstring;
  user_answers : list (jsstring * jsstring);
  score : option jsnum;
  incorrect_questions : option (list Z);
  unanswered_questions : option (list Z);
  filePath : option jsstring
}.
End SubmissionData.

Module SupabaseSubmissionRecord.
Record t : Type := mk {
  id : jsstring;
  user_id : jsstring;
  document_id : jsstring;
  storage_path : jsstring;
  user_answers : list (jsstring * jsstring);
  score : option jsnum;
  incorrect_questions : list Z;
  unanswered_questions : list Z;
  created_at : jsstring
}.
End SupabaseSubmissionRecord.

Module DocumentSubmissionUploader.

Definition submissions_prefix : jsstring :=
  Eval vm_compute in lit "document_submissions/".

(** The bucket and the [document_submissions] table. *)
Record Stores : Type := mkStores {
  bucket : list (jsstring * jsstring);
  document_submissions : list SupabaseSubmissionRecord.t
}.

Record Externals : Type := mkExternals {
  randomUUID : Stores -> jsstring;
  now : Stores -> jsstring;
  insert_accepts : Stores -> SupabaseSubmissionRecord.t -> bool;
  update_accepts : Stores -> jsstring -> bool;
  s3_accepts : Stores -> jsstring -> jsstring -> bool
}.

(** [generateSubmissionStoragePath(submissionId)]. *)
Definition generateSubmissionStoragePath (submissionId : jsstring) : jsstring :=
  submissions_prefix ++ submissionId ++ ExamFileUploader.dot_pdf.

(** [value || fallback] on an optional, possibly empty string. *)
Definition truthy (value : option jsstring) : option jsstring :=
  match value with
  | Some (c :: r) => Some (c :: r)
  | _ => None
  end.

(** [data.score || null]: 0 and NaN are falsy. *)
Definition scoreOrNull (score : option jsnum) : option jsnum :=
  match score with
  | Some (JInt z) => if z =? 0 then None else Some (JInt z)
  | _ => None
  end.

Section Uploader.

Variable ext : Externals.

(** [uploadFileToS3(filePath, s3Key)]. *)
Definition uploadFileToS3 (filePath s3Key : jsstring) (st : Stores)
    : bool * Stores :=
  if s3_accepts ext st filePath s3Key
  then (true,
        mkStores ((s3Key, filePath) :: filter (fun kv => kv.1 ≠ s3Key) (bucket st))
                 (document_submissions st))
  else (false, st).

(** The row built by [uploadSubmissionToSupabase]. *)
Definition submissionRecord (data : SubmissionData.t) (st : Stores)
    : SupabaseSubmissionRecord.t :=
  let submissionId := randomUUID ext st in
  let storagePath :=
    match truthy (SubmissionData.filePath data) with
    | Some _ => generateSubmissionStoragePath submissionId
    | None => []
    end in
  {| SupabaseSubmissionRecord.id := submissionId;
     SupabaseSubmissionRecord.user_id := SubmissionData.user_id data;
     SupabaseSubmissionRecord.document_id := SubmissionData.document_id data;
     SupabaseSubmissionRecord.storage_path := storagePath;
     SupabaseSubmissionRecord.user_answers := SubmissionData.user_answers data;
     SupabaseSubmissionRecord.score := scoreOrNull (SubmissionData.score data);
     SupabaseSubmissionRecord.incorrect_questions :=
       default [] (SubmissionData.incorrect_questions data);
     SupabaseSubmissionRecord.unanswered_questions :=
       default [] (SubmissionData.unanswered_questions data);
     SupabaseSubmissionRecord.created_at := now ext st |}.

(** [uploadSubmissionToSupabase(data)]: the id of the inserted row, [None]
    when the insertion fails. *)
Definition uploadSubmissionToSupabase (data : SubmissionData.t) (st : Stores)
    : option jsstring * Stores :=
  let submissionData := submissionRecord data st in
  if insert_accepts ext st submissionData
  then (Some (SupabaseSubmissionRecord.id submissionData),
        mkStores (bucket st) (document_submissions st ++ [submissionData]))
  else (None, st).

(** [.update({ storage_path }).eq('id', submissionId)]. *)
Definition updateStoragePath (submissionId storagePath : jsstring)
    (st : Stores) : Stores :=
  mkStores (bucket st)
    (map (fun row =>
            if decide (SupabaseSubmissionRecord.id row = submissionId)
            then SupabaseSubmissionRecord.mk
                   (SupabaseSubmissionRecord.id row)
                   (SupabaseSubmissionRecord.user_id row)
                   (SupabaseSubmissionRecord.document_id row)
                   storagePath
                   (SupabaseSubmissionRecord.user_answers row)
                   (SupabaseSubmissionRecord.score row)
                   (SupabaseSubmissionRecord.incorrect_questions row)
                   (SupabaseSubmissionRecord.unanswered_questions row)
                   (SupabaseSubmissionRecord.created_at row)
            else row)
         (document_submissions st)).

(** [processSubmission(data)]; an empty id is falsy. *)
Definition processSubmission (data : SubmissionData.t) (st : Stores)
    : bool * Stores :=
  match uploadSubmissionToSupabase data st with
  | (Some (c :: r), st1) =>
    let submissionId := c :: r in
    match truthy (SubmissionData.filePath data) with
    | Some filePath =>
      let storagePath := generateSubmissionStoragePath submissionId in
      if update_accepts ext st1 submissionId
      then uploadFileToS3 filePath storagePath
             (updateStoragePath submissionId storagePath st1)
      else (false, st1)
    | None => (true, st1)
    end
  | (_, st1) => (false, st1)
  end.

(** The [for] loop of [uploadMultipleSubmissions], with its counter. *)
Fixpoint submissionLoop (submissions : list SubmissionData.t)
    (successCount : nat) (st : Stores) : nat * Stores :=
  match submissions with
  | [] => (successCount, st)
  | submission :: rest =>
    let '(ok, st1) := processSubmission submission st in
    submissionLoop rest (if ok then S successCount else successCount) st1
  end.

Definition uploadMultipleSubmissions (submissions : list SubmissionData.t)
    (st : Stores) : nat * Stores :=
  submissionLoop submissions 0%nat st.

End Uploader.

End DocumentSubmissionUploader.

(** ** script/update_thumbnails.ts

    The updater shares the keys, the existence check, the download and the
    upload with the generator; it also deletes. *)

Module ThumbnailUpdater.

Import ExamFileUploader.

Record Externals : Type := mkExternals {
  s3 : ThumbnailGenerator.Externals;
  delete_succeeds : World -> jsstring -> bool
}.

Section Updater.

Variable ext : Externals.

(** [deleteThumbnailFromS3(s3Key)]: every error is caught. *)
Definition deleteThumbnailFromS3 (s3Key : jsstring) (w : World) : bool * World :=
  if delete_succeeds ext w s3Key
  then (true, mkWorld (filter (fun kv => kv.1 ≠ s3Key) (bucket w))
                      (documents w) (console w))
  else (false, w).

(** [processDocument(document)]: no check before the download; an
    existing thumbnail is deleted before the new one is uploaded, and the
    outcome of the deletion is ignored. *)
Definition processDocument (document : SupabaseRecord.t) (w : World)
    : bool * World :=
  let documentId := SupabaseRecord.id document in
  let thumbnailS3Key := ThumbnailGenerator.thumbnailS3Key documentId in
  match ThumbnailGenerator.downloadPDFFromS3 (s3 ext)
          (ThumbnailGenerator.pdfS3Key documentId) w with
  | None => (false, w)
  | Some pdf =>
    match ThumbnailGenerator.render (s3 ext) pdf with
    | None => (false, w)
    | Some thumbnail =>
      let w1 :=
        if ThumbnailGenerator.thumbnailExists (s3 ext) thumbnailS3Key w
        then (deleteThumbnailFromS3 thumbnailS3Key w).2
        else w in
      ThumbnailGenerator.uploadThumbnailToS3 (s3 ext) thumbnail
        thumbnailS3Key w1
    end
  end.

End Updater.

End ThumbnailUpdater.

(** * Notions used in the statements *)

Import ExamFileUploader.

(** The pieces [parseFilename] works on. *)
Definition parts_of (filename : jsstring) : list jsstring :=
  split underscore (slice_to_end_minus filename 4).

(** Canonical form: a text that NFC leaves unchanged. *)
Definition canonical (nfc : jsstring -> jsstring) (s : jsstring) : Prop :=
  nfc s = s.

Definition canonical_metadata (nfc : jsstring -> jsstring)
    (m : ExamMetadata.t) : Prop :=
  canonical nfc (ExamMetadata.grade_level m)
  ∧ canonical nfc (ExamMetadata.category m)
  ∧ canonical nfc (ExamMetadata.subject m)
  ∧ canonical nfc (ExamMetadata.selection m)
  ∧ canonical nfc (ExamMetadata.exam_type m)
  ∧ canonical nfc (ExamMetadata.source m)
  ∧ canonical nfc (ExamMetadata.doc_type m).

Definition canonical_record (nfc : jsstring -> jsstring)
    (r : SupabaseRecord.t) : Prop :=
  canonical nfc (SupabaseRecord.grade_level r)
  ∧ canonical nfc (SupabaseRecord.category r)
  ∧ canonical nfc (SupabaseRecord.subject r)
  ∧ canonical nfc (SupabaseRecord.selection r)
  ∧ canonical nfc (SupabaseRecord.exam_type r)
  ∧ canonical nfc (SupabaseRecord.source r).

(** All words of the five closed vocabularies. *)
Definition vocabulary : list jsstring :=
  validGradeLevels ++ validCategories ++ validExamTypes ++ validSources
  ++ validDocTypes.

(** No adjacent pair of [s] can still be composed. *)
Fixpoint stable (s : jsstring) : bool :=
  match s with
  | [] => true
  | a :: r =>
    match r with
    | [] => true
    | b :: _ => negb (Hangul.isL a && Hangul.isV b)
              && negb (Hangul.isLV a && Hangul.isT b) && stable r
    end
  end.

(** Position by position, re-encoding keeps a unit or writes U+FFFD. *)
Definition kept_or_replaced (a a' : Z) : Prop := a' = a ∨ a' = 0xFFFD.

(** "국어" written with conjoining jamo (the decomposed form found in the
    legacy rows), and "고3" likewise. *)
Definition gugeo_decomposed : jsstring := [0x1100; 0x116E; 0x11A8; 0x110B; 0x1165].

Definition go3_decomposed : jsstring := [0x1100; 0x1169; 0x33].

(** A piece that is an integer in the sense of the naming convention: an
    optional minus sign and at least one decimal digit, nothing else. *)
Definition isDecimalDigit (c : Z) : bool := (48 <=? c) && (c <=? 57).

Definition isIntegerLiteral (s : jsstring) : bool :=
  match s with
  | [] => false
  | c :: r =>
    if c =? 45 then negb (bool_decide (r = [])) && forallb isDecimalDigit r
    else forallb isDecimalDigit s
  end.

(** A name whose year piece has no leading digit. *)
Definition year_without_digits : jsstring :=
  Eval vm_compute in lit "고3_국어_국어_수능_x2024_11_평가원_problem.pdf".

(** Integers that a JavaScript number holds exactly and prints in decimal. *)
Definition isSafeInteger (z : Z) : Prop := - 2 ^ 53 < z < 2 ^ 53.

(** The premises of the round trip as the specification words them: the
    five closed-vocabulary fields are valid and year and month are
    integers. *)
Definition vocabulary_fields_valid (m : ExamMetadata.t) : bool :=
  includes validGradeLevels (ExamMetadata.grade_level m)
  && includes validCategories (ExamMetadata.category m)
  && includes validExamTypes (ExamMetadata.exam_type m)
  && includes validSources (ExamMetadata.source m)
  && includes validDocTypes (ExamMetadata.doc_type m)
  && negb (isNaN (ExamMetadata.exam_year m))
  && negb (isNaN (ExamMetadata.exam_month m)).

Definition sample_record (subject selection : jsstring) : ExamMetadata.t :=
  ExamMetadata.mk (lit "고3") (lit "수학") subject selection (lit "수능")
    (JInt 2025) (JInt 6) (lit "평가원") (lit "problem") [].

(** The reading of a filter field that the service implements: a field
    that is absent or empty admits every value, a non-empty one admits its
    members. *)
Definition admits {A : Type} `{EqDecision A} (field : option (list A))
    (x : A) : bool :=
  match field with
  | Some (v :: vs) => bool_decide (x ∈ v :: vs)
  | _ => true
  end.

(** AND across the four fields, OR within each; textual filter values are
    normalized first. *)
Definition matches (nfc : jsstring -> jsstring) (filters : DocumentFilters.t)
    (d : Document.t) : bool :=
  admits (map (DocumentsService.normalizeKoreanText nfc)
            <$> DocumentFilters.grade_levels filters) (Document.grade_level d)
  && admits (map (DocumentsService.normalizeKoreanText nfc)
               <$> DocumentFilters.categories filters) (Document.category d)
  && admits (DocumentFilters.exam_years filters) (JInt (Document.exam_year d))
  && admits (DocumentFilters.exam_months filters) (JInt (Document.exam_month d)).

(** The reading of the specification as worded: a field that is present,
    even if empty, admits exactly the members of the provided set. *)
Definition admits_as_worded {A : Type} `{EqDecision A}
    (field : option (list A)) (x : A) : bool :=
  match field with
  | Some vs => bool_decide (x ∈ vs)
  | None => true
  end.

Definition matches_as_worded (filters : DocumentFilters.t) (d : Document.t)
    : bool :=
  admits_as_worded (DocumentFilters.grade_levels filters) (Document.grade_level d)
  && admits_as_worded (DocumentFilters.categories filters) (Document.category d)
  && admits_as_worded (DocumentFilters.exam_years filters)
       (JInt (Document.exam_year d))
  && admits_as_worded (DocumentFilters.exam_months filters)
       (JInt (Document.exam_month d)).

(** The numeric filter values are integers ([set<int>]); what the store
    answers to a NaN among them is outside the model. *)
Definition integer_filters (filters : DocumentFilters.t) : Prop :=
  Forall (fun n => n ≠ JNaN) (default [] (DocumentFilters.exam_years filters))
  ∧ Forall (fun n => n ≠ JNaN) (default [] (DocumentFilters.exam_months filters)).

(** The three documents of the specification's example. *)
Definition example_document (id grade category : string) (year : Z)
    (created : string) : Document.t :=
  Document.mk (lit id) (lit "title") (lit "subject") (lit category) year 11
    (lit "수능") [] (lit grade) (lit "file.pdf") (lit "path") (lit created)
    None.

Definition D1 : Document.t :=
  Eval vm_compute in example_document "D1" "고3" "국어" 2024 "2024-03-01T00:00:00Z".

Definition D2 : Document.t :=
  Eval vm_compute in example_document "D2" "고3" "수학" 2024 "2024-02-01T00:00:00Z".

Definition D3 : Document.t :=
  Eval vm_compute in example_document "D3" "고2" "국어" 2023 "2024-01-01T00:00:00Z".

Definition third_year_korean_or_math : DocumentFilters.t :=
  Eval vm_compute in
  DocumentFilters.mk (Some [lit "고3"]) (Some [lit "국어"; lit "수학"]) None None.

Definition year_2023 : DocumentFilters.t :=
  DocumentFilters.mk None None (Some [JInt 2023]) None.

Definition no_fields : DocumentFilters.t :=
  DocumentFilters.mk None None None None.

(** A legacy row whose grade level is stored with conjoining jamo. *)
Definition legacy_row : Document.t :=
  Document.mk (lit "L") (lit "title") (lit "subject") (lit "국어") 2022 6
    (lit "수능") [] go3_decomposed (lit "file.pdf") (lit "path")
    (lit "2023-01-01T00:00:00Z") None.

(** Strict code-unit order. *)
Definition str_lt (a b : jsstring) : Prop := str_le a b ∧ a ≠ b.

(** The names logged as skipped, and the names logged as stored. *)
Definition skipped (lines : list LogLine) : list jsstring :=
  omap (fun l => match l with
                 | SkippingInvalidFilename f => Some f
                 | _ => None
                 end) lines.

Definition stored (lines : list LogLine) : list jsstring :=
  omap (fun l => match l with
                 | UploadedToSupabase f => Some f
                 | _ => None
                 end) lines.

Definition parses (nfc : jsstring -> jsstring) (file : jsstring) : bool :=
  match parseFilename nfc file with Some _ => true | None => false end.

(** Stores that accept every write. *)
Definition stores_accept (ext : Externals) : Prop :=
  (∀ w filePath key, s3_accepts ext w filePath key = true)
  ∧ (∀ w data, supabase_accepts ext w data = true).

(** Stores that accept every write, a fixed UUID and a fixed clock. *)
Definition accepting_stores : Externals :=
  mkExternals (fun _ _ _ => true) (fun _ _ => true)
    (fun _ => lit "6f1c2a9e-0000-4000-8000-000000000001")
    (fun _ => lit "2025-01-01T00:00:00.000Z").

(** A bucket that refuses every object. *)
Definition refusing_bucket : Externals :=
  mkExternals (fun _ _ _ => false) (fun _ _ => true)
    (fun _ => lit "6f1c2a9e-0000-4000-8000-000000000001")
    (fun _ => lit "2025-01-01T00:00:00.000Z").

Definition empty_world : World := mkWorld [] [] [].

Definition problem_pdf : jsstring :=
  Eval vm_compute in lit "고3_국어_국어__수능_2024_11_평가원_problem.pdf".

Definition answer_pdf : jsstring :=
  Eval vm_compute in lit "고3_국어_국어__수능_2024_11_평가원_answer.pdf".

Definition misnamed_pdf : jsstring := Eval vm_compute in lit "scan_001.pdf".

Definition naming_convention_md : jsstring :=
  Eval vm_compute in lit "naming_convention.md".

Definition data_dir : jsstring := Eval vm_compute in lit "/srv/script/data".

(** The record with another [filename]. *)
Definition with_filename (f : jsstring) (m : ExamMetadata.t) : ExamMetadata.t :=
  ExamMetadata.mk (ExamMetadata.grade_level m) (ExamMetadata.category m)
    (ExamMetadata.subject m) (ExamMetadata.selection m)
    (ExamMetadata.exam_type m) (ExamMetadata.exam_year m)
    (ExamMetadata.exam_month m) (ExamMetadata.source m)
    (ExamMetadata.doc_type m) f.

(** The name made of the given pieces. *)
Definition name_of_pieces (parts : list jsstring) : jsstring :=
  join [underscore] parts ++ dot_pdf.

(** No text field of the record holds a path separator. *)
Definition slash_free (m : ExamMetadata.t) : Prop :=
  Forall (Forall (fun c => c ≠ slash))
    [ExamMetadata.grade_level m; ExamMetadata.category m;
     ExamMetadata.subject m; ExamMetadata.selection m;
     ExamMetadata.source m; ExamMetadata.doc_type m].

(** Two records with the same fields, the [filename] and the exam type
    (neither is part of the storage path) left aside. *)
Definition same_path_fields (m1 m2 : ExamMetadata.t) : Prop :=
  ExamMetadata.grade_level m1 = ExamMetadata.grade_level m2
  ∧ ExamMetadata.category m1 = ExamMetadata.category m2
  ∧ ExamMetadata.subject m1 = ExamMetadata.subject m2
  ∧ ExamMetadata.selection m1 = ExamMetadata.selection m2
  ∧ ExamMetadata.exam_year m1 = ExamMetadata.exam_year m2
  ∧ ExamMetadata.exam_month m1 = ExamMetadata.exam_month m2
  ∧ ExamMetadata.source m1 = ExamMetadata.source m2
  ∧ ExamMetadata.doc_type m1 = ExamMetadata.doc_type m2.

(** The keys of the bucket and the ids of the table. *)
Definition bucket_keys (w : World) : list jsstring := map fst (bucket w).
Definition document_ids (w : World) : list jsstring :=
  map SupabaseRecord.id (documents w).

Definition problem_pdf_short : jsstring :=
  Eval vm_compute in lit "고3_국어_국어_수능_2024_11_평가원_problem.pdf".

(** The slash-separated pieces of a storage path. *)
Definition path_pieces (m : ExamMetadata.t) : list jsstring :=
  [lit "exams"; ExamMetadata.grade_level m; ExamMetadata.category m;
   ExamMetadata.subject m]
  ++ match ExamMetadata.selection m with [] => [] | sel => [sel] end
  ++ [numberToString (ExamMetadata.exam_year m);
      numberToString (ExamMetadata.exam_month m);
      ExamMetadata.source m; ExamMetadata.doc_type m ++ dot_pdf].

(** Two mock exams of the same month that differ in the exam type only. *)
Definition regional_exam : ExamMetadata.t :=
  ExamMetadata.mk (lit "고3") (lit "국어") (lit "국어") [] (lit "학력평가")
    (JInt 2024) (JInt 3) (lit "교육청") (lit "problem") [].
Definition mock_exam : ExamMetadata.t :=
  ExamMetadata.mk (lit "고3") (lit "국어") (lit "국어") [] (lit "모의고사")
    (JInt 2024) (JInt 3) (lit "교육청") (lit "problem") [].

(** A table that refuses every row while the bucket accepts every object. *)
Definition refusing_table : Externals :=
  mkExternals (fun _ _ _ => true) (fun _ _ => false)
    (fun _ => lit "6f1c2a9e-0000-4000-8000-000000000001")
    (fun _ => lit "2025-01-01T00:00:00.000Z").

(** A world that already holds one object and one row. *)
Definition stocked_world : World :=
  mkWorld [(lit "exams/old.pdf", lit "/srv/old.pdf")]
    [SupabaseRecord.mk (lit "old-id") (lit "title") (lit "국어") (lit "old.pdf")
       (lit "exams/old.pdf") [] [] (lit "2024-01-01T00:00:00.000Z")
       (lit "국어") (lit "평가원") (lit "고3") (JInt 2023) (JInt 11)
       (lit "수능") []]
    [].

(** The filter that only names one category, one year, one grade level. *)
Definition only_category (category : jsstring) : DocumentFilters.t :=
  DocumentFilters.mk None (Some [category]) None None.
Definition only_year (year : Z) : DocumentFilters.t :=
  DocumentFilters.mk None None (Some [JInt year]) None.
Definition only_grade_level (grade : jsstring) : DocumentFilters.t :=
  DocumentFilters.mk (Some [grade]) None None None.

(** Every grade level stored in the table is in canonical form. *)
Definition grade_levels_canonical (nfc : jsstring -> jsstring)
    (table : list Document.t) : Prop :=
  Forall (fun d => DocumentsService.normalizeKoreanText nfc
                     (Document.grade_level d) = Document.grade_level d) table.

(** What the example front end sends for a list of selected values. *)
Definition joined (values : list jsstring) : jsstring :=
  join [DocumentsController.comma] values.
Definition joined_numbers (numbers : list Z) : jsstring :=
  joined (map (fun z => numberToString (JInt z)) numbers).

Definition only_month (month : Z) : DocumentFilters.t :=
  DocumentFilters.mk None None None (Some [JInt month]).

(** A listing runs from the newest document to the oldest. *)
Definition newest_to_oldest (listing : list Document.t) : Prop :=
  ∀ i j a b, (i < j)%nat → listing !! i = Some a → listing !! j = Some b →
    str_le (Document.created_at b) (Document.created_at a).

(** A row with its seven text fields in canonical form. *)
Definition normalized_row (nfc : jsstring -> jsstring) (d : Document.t)
    : Document.t :=
  let canon := KoreanNormalizationFixer.normalizeKoreanText nfc in
  Document.mk (Document.id d) (canon (Document.title d))
    (canon (Document.subject d)) (canon (Document.category d))
    (Document.exam_year d) (Document.exam_month d)
    (canon (Document.exam_type d)) (canon (Document.selection d))
    (canon (Document.grade_level d)) (Document.filename d)
    (Document.storage_path d) (Document.created_at d)
    (canon <$> Document.source d).

(** A store that accepts every update, and one that refuses every update. *)
Definition accepting_updates : list Document.t -> jsstring ->
    KoreanNormalizationFixer.Updates -> bool := fun _ _ _ => true.
Definition refusing_updates : list Document.t -> jsstring ->
    KoreanNormalizationFixer.Updates -> bool := fun _ _ _ => false.

#[local] Instance ExamMetadata_eq_dec : EqDecision ExamMetadata.t.
Proof. solve_decision. Defined.

#[local] Instance SubjectInfo_eq_dec : EqDecision RenameExams.SubjectInfo.
Proof. solve_decision. Defined.

(** The strings of the rename tables that reach the parser's normalizer:
    the empty selection, the closed vocabularies and the subject names. *)
Definition rename_strings : list jsstring :=
  [] :: vocabulary
  ++ map (fun entry => RenameExams.subject entry.2) RenameExams.SUBJECT_MAPPINGS.

(** The record a renamed file stands for. *)
Definition renamed_record (info : RenameExams.SubjectInfo)
    (docType name : jsstring) : ExamMetadata.t :=
  ExamMetadata.mk RenameExams.GRADE_LEVEL (RenameExams.category info)
    (RenameExams.subject info) [] RenameExams.EXAM_TYPE (JInt 2024) (JInt 11)
    RenameExams.SOURCE docType name.

(** The name [generateNewFilename] builds from two table entries. *)
Definition renamed_name (info : RenameExams.SubjectInfo) (docType : jsstring)
    : jsstring :=
  RenameExams.joinComponents RenameExams.GRADE_LEVEL (RenameExams.category info)
    (RenameExams.subject info) (default [] (RenameExams.selection info))
    RenameExams.EXAM_TYPE RenameExams.EXAM_YEAR RenameExams.EXAM_MONTH
    RenameExams.SOURCE docType.

(** The seven pieces of a name that the parser passes to the normalizer. *)
Definition normalized_pieces (file : jsstring) : list jsstring :=
  let parts := parts_of file in
  let '(selection, examType, _, _, source, docType) := layout parts in
  [at_ parts 0; at_ parts 1; at_ parts 2; selection; examType; source; docType].

(** What is checked, entry by entry, on the two rename tables. *)
Definition rename_checked (s : jsstring * RenameExams.SubjectInfo)
    (d : jsstring * jsstring) : Prop :=
  RenameExams.generateNewFilename (Some s.1) (Some d.1)
  = Some (renamed_name s.2 d.2)
  ∧ parseFilename (fun x => x) (renamed_name s.2 d.2)
    = Some (renamed_record s.2 d.2 (renamed_name s.2 d.2))
  ∧ Forall (fun p => p ∈ rename_strings) (normalized_pieces (renamed_name s.2 d.2)).

#[local] Instance rename_checked_dec s d : Decision (rename_checked s d).
Proof. unfold rename_checked. apply _. Defined.

Definition rename_collides (s1 s2 : jsstring * RenameExams.SubjectInfo)
    (d1 d2 : jsstring * jsstring) : Prop :=
  bool_decide (renamed_name s1.2 d1.2 = renamed_name s2.2 d2.2)
  = bool_decide (s1.1 = s2.1 ∧ d1.2 = d2.2).

#[local] Instance rename_collides_dec s1 s2 d1 d2 :
  Decision (rename_collides s1 s2 d1 d2).
Proof. unfold rename_collides. apply _. Defined.

(** A key under [exams/], where the exam uploader stores and the cleanup
    deletes. *)
Definition exam_key (key : jsstring) : bool := startsWith key exams_prefix.

(** Cleanup externals under which every call succeeds. *)
Definition cleanup_succeeds (ext : ExamFileCleanup.Externals) : Prop :=
  (∀ w, ExamFileCleanup.count_succeeds ext w = true)
  ∧ (∀ w, ExamFileCleanup.delete_rows_succeeds ext w = true)
  ∧ (∀ w, ExamFileCleanup.list_succeeds ext w = true)
  ∧ (∀ w key, ExamFileCleanup.delete_object_succeeds ext w key = true).

Definition reliable_cleanup : ExamFileCleanup.Externals :=
  ExamFileCleanup.mkExternals (fun _ => true) (fun _ => true) (fun _ => true)
    (fun _ _ => true).

(** A cleanup in which the deletion of one object fails. *)
Definition cleanup_failing_on (key : jsstring) : ExamFileCleanup.Externals :=
  ExamFileCleanup.mkExternals (fun _ => true) (fun _ => true) (fun _ => true)
    (fun _ k => negb (bool_decide (k = key))).

(** A bucket with two exam objects and one submission, and a table with
    one ordinary row and one row under the nil UUID. *)
Definition mixed_world : World :=
  mkWorld
    [(lit "exams/a.pdf", lit "/srv/a.pdf");
     (lit "document_submissions/s1.pdf", lit "/srv/s1.pdf");
     (lit "exams/b.pdf", lit "/srv/b.pdf")]
    [SupabaseRecord.mk (lit "id-1") (lit "title") (lit "국어") (lit "a.pdf")
       (lit "exams/a.pdf") [] [] (lit "2024-01-01T00:00:00.000Z")
       (lit "국어") (lit "평가원") (lit "고3") (JInt 2023) (JInt 11)
       (lit "수능") [];
     SupabaseRecord.mk ExamFileCleanup.nil_uuid (lit "title") (lit "국어")
       (lit "b.pdf") (lit "exams/b.pdf") [] []
       (lit "2024-01-01T00:00:00.000Z") (lit "국어") (lit "평가원") (lit "고3")
       (JInt 2023) (JInt 11) (lit "수능") []]
    [].

(** A key under [thumbnails/]. *)
Definition thumbnail_key (key : jsstring) : bool :=
  startsWith key ThumbnailGenerator.thumbnails_prefix.

(** The ids of the submission table. *)
Definition submission_ids (st : DocumentSubmissionUploader.Stores)
    : list jsstring :=
  map SupabaseSubmissionRecord.id
      (DocumentSubmissionUploader.document_submissions st).

(** A submission with a file, one without, and stores whose bucket
    refuses every object. *)
Definition submission_with_file : SubmissionData.t :=
  SubmissionData.mk (lit "user-1") (lit "doc-1") [(lit "1", lit "A")]
    (Some (JInt 85)) (Some [2; 5]) None (Some (lit "/srv/sub.pdf")).

Definition submission_without_file : SubmissionData.t :=
  SubmissionData.mk (lit "user-1") (lit "doc-1") [(lit "1", lit "A")]
    (Some (JInt 0)) None None None.

Definition submission_stores (s3 : bool) : DocumentSubmissionUploader.Externals :=
  DocumentSubmissionUploader.mkExternals
    (fun _ => lit "6f1c2a9e-0000-4000-8000-000000000002")
    (fun _ => lit "2025-01-01T00:00:00.000Z")
    (fun _ _ => true) (fun _ _ => true) (fun _ _ _ => s3).

Definition no_submissions : DocumentSubmissionUploader.Stores :=
  DocumentSubmissionUploader.mkStores [] [].

(** Thumbnail externals under which every read, rendering and write
    succeeds. *)
Definition reliable_thumbnails : ThumbnailGenerator.Externals :=
  ThumbnailGenerator.mkExternals (fun _ _ => true)
    (fun pdf => Some (pdf ++ lit "#page1")) (fun _ _ => true).

(** A bucket that holds the PDF of one document under [documents/]. *)
Definition paged_world : World :=
  mkWorld [(lit "documents/id-1.pdf", lit "/srv/a.pdf")]
    (documents mixed_world) [].

(** An updater whose reads and deletions succeed and whose writes fail. *)
Definition updater_without_writes : ThumbnailUpdater.Externals :=
  ThumbnailUpdater.mkExternals
    (ThumbnailGenerator.mkExternals (fun _ _ => true)
       (fun pdf => Some (pdf ++ lit "#page1")) (fun _ _ => false))
    (fun _ _ => true).

(** A bucket with the PDF of a document and its thumbnail. *)
Definition pictured_world : World :=
  mkWorld [(lit "thumbnails/id-1.png", lit "old picture");
           (lit "documents/id-1.pdf", lit "/srv/a.pdf")]
    (documents mixed_world) [].

(** The property names every object inherits from [Object.prototype]: a
    lookup of one of them in an object literal does not give [undefined]. *)
Definition object_prototype_keys : list jsstring :=
  Eval vm_compute in
  map lit ["constructor"; "toString"; "toLocaleString"; "valueOf";
           "hasOwnProperty"; "isPrototypeOf"; "propertyIsEnumerable";
           "__proto__"; "__defineGetter__"; "__defineSetter__";
           "__lookupGetter__"; "__lookupSetter__"]%string.

(** A row with a given category. *)
Definition with_category (category : jsstring) (d : Document.t) : Document.t :=
  Document.mk (Document.id d) (Document.title d) (Document.subject d)
    category (Document.exam_year d) (Document.exam_month d)
    (Document.exam_type d) (Document.selection d) (Document.grade_level d)
    (Document.filename d) (Document.storage_path d) (Document.created_at d)
    (Document.source d).

(** The category that the subject table of the encoding fix gives. *)
Definition category_of_subject (d : Document.t) : option jsstring :=
  RenameExams.lookup_key DatabaseEncodingFixer.subjectToCategory
    (Document.subject d).

(** A row with the category of its subject; a row whose subject is not in
    the table is left alone. *)
Definition recategorized (d : Document.t) : Document.t :=
  match category_of_subject d with
  | Some category => with_category category d
  | None => d
  end.

Definition known_subjects (table : list Document.t) : list Document.t :=
  filter (fun d => is_Some (category_of_subject d)) table.

(** A row filed under a wrong category, and a store that accepts every
    category update. *)
Definition misfiled_row : Document.t :=
  Document.mk (lit "M") (lit "title") (lit "물리학 I") (lit "국어") 2024 11
    (lit "수능") [] (lit "고3") (lit "file.pdf") (lit "path")
    (lit "2024-01-01T00:00:00Z") None.

Definition accepting_category_updates
    : list Document.t -> jsstring -> jsstring -> bool := fun _ _ _ => true.

(** * Examples *)

Example lit_korean : lit "고3" = [0xACE0; 0x33].
Proof. reflexivity. Qed.

Example parse_sample :
  ExamFileUploader.parseFilename Hangul.nfc
    (lit "고3_국어_국어__수능_2024_11_평가원_problem.pdf")
  = Some (ExamMetadata.mk (lit "고3") (lit "국어") (lit "국어") []
            (lit "수능") (JInt 2024) (JInt 11) (lit "평가원")
            (lit "problem")
            (lit "고3_국어_국어__수능_2024_11_평가원_problem.pdf")).
Proof. vm_compute. reflexivity. Qed.

Example parse_trailing_garbage :
  ExamMetadata.exam_year <$> ExamFileUploader.parseFilename Hangul.nfc
    (lit "고3_국어_국어_수능_2024x_11_평가원_problem.pdf")
  = Some (JInt 2024).
Proof. vm_compute. reflexivity. Qed.

(** The renaming script builds its names with the join behind
    [buildFilename], and every name it can produce is accepted by the
    parser. *)
Example generateNewFilename_builds :
  RenameExams.generateNewFilename (Some (lit "물리학1")) (Some (lit "정답"))
  = Some (RenameExams.buildFilename
            (ExamMetadata.mk (lit "고3") (lit "과학탐구") (lit "물리학 I") []
               (lit "수능") (JInt 2024) (JInt 11) (lit "평가원")
               (lit "answer") [])).
Proof. vm_compute. reflexivity. Qed.

Example renamed_files_parse :
  forallb
    (fun keys =>
       match RenameExams.generateNewFilename (Some keys.1) (Some keys.2) with
       | Some name => parses Hangul.nfc name
       | None => false
       end)
    (list_prod (map fst RenameExams.SUBJECT_MAPPINGS)
               (map fst RenameExams.DOC_TYPE_MAPPINGS))
  = true.
Proof. vm_compute. reflexivity. Qed.

(** * Properties *)

(** ** String primitives *)

Section StringFacts.

Lemma split_not_nil sep s : split sep s ≠ [].
Proof.
  destruct s as [|c r]; simpl; [done|].
  destruct (c =? sep); [done|]. by destruct (split sep r).
Qed.

Lemma length_split_pos sep s : (1 <= length (split sep s))%nat.
Proof. pose proof (split_not_nil sep s). destruct (split sep s); simpl; [done | lia]. Qed.

(** A piece without separator, followed by a separator, is the first piece. *)
Lemma split_piece sep p r :
  Forall (fun c => c ≠ sep) p → split sep (p ++ sep :: r) = p :: split sep r.
Proof.
  induction 1 as [|c p Hc _ IH]; simpl.
  - by rewrite Z.eqb_refl.
  - rewrite IH. by destruct (Z.eqb_spec c sep).
Qed.

Lemma split_single sep p : Forall (fun c => c ≠ sep) p → split sep p = [p].
Proof.
  induction 1 as [|c p Hc _ IH]; simpl; [done|].
  rewrite IH. by destruct (Z.eqb_spec c sep).
Qed.

Lemma split_join sep parts :
  parts ≠ [] → Forall (Forall (fun c => c ≠ sep)) parts →
  split sep (join [sep] parts) = parts.
Proof.
  intros Hne Hall. induction Hall as [|p ps Hp Hps IH]; [done|].
  destruct ps as [|q ps]; simpl.
  - by apply split_single.
  - rewrite split_piece by done. f_equal. by apply IH.
Qed.

Lemma startsWith_app pre s : startsWith (pre ++ s) pre = true.
Proof. induction pre as [|p pre IH]; simpl; [done|]. by rewrite Z.eqb_refl, IH. Qed.

Lemma endsWith_app s suffix : endsWith (s ++ suffix) suffix = true.
Proof. unfold endsWith. rewrite rev_app_distr. apply startsWith_app. Qed.

Lemma slice_app s suffix :
  slice_to_end_minus (s ++ suffix) (length suffix) = s.
Proof.
  unfold slice_to_end_minus. rewrite length_app.
  replace (length s + length suffix - length suffix)%nat with (length s) by lia.
  by rewrite take_app_length.
Qed.

Lemma includes_true arr x : includes arr x = true ↔ x ∈ arr.
Proof. unfold includes. apply bool_decide_eq_true. Qed.

Lemma includes_false arr x : includes arr x = false ↔ x ∉ arr.
Proof. unfold includes. apply bool_decide_eq_false. Qed.

End StringFacts.

(** ** The filename parser *)

Section ParserFacts.

Variable normalize_NFC : jsstring -> jsstring.

Lemma isNaN_true n : isNaN n = true ↔ n = JNaN.
Proof. by destruct n. Qed.

Lemma validateComponents_None g c s sel et y mo src dt f :
  validateComponents normalize_NFC g c s (sel, et, y, mo, src, dt) f = None ↔
    normalize_NFC g ∉ validGradeLevels
    ∨ normalize_NFC c ∉ validCategories
    ∨ normalize_NFC et ∉ validExamTypes
    ∨ normalize_NFC src ∉ validSources
    ∨ normalize_NFC dt ∉ validDocTypes
    ∨ y = JNaN ∨ mo = JNaN.
Proof.
  unfold validateComponents.
  rewrite <- !includes_false, <- !isNaN_true, <- !negb_true_iff.
  rewrite !negb_involutive, <- !orb_true_iff, !orb_assoc.
  match goal with |- context [if ?b then _ else _] => destruct b end;
    split; intros H; done.
Qed.

Lemma validateComponents_Some g c s sel et y mo src dt f m :
  validateComponents normalize_NFC g c s (sel, et, y, mo, src, dt) f = Some m →
  m = {| ExamMetadata.grade_level := ensureUTF8 (normalize_NFC g);
         ExamMetadata.category := ensureUTF8 (normalize_NFC c);
         ExamMetadata.subject := ensureUTF8 (normalize_NFC s);
         ExamMetadata.selection := ensureUTF8 (normalize_NFC sel);
         ExamMetadata.exam_type := ensureUTF8 (normalize_NFC et);
         ExamMetadata.exam_year := y;
         ExamMetadata.exam_month := mo;
         ExamMetadata.source := ensureUTF8 (normalize_NFC src);
         ExamMetadata.doc_type := ensureUTF8 (normalize_NFC dt);
         ExamMetadata.filename := f |}.
Proof.
  unfold validateComponents.
  match goal with |- context [if ?b then _ else _] => destruct b end;
    [done | by intros [= <-]].
Qed.

(** [parseFilename] is [validateComponents] on the laid-out pieces once the
    suffix and the number of pieces are accepted. *)
Lemma parseFilename_accepted_shape filename :
  endsWith filename dot_pdf = true →
  (8 <= length (parts_of filename) <= 9)%nat →
  parseFilename normalize_NFC filename =
    validateComponents normalize_NFC
      (at_ (parts_of filename) 0) (at_ (parts_of filename) 1)
      (at_ (parts_of filename) 2) (layout (parts_of filename)) filename.
Proof.
  intros Hsuf Hlen. unfold parseFilename. fold (parts_of filename).
  rewrite Hsuf. simpl.
  destruct (Nat.ltb_spec (length (parts_of filename)) 8); [lia|].
  destruct (Nat.ltb_spec 9 (length (parts_of filename))); [lia|]. done.
Qed.

Lemma parseFilename_Some_shape filename m :
  parseFilename normalize_NFC filename = Some m →
  endsWith filename dot_pdf = true ∧ (8 <= length (parts_of filename) <= 9)%nat.
Proof.
  unfold parseFilename. fold (parts_of filename).
  destruct (endsWith filename dot_pdf); simpl; [|done].
  destruct (Nat.ltb_spec (length (parts_of filename)) 8); [done|].
  destruct (Nat.ltb_spec 9 (length (parts_of filename))); [done|].
  intros _. split; [done | lia].
Qed.

End ParserFacts.

Section PipelineFacts.

Variable normalize_NFC : jsstring -> jsstring.
Variable ext : Externals.

Lemma documents_log l w : documents (log l w) = documents w.
Proof. done. Qed.

Lemma uploadToS3_documents filePath key w :
  documents (uploadToS3 ext filePath key w).2 = documents w.
Proof. unfold uploadToS3. by destruct (s3_accepts ext w filePath key). Qed.

(** A row found in the table after [processFile] was there before or is the
    row built from the parsed metadata of this file. *)
Lemma processFile_documents filePath w r :
  r ∈ documents (processFile normalize_NFC ext filePath w).2 →
  r ∈ documents w
  ∨ ∃ metadata w1,
      parseFilename normalize_NFC (path_basename filePath) = Some metadata
      ∧ r = supabaseRecord ext metadata (generateStoragePath metadata) w1.
Proof.
  unfold processFile.
  destruct (parseFilename normalize_NFC (path_basename filePath))
    as [metadata|] eqn:Hparse; [|by left].
  pose proof (uploadToS3_documents filePath (generateStoragePath metadata) w) as Hs3.
  destruct (uploadToS3 ext filePath (generateStoragePath metadata) w)
    as [s3Success w1]; simpl in Hs3.
  destruct s3Success; simpl; [|rewrite Hs3; by left].
  unfold uploadToSupabase.
  destruct (supabase_accepts ext w1 _); simpl; [|rewrite Hs3; by left].
  rewrite elem_of_app, list_elem_of_filter, list_elem_of_singleton, Hs3.
  intros [[_ Hold] | ->]; [by left | right; eauto].
Qed.

End PipelineFacts.

Section ParserTheorems.

Variable normalize_NFC : jsstring -> jsstring.

Hypothesis NFC_empty : normalize_NFC [] = [].
Hypothesis NFC_idempotent : ∀ s, normalize_NFC (normalize_NFC s) = normalize_NFC s.
Hypothesis NFC_reencode :
  ∀ s, normalize_NFC s = s → normalize_NFC (utf8RoundTrip s) = utf8RoundTrip s.

Lemma ensured_canonical s : canonical normalize_NFC (ensureUTF8 (normalize_NFC s)).
Proof. apply NFC_reencode, NFC_idempotent. Qed.

(** C3. When the name has nine pieces and piece 3 is one of the exam types,
    the exam-type reading wins: the components are those of the no-selection
    layout (selection empty, exam type at 3, year at 4, month at 5, source
    at 6, document type at 7), and any record returned carries them. *)
Theorem exam_type_in_selection_slot_wins (filename : jsstring) :
  let parts := parts_of filename in
  endsWith filename dot_pdf = true →
  length parts = 9%nat →
  at_ parts 3 ≠ [] →
  at_ parts 3 ∈ validExamTypes →
  layout parts
    = ([], at_ parts 3, parseInt (at_ parts 4) 0, parseInt (at_ parts 5) 0,
       at_ parts 6, at_ parts 7)
  ∧ parseFilename normalize_NFC filename
    = validateComponents normalize_NFC (at_ parts 0) (at_ parts 1)
        (at_ parts 2)
        ([], at_ parts 3, parseInt (at_ parts 4) 0, parseInt (at_ parts 5) 0,
         at_ parts 6, at_ parts 7) filename
  ∧ ∀ m, parseFilename normalize_NFC filename = Some m →
      ExamMetadata.selection m = []
      ∧ ExamMetadata.exam_type m = ensureUTF8 (normalize_NFC (at_ parts 3))
      ∧ ExamMetadata.exam_year m = parseInt (at_ parts 4) 0
      ∧ ExamMetadata.exam_month m = parseInt (at_ parts 5) 0
      ∧ ExamMetadata.source m = ensureUTF8 (normalize_NFC (at_ parts 6))
      ∧ ExamMetadata.doc_type m = ensureUTF8 (normalize_NFC (at_ parts 7)).
Proof.
  intros parts Hsuf Hlen Hne Hmem.
  assert (Hlay : layout parts
    = ([], at_ parts 3, parseInt (at_ parts 4) 0, parseInt (at_ parts 5) 0,
       at_ parts 6, at_ parts 7)).
  { unfold layout. rewrite Hlen. simpl.
    rewrite bool_decide_eq_false_2 by done.
    apply includes_true in Hmem. by rewrite Hmem. }
  assert (Hparse : parseFilename normalize_NFC filename
    = validateComponents normalize_NFC (at_ parts 0) (at_ parts 1)
        (at_ parts 2)
        ([], at_ parts 3, parseInt (at_ parts 4) 0, parseInt (at_ parts 5) 0,
         at_ parts 6, at_ parts 7) filename).
  { rewrite parseFilename_accepted_shape by (done || (fold parts; lia)).
    fold parts. by rewrite Hlay. }
  split; [done|]. split; [done|].
  intros m Hm. rewrite Hparse in Hm.
  apply validateComponents_Some in Hm. subst m. simpl.
  by rewrite NFC_empty.
Qed.

(** What [parseFilename] rejects.  It returns [null] exactly when the
    suffix is missing, or the name has fewer than 8 or more than 9 pieces,
    or one of grade level, category, exam type, source, document type is
    (after normalization) outside its vocabulary, or [parseInt] of the year
    or the month piece is NaN.  The last test is weaker than the naming
    convention (a 4-digit year, a 1-2 digit month): a piece that only
    starts with digits passes. *)
Theorem parseFilename_null_iff (filename : jsstring)
    (selection examType : jsstring) (examYear examMonth : jsnum)
    (source docType : jsstring) :
  let parts := parts_of filename in
  layout parts = (selection, examType, examYear, examMonth, source, docType) →
  parseFilename normalize_NFC filename = None ↔
    endsWith filename dot_pdf = false
    ∨ (length parts < 8)%nat ∨ (9 < length parts)%nat
    ∨ normalize_NFC (at_ parts 0) ∉ validGradeLevels
    ∨ normalize_NFC (at_ parts 1) ∉ validCategories
    ∨ normalize_NFC examType ∉ validExamTypes
    ∨ normalize_NFC source ∉ validSources
    ∨ normalize_NFC docType ∉ validDocTypes
    ∨ examYear = JNaN ∨ examMonth = JNaN.
Proof.
  intros parts Hlay.
  destruct (endsWith filename dot_pdf) eqn:Hsuf; cycle 1.
  { unfold parseFilename. rewrite Hsuf. simpl. split; [by left | done]. }
  destruct (decide (8 <= length parts <= 9)%nat) as [Hlen|Hlen]; cycle 1.
  { unfold parseFilename. fold (parts_of filename). fold parts.
    rewrite Hsuf. simpl.
    destruct (Nat.ltb_spec (length parts) 8); simpl.
    - split; [intros _; right; by left | done].
    - destruct (Nat.ltb_spec 9 (length parts)); [|lia].
      split; [intros _; right; right; by left | done]. }
  rewrite parseFilename_accepted_shape by done. fold parts. rewrite Hlay.
  rewrite validateComponents_None.
  split; [intros H; do 3 right; exact H|].
  intros [H | [H | [H | H]]]; [done | lia | lia | exact H].
Qed.

(** C4. Every record [parseFilename] returns has its seven text fields in
    canonical form and its [filename] equal to the input; every row that
    [processFile] adds to the table has its text columns in canonical form
    and the file's base name as [filename]. *)
Theorem parsed_fields_are_canonical :
  (∀ filename m,
     parseFilename normalize_NFC filename = Some m →
     canonical_metadata normalize_NFC m ∧ ExamMetadata.filename m = filename)
  ∧ (∀ ext filePath w r,
       r ∈ documents (processFile normalize_NFC ext filePath w).2 →
       r ∈ documents w
       ∨ (canonical_record normalize_NFC r
          ∧ SupabaseRecord.filename r = path_basename filePath)).
Proof.
  assert (Hparser : ∀ filename m,
     parseFilename normalize_NFC filename = Some m →
     canonical_metadata normalize_NFC m ∧ ExamMetadata.filename m = filename).
  { intros filename m Hm.
    destruct (parseFilename_Some_shape _ _ _ Hm) as [Hsuf Hlen].
    rewrite parseFilename_accepted_shape in Hm by done.
    destruct (layout (parts_of filename)) as [[[[[sel et] y] mo] src] dt].
    apply validateComponents_Some in Hm. subst m.
    unfold canonical_metadata. simpl.
    repeat split; apply ensured_canonical. }
  split; [exact Hparser|].
  intros ext filePath w r Hr.
  apply processFile_documents in Hr as [Hold | (metadata & w1 & Hparse & ->)];
    [by left | right].
  apply Hparser in Hparse as [(Hg & Hc & Hs & Hsel & Het & Hsrc & _) Hf].
  unfold canonical_record. simpl. done.
Qed.

End ParserTheorems.

(** ** The text normalizer *)

Section NormalizerTheorems.

Variable normalize_NFC : jsstring -> jsstring.
Hypothesis NFC_idempotent : ∀ s, normalize_NFC (normalize_NFC s) = normalize_NFC s.

(** C5. [normalizeKoreanText] (service and repair script) is idempotent, is
    the identity on canonical text and on the empty string; a normalized
    text never needs normalization again. *)
Theorem normalizeKoreanText_idempotent (s : jsstring) :
  DocumentsService.normalizeKoreanText normalize_NFC
    (DocumentsService.normalizeKoreanText normalize_NFC s)
  = DocumentsService.normalizeKoreanText normalize_NFC s
  ∧ (canonical normalize_NFC s →
     DocumentsService.normalizeKoreanText normalize_NFC s = s)
  ∧ DocumentsService.normalizeKoreanText normalize_NFC [] = []
  ∧ KoreanNormalizationFixer.normalizeKoreanText normalize_NFC
      (KoreanNormalizationFixer.normalizeKoreanText normalize_NFC s)
    = KoreanNormalizationFixer.normalizeKoreanText normalize_NFC s
  ∧ (canonical normalize_NFC s →
     KoreanNormalizationFixer.normalizeKoreanText normalize_NFC s = s)
  ∧ KoreanNormalizationFixer.normalizeKoreanText normalize_NFC [] = []
  ∧ KoreanNormalizationFixer.needsNormalization normalize_NFC
      (KoreanNormalizationFixer.normalizeKoreanText normalize_NFC s) = false.
Proof.
  assert (Hidem : ∀ t,
    DocumentsService.normalizeKoreanText normalize_NFC
      (DocumentsService.normalizeKoreanText normalize_NFC t)
    = DocumentsService.normalizeKoreanText normalize_NFC t).
  { intros [|c t]; [done|]. simpl.
    destruct (normalize_NFC (c :: t)) as [|d u] eqn:Hn; [done|].
    simpl. rewrite <- Hn. apply NFC_idempotent. }
  assert (Hfix : ∀ t, canonical normalize_NFC t →
    DocumentsService.normalizeKoreanText normalize_NFC t = t).
  { intros [|c t] Ht; [done | exact Ht]. }
  repeat split; try done; try apply Hidem; try apply Hfix.
  unfold KoreanNormalizationFixer.needsNormalization.
  change (KoreanNormalizationFixer.normalizeKoreanText normalize_NFC)
    with (DocumentsService.normalizeKoreanText normalize_NFC).
  destruct (DocumentsService.normalizeKoreanText normalize_NFC s) eqn:Hn; [done|].
  rewrite <- Hn, Hidem. by rewrite bool_decide_eq_true_2.
Qed.

End NormalizerTheorems.

(** ** The Hangul instance of NFC satisfies the assumed laws *)

Section HangulFacts.

Import Hangul.

Ltac unfold_jamo :=
  unfold isL, isV, isT, isLV, composeLV, composeLVT,
    SBase, LBase, VBase, TBase, LCount, VCount, TCount, SCount in *.

Ltac jamo_arith :=
  unfold_jamo;
  repeat match goal with
  | H : _ && _ = true |- _ => apply andb_true_iff in H as [? ?]
  | H : (_ <=? _) = true |- _ => apply Z.leb_le in H
  | H : (_ <? _) = true |- _ => apply Z.ltb_lt in H
  | H : (_ =? _) = true |- _ => apply Z.eqb_eq in H
  end;
  repeat match goal with
  | |- _ ∧ _ => split
  | |- _ && _ = false => apply andb_false_iff
  end.

Lemma syllable_not_L c : SBase <= c → isL c = false.
Proof.
  intros Hc. unfold_jamo. apply andb_false_iff. right. apply Z.ltb_ge. lia.
Qed.

Lemma composeLV_ge l v : isL l = true → isV v = true → SBase <= composeLV l v.
Proof. intros Hl Hv. jamo_arith. nia. Qed.

Lemma composeLV_mod l v : (composeLV l v - SBase) mod TCount = 0.
Proof.
  unfold_jamo.
  replace (44032 + ((l - 4352) * 21 + (v - 4449)) * 28 - 44032)
    with (((l - 4352) * 21 + (v - 4449)) * 28) by lia.
  apply Z.mod_mul. lia.
Qed.

(** Adding a trailing consonant to an LV syllable gives a syllable that is
    neither a leading consonant nor an LV syllable. *)
Lemma composeLVT_inert lv t :
  SBase <= lv → (lv - SBase) mod TCount = 0 → isT t = true →
  isL (composeLVT lv t) = false ∧ isLV (composeLVT lv t) = false.
Proof.
  intros Hge Hmod Ht. split.
  - apply syllable_not_L. jamo_arith. lia.
  - jamo_arith. right. apply Z.eqb_neq.
    replace (lv + (t - 4519) - 44032) with ((lv - 44032) + (t - 4519)) by lia.
    rewrite Z.add_mod, Hmod by lia.
    rewrite Z.add_0_l, Z.mod_mod by lia. rewrite Z.mod_small; lia.
Qed.

Lemma isLV_spec c : isLV c = true → SBase <= c ∧ (c - SBase) mod TCount = 0.
Proof. intros H. jamo_arith; [lia | done]. Qed.

Lemma stable_cons_inert x out :
  isL x = false → isLV x = false → stable out = true → stable (x :: out) = true.
Proof. intros HL HLV Hs. simpl. destruct out; [done|]. by rewrite HL, HLV, Hs. Qed.

Lemma stable_tail a r : stable (a :: r) = true → stable r = true.
Proof.
  simpl. destruct r; [done|]. intros H.
  by apply andb_true_iff in H as [_ H].
Qed.

Lemma attach_stable c out : stable out = true → stable (attach c out) = true.
Proof.
  intros Hs. unfold attach. destruct out as [|d out']; [done|].
  destruct (isL c && isV d) eqn:Hlv.
  - apply andb_true_iff in Hlv as [Hl Hv].
    pose proof (composeLV_ge _ _ Hl Hv) as Hge.
    pose proof (composeLV_mod c d) as Hmod.
    destruct out' as [|t out'']; [done|].
    destruct (isT t) eqn:Ht.
    + destruct (composeLVT_inert _ _ Hge Hmod Ht) as [HL HLV].
      apply stable_cons_inert; [done..|]. eauto using stable_tail.
    + simpl. rewrite (syllable_not_L _ Hge), Ht, andb_false_r. simpl.
      by apply stable_tail in Hs.
  - destruct (isLV c && isT d) eqn:Hlvt.
    + apply andb_true_iff in Hlvt as [Hc Ht].
      destruct (isLV_spec _ Hc) as [Hge Hmod].
      destruct (composeLVT_inert _ _ Hge Hmod Ht) as [HL HLV].
      apply stable_cons_inert; [done..|]. eauto using stable_tail.
    + change (stable (c :: d :: out'))
        with (negb (isL c && isV d) && negb (isLV c && isT d)
              && stable (d :: out')).
      by rewrite Hlv, Hlvt, Hs.
Qed.

Lemma nfc_stable s : stable (nfc s) = true.
Proof. induction s; simpl; [done | by apply attach_stable]. Qed.

Lemma nfc_of_stable s : stable s = true → nfc s = s.
Proof.
  induction s as [|a r IH]; [done|]. intros Hs. simpl.
  rewrite IH by eauto using stable_tail.
  destruct r as [|b r']; [done|].
  simpl in Hs. apply andb_true_iff in Hs as [Hs _].
  apply andb_true_iff in Hs as [H1 H2].
  apply negb_true_iff in H1, H2. unfold attach. by rewrite H1, H2.
Qed.

Lemma Hangul_nfc_empty : nfc [] = [].
Proof. done. Qed.

Lemma Hangul_nfc_idempotent s : nfc (nfc s) = nfc s.
Proof. apply nfc_of_stable, nfc_stable. Qed.

Lemma utf8RoundTrip_pointwise s : Forall2 kept_or_replaced s (utf8RoundTrip s).
Proof.
  assert (H : ∀ n s, (length s <= n)%nat →
              Forall2 kept_or_replaced s (utf8RoundTrip s)).
  { induction n as [|n IH]; intros [|c r] Hlen; simpl in *; try lia;
      try constructor.
    destruct (isHighSurrogate c).
    - destruct r as [|d r']; [repeat constructor; by right|].
      destruct (isLowSurrogate d).
      + constructor; [by left|]. constructor; [by left|].
        apply IH. simpl in Hlen. lia.
      + constructor; [by right|]. apply IH. lia.
    - destruct (isLowSurrogate c); (constructor; [|apply IH; lia]);
        [by right | by left]. }
  eauto.
Qed.

Lemma stable_pointwise s s' :
  Forall2 kept_or_replaced s s' → stable s = true → stable s' = true.
Proof.
  induction 1 as [|a a' r r' Ha Hr IH]; [done|]. intros Hs.
  specialize (IH (stable_tail _ _ Hs)).
  destruct Hr as [|b b' r0 r0' Hb Hr0]; [done|].
  change (negb (isL a' && isV b') && negb (isLV a' && isT b')
          && stable (b' :: r0') = true).
  rewrite IH, andb_true_r.
  simpl in Hs. apply andb_true_iff in Hs as [Hs _].
  destruct Ha as [-> | ->]; [|done].
  destruct Hb as [-> | ->]; [done|].
  by rewrite !andb_false_r.
Qed.

Lemma Hangul_nfc_reencode s : nfc s = s → nfc (utf8RoundTrip s) = utf8RoundTrip s.
Proof.
  intros Hs. apply nfc_of_stable.
  apply (stable_pointwise s); [apply utf8RoundTrip_pointwise|].
  rewrite <- Hs. apply nfc_stable.
Qed.

Lemma Hangul_nfc_vocabulary v : v ∈ vocabulary → nfc v = v.
Proof.
  revert v. apply Forall_forall.
  unfold vocabulary, validGradeLevels, validCategories, validExamTypes,
    validSources, validDocTypes. simpl.
  repeat constructor.
Qed.

End HangulFacts.

(** ** Concrete runs of the parser and the normalizer *)

Example gugeo_composes : Hangul.nfc gugeo_decomposed = lit "국어".
Proof. reflexivity. Qed.

Example go3_composes : Hangul.nfc go3_decomposed = lit "고3".
Proof. reflexivity. Qed.

Lemma exam_type_in_selection_slot_wins_witness :
  let filename := lit "고3_국어_국어_수능_2024_11_평가원_problem_extra.pdf" in
  let parts := parts_of filename in
  (endsWith filename dot_pdf = true ∧ length parts = 9%nat
   ∧ at_ parts 3 ≠ [] ∧ at_ parts 3 ∈ validExamTypes)
  ∧ ∀ m, parseFilename Hangul.nfc filename = Some m →
      ExamMetadata.selection m = []
      ∧ ExamMetadata.exam_type m = lit "수능"
      ∧ ExamMetadata.exam_year m = JInt 2024
      ∧ ExamMetadata.exam_month m = JInt 11
      ∧ ExamMetadata.source m = lit "평가원"
      ∧ ExamMetadata.doc_type m = lit "problem".
Proof.
  intros filename parts.
  assert (H1 : endsWith filename dot_pdf = true) by reflexivity.
  assert (H2 : length parts = 9%nat) by reflexivity.
  assert (H3 : at_ parts 3 ≠ []) by discriminate.
  assert (H4 : at_ parts 3 ∈ validExamTypes)
    by (apply includes_true; reflexivity).
  split; [done|].
  exact (proj2 (proj2 (exam_type_in_selection_slot_wins Hangul.nfc
                         Hangul_nfc_empty filename H1 H2 H3 H4))).
Defined.

(** C6, the failing input.  The naming convention asks for a 4-digit year
    and a 1-2 digit month, and the parser means to check both; but it only
    tests that [parseInt] of the piece is not NaN.  The year piece "2024x"
    is not an integer, yet the name is accepted, as year 2024, instead of
    being rejected with [null]; likewise the month piece "11th", as month
    11. *)
Lemma non_integer_year_is_accepted :
  let filename := lit "고3_국어_국어_수능_2024x_11_평가원_problem.pdf" in
  let filename' := lit "고3_국어_국어_수능_2024_11th_평가원_problem.pdf" in
  at_ (parts_of filename) 4 = lit "2024x"
  ∧ isIntegerLiteral (at_ (parts_of filename) 4) = false
  ∧ parseFilename Hangul.nfc filename
    = Some (ExamMetadata.mk (lit "고3") (lit "국어") (lit "국어") []
              (lit "수능") (JInt 2024) (JInt 11) (lit "평가원")
              (lit "problem") filename)
  ∧ at_ (parts_of filename') 5 = lit "11th"
  ∧ isIntegerLiteral (at_ (parts_of filename') 5) = false
  ∧ parseFilename Hangul.nfc filename'
    = Some (ExamMetadata.mk (lit "고3") (lit "국어") (lit "국어") []
              (lit "수능") (JInt 2024) (JInt 11) (lit "평가원")
              (lit "problem") filename').
Proof. vm_compute. done. Qed.

Lemma parseFilename_null_iff_witness :
  layout (parts_of year_without_digits)
  = ([], lit "수능", JNaN, JInt 11, lit "평가원", lit "problem")
  ∧ parseFilename Hangul.nfc year_without_digits = None.
Proof.
  assert (Hlay : layout (parts_of year_without_digits)
                 = ([], lit "수능", JNaN, JInt 11, lit "평가원", lit "problem"))
    by (vm_compute; reflexivity).
  split; [exact Hlay|].
  apply (proj2 (parseFilename_null_iff Hangul.nfc year_without_digits
                  _ _ _ _ _ _ Hlay)).
  do 8 right. by left.
Defined.

Lemma parsed_fields_are_canonical_witness :
  let filename :=
    lit "고3_국어_" ++ gugeo_decomposed ++ lit "__수능_2024_11_평가원_problem.pdf" in
  ∃ m, parseFilename Hangul.nfc filename = Some m
       ∧ ExamMetadata.subject m = lit "국어"
       ∧ canonical_metadata Hangul.nfc m
       ∧ ExamMetadata.filename m = filename.
Proof.
  intros filename.
  destruct (parseFilename Hangul.nfc filename) as [m|] eqn:Hm;
    [|vm_compute in Hm; discriminate].
  exists m. split; [reflexivity|]. split.
  - vm_compute in Hm. injection Hm as <-. reflexivity.
  - exact (proj1 (parsed_fields_are_canonical Hangul.nfc
                    Hangul_nfc_idempotent Hangul_nfc_reencode) filename m Hm).
Defined.

Lemma normalizeKoreanText_idempotent_witness :
  DocumentsService.normalizeKoreanText Hangul.nfc gugeo_decomposed = lit "국어"
  ∧ DocumentsService.normalizeKoreanText Hangul.nfc
      (DocumentsService.normalizeKoreanText Hangul.nfc gugeo_decomposed)
    = DocumentsService.normalizeKoreanText Hangul.nfc gugeo_decomposed.
Proof.
  split; [reflexivity|].
  exact (proj1 (normalizeKoreanText_idempotent Hangul.nfc
                  Hangul_nfc_idempotent gugeo_decomposed)).
Defined.

(** ** Printing and re-reading an integer *)

Section NumberFacts.

Lemma digitsValue_snoc R ds d : digitsValue R (ds ++ [d]) = digitsValue R ds * R + d.
Proof. unfold digitsValue. by rewrite fold_left_app. Qed.

Lemma decimalDigits_spec fuel : ∀ n,
  0 <= n < 2 ^ (Z.of_nat fuel + 1) →
  Forall (fun d => 0 <= d <= 9) (decimalDigits fuel n)
  ∧ digitsValue 10 (decimalDigits fuel n) = n
  ∧ decimalDigits fuel n ≠ [].
Proof.
  induction fuel as [|fuel IH]; intros n Hn.
  - simpl in *. repeat split; [|done..]. constructor; [lia | constructor].
  - simpl decimalDigits. destruct (Z.ltb_spec n 10) as [Hlt|Hge].
    + repeat split; [|done..]. constructor; [lia | constructor].
    + assert (Hpow : 2 ^ (Z.of_nat (S fuel) + 1) = 2 * 2 ^ (Z.of_nat fuel + 1)).
      { rewrite Nat2Z.inj_succ. rewrite <- Z.pow_succ_r by lia. f_equal; lia. }
      destruct (IH (n / 10)) as (Hdigits & Hvalue & _).
      { split; [apply Z.div_pos; lia|]. apply Z.div_lt_upper_bound; lia. }
      repeat split.
      * apply Forall_app. split; [done|].
        constructor; [|constructor].
        pose proof (Z.mod_pos_bound n 10). lia.
      * rewrite digitsValue_snoc, Hvalue.
        pose proof (Z.div_mod n 10). lia.
      * by destruct (decimalDigits fuel (n / 10)).
Qed.

Lemma decimalDigits_log2 n :
  0 <= n →
  Forall (fun d => 0 <= d <= 9) (decimalDigits (Z.to_nat (Z.log2 n)) n)
  ∧ digitsValue 10 (decimalDigits (Z.to_nat (Z.log2 n)) n) = n
  ∧ decimalDigits (Z.to_nat (Z.log2 n)) n ≠ [].
Proof.
  intros Hn. apply decimalDigits_spec.
  rewrite Z2Nat.id by apply Z.log2_nonneg.
  destruct (decide (n = 0)) as [->|Hpos]; [done|].
  pose proof (Z.log2_spec n). lia.
Qed.

(** What matters about the code unit of a decimal digit. *)
Lemma digit_unit c :
  48 <= c <= 57 →
  isStrWhiteSpaceChar c = false ∧ (c =? 45) = false ∧ (c =? 43) = false
  ∧ (c =? 120) = false ∧ (c =? 88) = false
  ∧ digitValue c = Some (c - 48).
Proof.
  intros Hc. unfold isStrWhiteSpaceChar, digitValue.
  repeat match goal with
  | |- context [?a =? ?b] =>
      let H := fresh in destruct (Z.eqb_spec a b) as [H|H]; [lia|]
  | |- context [?a <=? ?b] =>
      let H := fresh in destruct (Z.leb_spec a b) as [H|H]; try lia
  end; done.
Qed.

Lemma digitsPrefix_digits ds :
  Forall (fun d => 0 <= d <= 9) ds →
  digitsPrefix 10 (map (fun d => 48 + d) ds) = ds.
Proof.
  induction 1 as [|d ds Hd _ IH]; simpl; [done|].
  destruct (digit_unit (48 + d)) as (_ & _ & _ & _ & _ & ->); [lia|].
  replace (48 + d - 48) with d by lia.
  destruct (Z.ltb_spec d 10); [|lia]. by rewrite IH.
Qed.

Lemma stripHexPrefix_digits R ds :
  Forall (fun d => 0 <= d <= 9) ds →
  stripHexPrefix R (map (fun d => 48 + d) ds) = (R, map (fun d => 48 + d) ds).
Proof.
  intros Hds. destruct ds as [|d0 [|d1 ds]]; [done..|].
  inversion_clear Hds as [|? ? _ Hrest]. inversion_clear Hrest as [|? ? Hd1 _].
  simpl. destruct (digit_unit (48 + d1)) as (_ & _ & _ & -> & -> & _); [lia|].
  by rewrite andb_false_r.
Qed.

Lemma digits_parse_with_sign sign ds :
  ds ≠ [] → Forall (fun d => 0 <= d <= 9) ds →
  match digitsPrefix 10 (map (fun d => 48 + d) ds) with
  | [] => JNaN
  | ds' => JInt (sign * digitsValue 10 ds')
  end = JInt (sign * digitsValue 10 ds).
Proof.
  intros Hne Hds. rewrite digitsPrefix_digits by done. by destruct ds.
Qed.

(** [parseInt] without radix on a plain run of decimal digits. *)
Lemma parseInt_digits ds :
  ds ≠ [] → Forall (fun d => 0 <= d <= 9) ds →
  parseInt (map (fun d => 48 + d) ds) 0 = JInt (digitsValue 10 ds).
Proof.
  intros Hne Hds. unfold parseInt.
  assert (Hsign : stripSign (trimStart (map (fun d => 48 + d) ds))
                  = (1, map (fun d => 48 + d) ds)).
  { destruct ds as [|d0 ds]; [done|]. inversion_clear Hds as [|? ? Hd0 _].
    simpl. destruct (digit_unit (48 + d0)) as (-> & Hm & Hp & _); [lia|].
    unfold stripSign. by rewrite Hm, Hp. }
  rewrite Hsign. simpl. rewrite stripHexPrefix_digits by done.
  rewrite digits_parse_with_sign by done. f_equal; lia.
Qed.

Lemma parseInt_minus_digits ds :
  ds ≠ [] → Forall (fun d => 0 <= d <= 9) ds →
  parseInt (45 :: map (fun d => 48 + d) ds) 0 = JInt (- digitsValue 10 ds).
Proof.
  intros Hne Hds. unfold parseInt.
  change (stripSign (trimStart (45 :: map (fun d => 48 + d) ds)))
    with (-1, map (fun d => 48 + d) ds).
  simpl. rewrite stripHexPrefix_digits by done.
  rewrite digits_parse_with_sign by done. f_equal; lia.
Qed.

(** Reading back a printed integer gives the integer. *)
Lemma parseInt_numberToString z : parseInt (numberToString (JInt z)) 0 = JInt z.
Proof.
  unfold numberToString, digitChars. destruct (Z.ltb_spec z 0).
  - destruct (decimalDigits_log2 (- z)) as (Hds & Hval & Hne); [lia|].
    rewrite parseInt_minus_digits by done. f_equal. lia.
  - destruct (decimalDigits_log2 z) as (Hds & Hval & Hne); [lia|].
    rewrite parseInt_digits by done. by f_equal.
Qed.

Lemma numberToString_no_underscore z :
  Forall (fun c => c ≠ underscore) (numberToString (JInt z)).
Proof.
  assert (Hdigits : ∀ n, 0 <= n → Forall (fun c => c ≠ underscore) (digitChars n)).
  { intros n Hn. unfold digitChars.
    destruct (decimalDigits_log2 n Hn) as (Hds & _ & _).
    apply Forall_map. eapply Forall_impl; [exact Hds|].
    intros d Hd. unfold underscore, compose. simpl in Hd. lia. }
  unfold numberToString. destruct (Z.ltb_spec z 0).
  - constructor; [done|]. apply Hdigits. lia.
  - by apply Hdigits.
Qed.

End NumberFacts.

(** ** Building a name and parsing it back *)

Import RenameExams.

Lemma vocabulary_no_underscore v :
  v ∈ vocabulary → Forall (fun c => c ≠ underscore) v.
Proof.
  revert v. apply Forall_forall.
  unfold vocabulary, validGradeLevels, validCategories, validExamTypes,
    validSources, validDocTypes. simpl.
  repeat (constructor; [repeat (constructor; [done|]); constructor|]).
  constructor.
Qed.

Lemma vocabulary_well_formed v : v ∈ vocabulary → utf8RoundTrip v = v.
Proof.
  revert v. apply Forall_forall.
  unfold vocabulary, validGradeLevels, validCategories, validExamTypes,
    validSources, validDocTypes. simpl.
  repeat constructor.
Qed.

Lemma in_vocabulary v :
  v ∈ validGradeLevels ∨ v ∈ validCategories ∨ v ∈ validExamTypes
  ∨ v ∈ validSources ∨ v ∈ validDocTypes → v ∈ vocabulary.
Proof. unfold vocabulary. rewrite !elem_of_app. tauto. Qed.

Lemma layout_nine g c s sel et ys ms src dt :
  layout [g; c; s; sel; et; ys; ms; src; dt]
  = if bool_decide (sel = []) then
      ([], et, parseInt ys 0, parseInt ms 0, src, dt)
    else if includes validExamTypes sel then
      ([], sel, parseInt et 0, parseInt ys 0, ms, src)
    else (sel, et, parseInt ys 0, parseInt ms 0, src, dt).
Proof. reflexivity. Qed.

Section RoundTrip.

Variable normalize_NFC : jsstring -> jsstring.
Hypothesis NFC_vocabulary : ∀ v, v ∈ vocabulary → normalize_NFC v = v.

(** C2 (as amended).  For a record whose five closed-vocabulary fields are
    valid, whose year and month are safe integers, and whose subject and
    selection are canonical, well-formed UTF-16, free of underscores, the
    selection not being an exam-type word, parsing the built name gives the
    nine fields back. *)
Theorem filename_round_trip (m : ExamMetadata.t) (y mo : Z) :
  ExamMetadata.grade_level m ∈ validGradeLevels →
  ExamMetadata.category m ∈ validCategories →
  ExamMetadata.exam_type m ∈ validExamTypes →
  ExamMetadata.source m ∈ validSources →
  ExamMetadata.doc_type m ∈ validDocTypes →
  ExamMetadata.exam_year m = JInt y → isSafeInteger y →
  ExamMetadata.exam_month m = JInt mo → isSafeInteger mo →
  Forall (fun c => c ≠ underscore) (ExamMetadata.subject m) →
  Forall (fun c => c ≠ underscore) (ExamMetadata.selection m) →
  canonical normalize_NFC (ExamMetadata.subject m) →
  canonical normalize_NFC (ExamMetadata.selection m) →
  utf8RoundTrip (ExamMetadata.subject m) = ExamMetadata.subject m →
  utf8RoundTrip (ExamMetadata.selection m) = ExamMetadata.selection m →
  ExamMetadata.selection m ∉ validExamTypes →
  parseFilename normalize_NFC (buildFilename m)
  = Some (ExamMetadata.mk
            (ExamMetadata.grade_level m) (ExamMetadata.category m)
            (ExamMetadata.subject m) (ExamMetadata.selection m)
            (ExamMetadata.exam_type m) (ExamMetadata.exam_year m)
            (ExamMetadata.exam_month m) (ExamMetadata.source m)
            (ExamMetadata.doc_type m) (buildFilename m)).
Proof.
  destruct m as [g c s sel et ey em src dt fn]. simpl.
  intros Hg Hc Het Hsrc Hdt -> _ -> _ Hs_us Hsel_us Hs_nfc Hsel_nfc
    Hs_wf Hsel_wf Hsel_et.
  set (parts := [g; c; s; sel; et; numberToString (JInt y);
                 numberToString (JInt mo); src; dt]).
  assert (Hsplit : parts_of (buildFilename
            (ExamMetadata.mk g c s sel et (JInt y) (JInt mo) src dt fn)) = parts).
  { unfold parts_of, buildFilename, joinComponents. simpl ExamMetadata.grade_level.
    change 4%nat with (length dot_pdf). rewrite slice_app.
    apply split_join; [done|].
    repeat (constructor;
      [first [ done | apply numberToString_no_underscore
             | apply vocabulary_no_underscore, in_vocabulary; tauto ]|]).
    constructor. }
  rewrite parseFilename_accepted_shape; cycle 1.
  { apply endsWith_app. }
  { rewrite Hsplit. simpl. lia. }
  rewrite Hsplit.
  assert (Hlay : layout parts
    = (sel, et, JInt y, JInt mo, src, dt)).
  { unfold parts. rewrite layout_nine, !parseInt_numberToString.
    destruct (decide (sel = [])) as [->|Hne].
    - by rewrite bool_decide_eq_true_2.
    - rewrite bool_decide_eq_false_2 by done.
      apply includes_false in Hsel_et. by rewrite Hsel_et. }
  rewrite Hlay. unfold parts, at_. simpl nth.
  unfold validateComponents.
  rewrite !NFC_vocabulary by (apply in_vocabulary; tauto).
  unfold canonical in *. rewrite Hs_nfc, Hsel_nfc.
  apply includes_true in Hg, Hc, Het, Hsrc, Hdt.
  rewrite Hg, Hc, Het, Hsrc, Hdt. simpl.
  unfold ensureUTF8. rewrite Hs_wf, Hsel_wf.
  apply includes_true in Hg, Hc, Het, Hsrc, Hdt.
  rewrite !vocabulary_well_formed by (apply in_vocabulary; tauto).
  done.
Qed.

End RoundTrip.

Lemma filename_round_trip_witness :
  let m := sample_record (lit "수학") (lit "확률과 통계") in
  buildFilename m = lit "고3_수학_수학_확률과 통계_수능_2025_6_평가원_problem.pdf"
  ∧ parseFilename Hangul.nfc (buildFilename m)
    = Some (ExamMetadata.mk (lit "고3") (lit "수학") (lit "수학")
              (lit "확률과 통계") (lit "수능") (JInt 2025) (JInt 6)
              (lit "평가원") (lit "problem") (buildFilename m)).
Proof.
  intros m. split; [reflexivity|].
  apply (filename_round_trip Hangul.nfc Hangul_nfc_vocabulary m 2025 6).
  all: try (apply includes_true; reflexivity).
  all: try (apply includes_false; reflexivity).
  all: try (unfold isSafeInteger; lia).
  all: try reflexivity.
  all: simpl; repeat (constructor; [done|]); constructor.
Defined.

(** C2, counterexample.  Four records that meet the stated premises
    (valid vocabulary fields, integer year and month) and do not survive
    the round trip: an underscore in the subject and an exam-type word as
    selection make the built name unparseable; a subject written with
    conjoining jamo comes back composed; an unpaired surrogate comes back
    as U+FFFD. *)
Lemma round_trip_fails_on_free_text :
  let underscored := sample_record (lit "국_어") [] in
  let collided := sample_record (lit "수학") (lit "수능") in
  let decomposed := sample_record gugeo_decomposed [] in
  let ill_formed := sample_record [0xD800] [] in
  (vocabulary_fields_valid underscored = true
   ∧ parseFilename Hangul.nfc (buildFilename underscored) = None)
  ∧ (vocabulary_fields_valid collided = true
     ∧ parseFilename Hangul.nfc (buildFilename collided) = None)
  ∧ (vocabulary_fields_valid decomposed = true
     ∧ ExamMetadata.subject
         <$> parseFilename Hangul.nfc (buildFilename decomposed)
       = Some (lit "국어")
     ∧ ExamMetadata.subject decomposed ≠ lit "국어")
  ∧ (vocabulary_fields_valid ill_formed = true
     ∧ ExamMetadata.subject
         <$> parseFilename Hangul.nfc (buildFilename ill_formed)
       = Some [0xFFFD]
     ∧ ExamMetadata.subject ill_formed ≠ [0xFFFD]).
Proof. vm_compute. repeat split; done. Qed.

(** ** The catalog service *)

Section ServiceFacts.

Import DocumentsService.

Variable normalize_NFC : jsstring -> jsstring.

Lemma order_created_at_desc_Permutation rows : order_created_at_desc rows ≡ₚ rows.
Proof. apply merge_sort_Permutation. Qed.

Lemma filter_always {A : Type} (l : list A) : filter (fun _ => true = true) l = l.
Proof. induction l as [|x l IH]; [done|]. rewrite filter_cons_True by done. by rewrite IH. Qed.

Lemma whenNonEmpty_filter {A : Type} `{EqDecision A} (field : option (list A))
    (column : Document.t -> A) (query : list Document.t) :
  whenNonEmpty field (in_ column) query
  = filter (fun d => admits field (column d) = true) query.
Proof.
  destruct field as [[|v vs]|]; simpl; try (by rewrite filter_always).
  unfold in_. apply list_filter_iff. intros d. by rewrite bool_decide_eq_true.
Qed.

Lemma whenNonEmpty_map {A : Type} `{EqDecision A} (f : A -> A)
    (field : option (list A)) (column : Document.t -> A) query :
  whenNonEmpty field (fun vs => in_ column (map f vs)) query
  = whenNonEmpty (map f <$> field) (in_ column) query.
Proof. by destruct field as [[|v vs]|]. Qed.

Lemma filtered_rows filters table :
  getDocumentsWithFilters normalize_NFC filters table
  ≡ₚ filter (fun d => matches normalize_NFC filters d = true) table.
Proof.
  unfold getDocumentsWithFilters.
  rewrite order_created_at_desc_Permutation.
  rewrite !whenNonEmpty_map, !whenNonEmpty_filter, !list_filter_filter.
  apply reflexive_eq, list_filter_iff. intros d. unfold matches.
  rewrite !andb_true_iff. tauto.
Qed.

End ServiceFacts.

Section FilterTheorems.

Import DocumentsService.

Variable normalize_NFC : jsstring -> jsstring.
Hypothesis NFC_vocabulary : ∀ v, v ∈ vocabulary → normalize_NFC v = v.

(** C1 (as amended).  With integer numeric filter values, the result holds
    exactly the rows of the table that every non-empty filter field admits,
    textual filter values being normalized before the comparison; a field
    that is absent or empty constrains nothing.  On the example catalog the
    three queries of the specification return {D1, D2}, {D3} and all
    three. *)
Theorem filters_and_across_or_within :
  (∀ filters table,
     integer_filters filters →
     getDocumentsWithFilters normalize_NFC filters table
       ≡ₚ filter (fun d => matches normalize_NFC filters d = true) table
     ∧ ∀ d, d ∈ getDocumentsWithFilters normalize_NFC filters table
            ↔ d ∈ table ∧ matches normalize_NFC filters d = true)
  ∧ getDocumentsWithFilters normalize_NFC third_year_korean_or_math [D1; D2; D3]
      ≡ₚ [D1; D2]
  ∧ getDocumentsWithFilters normalize_NFC year_2023 [D1; D2; D3] ≡ₚ [D3]
  ∧ getDocumentsWithFilters normalize_NFC no_fields [D1; D2; D3]
      ≡ₚ [D1; D2; D3].
Proof.
  split.
  { intros filters table _. split; [apply filtered_rows|].
    intros d. rewrite filtered_rows, list_elem_of_filter. tauto. }
  repeat split; rewrite filtered_rows.
  - unfold matches, third_year_korean_or_math. simpl.
    rewrite !NFC_vocabulary by (apply includes_true; reflexivity).
    reflexivity.
  - reflexivity.
  - reflexivity.
Qed.

End FilterTheorems.

Lemma filters_and_across_or_within_witness :
  integer_filters year_2023
  ∧ (∀ d, d ∈ DocumentsService.getDocumentsWithFilters Hangul.nfc year_2023
                [D1; D2; D3]
          ↔ d ∈ [D1; D2; D3] ∧ matches Hangul.nfc year_2023 d = true)
  ∧ DocumentsService.getDocumentsWithFilters Hangul.nfc
      third_year_korean_or_math [D1; D2; D3] ≡ₚ [D1; D2].
Proof.
  assert (Hint : integer_filters year_2023).
  { split; simpl; repeat constructor. discriminate. }
  pose proof (filters_and_across_or_within Hangul.nfc Hangul_nfc_vocabulary)
    as [Hgeneral [Hex _]].
  split; [exact Hint|]. split; [|exact Hex].
  exact (proj2 (Hgeneral year_2023 [D1; D2; D3] Hint)).
Defined.

(** C1, counterexample.  A field that is present but empty admits no row
    as the specification is worded, yet the service returns every row; and
    a provided value equal to the stored one admits the row as worded, yet
    the service, comparing the normalized value, returns nothing. *)
Lemma empty_or_unnormalized_filter_differs :
  let empty_grades := DocumentFilters.mk (Some []) None None None in
  let raw_grade := DocumentFilters.mk (Some [go3_decomposed]) None None None in
  (List.filter (matches_as_worded empty_grades) [D1; D2; D3] = []
   ∧ DocumentsService.getDocumentsWithFilters Hangul.nfc empty_grades
       [D1; D2; D3] = [D1; D2; D3])
  ∧ (List.filter (matches_as_worded raw_grade) [legacy_row] = [legacy_row]
     ∧ DocumentsService.getDocumentsWithFilters Hangul.nfc raw_grade
         [legacy_row] = []).
Proof. vm_compute. done. Qed.

(** ** Available filter values *)

#[local] Instance str_le_total : Total str_le.
Proof.
  intros a. unfold str_le. induction a as [|x a IH]; intros [|y b]; simpl; auto.
  destruct (Z.ltb_spec x y); simpl; [by left|].
  destruct (Z.ltb_spec y x); simpl; [by right|].
  assert (x = y) as -> by lia. rewrite Z.eqb_refl. simpl. apply IH.
Qed.

#[local] Instance str_le_trans : Transitive str_le.
Proof.
  intros a. unfold str_le. induction a as [|x a IH]; intros [|y b] [|z c];
    simpl; try done.
  rewrite !orb_true_iff, !andb_true_iff, !Z.ltb_lt, !Z.eqb_eq.
  intros [Hxy | [-> Hab]] [Hyz | [-> Hbc]]; try (left; lia); eauto.
Qed.

#[local] Instance str_le_antisym : AntiSymm eq str_le.
Proof.
  intros a. unfold str_le. induction a as [|x a IH]; intros [|y b];
    simpl; try done.
  rewrite !orb_true_iff, !andb_true_iff, !Z.ltb_lt, !Z.eqb_eq.
  intros [Hxy | [-> Hab]] [Hyx | [Heq Hba]]; try lia.
  f_equal. by apply IH.
Qed.

#[local] Instance Z_ge_total : Total Z.ge.
Proof. intros x y. lia. Qed.
#[local] Instance Z_ge_trans : Transitive Z.ge.
Proof. intros x y z. lia. Qed.
#[local] Instance Z_ge_antisym : AntiSymm eq Z.ge.
Proof. intros x y. lia. Qed.

Lemma StronglySorted_strict {A : Type} (R : relation A) (l : list A) :
  StronglySorted R l → NoDup l → StronglySorted (fun a b => R a b ∧ a ≠ b) l.
Proof.
  induction 1 as [|x l Hl IH Hx]; intros Hnd; constructor.
  - apply IH. by apply NoDup_cons in Hnd as [_ ?].
  - apply NoDup_cons in Hnd as [Hnotin _].
    apply Forall_forall. intros y Hy. split.
    + by apply (proj1 (Forall_forall _ _) Hx).
    + intros ->. done.
Qed.

Lemma StronglySorted_weaken {A : Type} (R1 R2 : relation A) (l : list A) :
  (∀ a b, R1 a b → R2 a b) → StronglySorted R1 l → StronglySorted R2 l.
Proof.
  intros Himpl. induction 1 as [|x l Hl IH Hx]; constructor; [done|].
  eapply Forall_impl; [exact Hx | apply Himpl].
Qed.

Lemma newSet_spec {A : Type} `{EqDecision A} (arr : list A) :
  NoDup (newSet arr) ∧ ∀ x, x ∈ newSet arr ↔ x ∈ arr.
Proof.
  unfold newSet.
  set (step := fun (acc : list A) (x : A) =>
                 if decide (x ∈ acc) then acc else acc ++ [x]).
  assert (H : ∀ (l acc : list A), NoDup acc →
    NoDup (fold_left step l acc)
    ∧ ∀ x : A, x ∈ fold_left step l acc ↔ x ∈ acc ∨ x ∈ l).
  { induction l as [|y l IH]; intros acc Hacc; simpl.
    - split; [done|]. intros x. rewrite elem_of_nil. tauto.
    - assert (Hstep : NoDup (step acc y)
                      ∧ ∀ x : A, x ∈ step acc y ↔ x ∈ acc ∨ x = y).
      { unfold step. destruct (decide (y ∈ acc)) as [Hin|Hnotin].
        - split; [done|]. intros x. split; [tauto|]. by intros [?| ->].
        - split.
          + apply NoDup_app. repeat split; [done| |apply NoDup_singleton].
            intros x Hx ->%list_elem_of_singleton. done.
          + intros x. by rewrite elem_of_app, list_elem_of_singleton. }
      destruct Hstep as [Hnd1 Hmem1].
      destruct (IH (step acc y) Hnd1) as [Hnd Hmem]. split; [done|].
      intros x. rewrite Hmem, Hmem1, elem_of_cons. tauto. }
  destruct (H arr [] (NoDup_nil_2)) as [Hnd Hmem]. split; [done|].
  intros x. rewrite Hmem, elem_of_nil. tauto.
Qed.

(** Sorting the distinct values of a column. *)
Lemma sorted_distinct {A : Type} `{EqDecision A} (R : relation A)
    `{!RelDecision R, !Total R, !Transitive R} (arr : list A) :
  StronglySorted (fun a b => R a b ∧ a ≠ b) (merge_sort R (newSet arr))
  ∧ NoDup (merge_sort R (newSet arr))
  ∧ ∀ x, x ∈ merge_sort R (newSet arr) ↔ x ∈ arr.
Proof.
  destruct (newSet_spec arr) as [Hnd Hmem].
  assert (Hnd' : NoDup (merge_sort R (newSet arr))).
  { by rewrite merge_sort_Permutation. }
  split; [|split; [done|]].
  - apply StronglySorted_strict; [|done]. by apply StronglySorted_merge_sort.
  - intros x. by rewrite merge_sort_Permutation, Hmem.
Qed.

Section AvailableValuesTheorems.

Import DocumentsService.

Variable normalize_NFC : jsstring -> jsstring.

Lemma column_of_all_documents {A : Type} (column : Document.t -> A) table x :
  x ∈ map column (getAllDocuments table) ↔ ∃ d, d ∈ table ∧ x = column d.
Proof.
  unfold getAllDocuments. rewrite order_created_at_desc_Permutation.
  rewrite list_elem_of_fmap. split; intros (d & H1 & H2); eauto.
Qed.

(** C9.  Each of the four lists holds exactly the values observed in the
    table (text values normalized), without repetition; grade levels and
    categories are in strictly ascending code-unit order, years strictly
    descending, months strictly ascending.  A catalog whose years are
    2024, 2022, 2024, 2023 in any order gives [2024; 2023; 2022]. *)
Theorem available_filter_values (table : list Document.t) :
  let values := getAvailableFilterValues normalize_NFC table in
  (StronglySorted str_lt (grade_levels values)
   ∧ NoDup (grade_levels values)
   ∧ ∀ x, x ∈ grade_levels values
          ↔ ∃ d, d ∈ table
                 ∧ x = normalizeKoreanText normalize_NFC (Document.grade_level d))
  ∧ (StronglySorted str_lt (categories values)
     ∧ NoDup (categories values)
     ∧ ∀ x, x ∈ categories values
            ↔ ∃ d, d ∈ table
                   ∧ x = normalizeKoreanText normalize_NFC (Document.category d))
  ∧ (StronglySorted Z.gt (exam_years values)
     ∧ NoDup (exam_years values)
     ∧ ∀ y, y ∈ exam_years values ↔ ∃ d, d ∈ table ∧ y = Document.exam_year d)
  ∧ (StronglySorted Z.lt (exam_months values)
     ∧ NoDup (exam_months values)
     ∧ ∀ y, y ∈ exam_months values ↔ ∃ d, d ∈ table ∧ y = Document.exam_month d)
  ∧ (map Document.exam_year table ≡ₚ [2024; 2022; 2024; 2023] →
     exam_years values = [2024; 2023; 2022]).
Proof.
  intros values. unfold values, getAvailableFilterValues. simpl.
  pose proof (sorted_distinct str_le
    (map (fun doc => normalizeKoreanText normalize_NFC (Document.grade_level doc))
         (getAllDocuments table))) as (Hg1 & Hg2 & Hg3).
  pose proof (sorted_distinct str_le
    (map (fun doc => normalizeKoreanText normalize_NFC (Document.category doc))
         (getAllDocuments table))) as (Hc1 & Hc2 & Hc3).
  pose proof (sorted_distinct Z.ge
    (map Document.exam_year (getAllDocuments table))) as (Hy1 & Hy2 & Hy3).
  pose proof (sorted_distinct Z.le
    (map Document.exam_month (getAllDocuments table))) as (Hm1 & Hm2 & Hm3).
  assert (Hyears : ∀ y,
    y ∈ merge_sort Z.ge (newSet (map Document.exam_year (getAllDocuments table)))
    ↔ ∃ d, d ∈ table ∧ y = Document.exam_year d).
  { intros y. by rewrite Hy3, column_of_all_documents. }
  repeat split; try done.
  - intros H. by apply (proj1 (Hg3 x)), (column_of_all_documents
      (fun doc => normalizeKoreanText normalize_NFC (Document.grade_level doc))) in H.
  - intros H. by apply Hg3, (column_of_all_documents
      (fun doc => normalizeKoreanText normalize_NFC (Document.grade_level doc))).
  - intros H. by apply (proj1 (Hc3 x)), (column_of_all_documents
      (fun doc => normalizeKoreanText normalize_NFC (Document.category doc))) in H.
  - intros H. by apply Hc3, (column_of_all_documents
      (fun doc => normalizeKoreanText normalize_NFC (Document.category doc))).
  - eapply StronglySorted_weaken; [|exact Hy1]. intros a b. simpl. lia.
  - by apply Hyears.
  - by apply Hyears.
  - eapply StronglySorted_weaken; [|exact Hm1]. intros a b. simpl. lia.
  - intros H. by apply (proj1 (Hm3 y)), column_of_all_documents in H.
  - intros H. by apply Hm3, column_of_all_documents.
  - intros Hcat.
    apply (Sorted_unique Z.ge).
    + eapply StronglySorted_Sorted, StronglySorted_weaken; [|exact Hy1].
      intros a b. simpl. tauto.
    + repeat constructor; lia.
    + apply NoDup_Permutation; [done| |].
      * exact (bool_decide_unpack (NoDup [2024; 2023; 2022]) I).
      * intros y. rewrite Hy3.
        unfold getAllDocuments. rewrite order_created_at_desc_Permutation, Hcat.
        rewrite !elem_of_cons, !elem_of_nil. tauto.
Qed.

End AvailableValuesTheorems.

Lemma available_filter_values_witness :
  let table := [D1; legacy_row; D2; D3] in
  map Document.exam_year table = [2024; 2022; 2024; 2023]
  ∧ DocumentsService.exam_years
      (DocumentsService.getAvailableFilterValues Hangul.nfc table)
    = [2024; 2023; 2022]
  ∧ DocumentsService.grade_levels
      (DocumentsService.getAvailableFilterValues Hangul.nfc table)
    = [lit "고2"; lit "고3"].
Proof.
  intros table. split; [reflexivity|]. split; [|reflexivity].
  apply (available_filter_values Hangul.nfc table). reflexivity.
Defined.

(** ** Decoding the query string *)

Section QueryTheorems.

Import DocumentsController.


End QueryTheorems.



(** ** The upload pipeline *)

Section PathFacts.

Lemma split_before_separator sep a r :
  ∃ p ps, split sep (a ++ sep :: r) = (p :: ps) ++ split sep r.
Proof.
  induction a as [|c a (p & ps & IH)]; simpl.
  - exists [], []. by rewrite Z.eqb_refl.
  - rewrite IH. destruct (c =? sep).
    + exists [], (p :: ps). reflexivity.
    + exists (c :: p), ps. reflexivity.
Qed.

Lemma last_app_not_nil {A : Type} (l1 l2 : list A) d :
  l2 ≠ [] → List.last (l1 ++ l2) d = List.last l2 d.
Proof.
  intros Hne. induction l1 as [|x l1 IH]; [done|]. simpl.
  destruct (l1 ++ l2) eqn:Happ; [|done].
  apply app_eq_nil in Happ as [_ ?]. done.
Qed.

(** The base name of a directory entry joined to its directory is the
    entry. *)
Lemma path_basename_join dataPath file :
  file ≠ [] → Forall (fun c => c ≠ slash) file →
  path_basename (path_join dataPath file) = file.
Proof.
  intros Hne Hfile. unfold path_basename, path_join.
  assert (Hkeep : rev (dropLeadingSlashes (rev (dataPath ++ [slash] ++ file)))
                  = dataPath ++ [slash] ++ file).
  { rewrite !rev_app_distr.
    destruct (rev file) as [|x t] eqn:Hrev.
    - apply (f_equal (@rev Z)) in Hrev. rewrite rev_involutive in Hrev. done.
    - assert (Hx : x ≠ slash).
      { apply (proj1 (Forall_forall _ _) Hfile).
        apply list_elem_of_In, in_rev. rewrite Hrev. by left. }
      simpl. destruct (Z.eqb_spec x slash); [done|].
      replace (x :: (t ++ [slash]) ++ rev dataPath)
        with (rev file ++ rev [slash] ++ rev dataPath)
        by (rewrite Hrev; simpl; by rewrite <- app_assoc).
      rewrite <- !rev_app_distr, rev_involutive. by rewrite <- app_assoc. }
  rewrite Hkeep. simpl.
  destruct (split_before_separator slash dataPath file) as (p & ps & ->).
  rewrite last_app_not_nil by apply split_not_nil.
  by rewrite split_single.
Qed.

Lemma endsWith_dot_pdf_nonempty file : endsWith file dot_pdf = true → file ≠ [].
Proof. by intros H ->. Qed.

End PathFacts.

Section LoopFacts.

Variable normalize_NFC : jsstring -> jsstring.
Variable ext : Externals.

Lemma skipped_app l1 l2 : skipped (l1 ++ l2) = skipped l1 ++ skipped l2.
Proof. apply omap_app. Qed.

Lemma stored_app l1 l2 : stored (l1 ++ l2) = stored l1 ++ stored l2.
Proof. apply omap_app. Qed.

(** What one call of [processFile] does to the console. *)
Lemma processFile_console filePath w :
  let file := path_basename filePath in
  let '(ok, w') := processFile normalize_NFC ext filePath w in
  if parses normalize_NFC file then
    skipped (console w') = skipped (console w)
    ∧ (stores_accept ext →
       ok = true ∧ stored (console w') = stored (console w) ++ [file])
  else
    ok = false
    ∧ skipped (console w') = skipped (console w) ++ [file]
    ∧ stored (console w') = stored (console w).
Proof.
  intros file. unfold processFile, parses. fold file.
  destruct (parseFilename normalize_NFC file) as [metadata|] eqn:Hparse.
  - assert (Hname : ExamMetadata.filename metadata = file).
    { destruct (parseFilename_Some_shape _ _ _ Hparse) as [Hsuf Hlen].
      rewrite parseFilename_accepted_shape in Hparse by done.
      destruct (layout (parts_of file)) as [[[[[sel et] y] mo] src] dt].
      apply validateComponents_Some in Hparse. by subst metadata. }
    unfold uploadToS3, uploadToSupabase.
    destruct (s3_accepts ext w filePath (generateStoragePath metadata)) eqn:Hs3;
      simpl.
    + match goal with |- context [supabase_accepts ext ?w1 ?data] =>
        destruct (supabase_accepts ext w1 data) eqn:Hdb end; simpl.
      * rewrite skipped_app, stored_app, skipped_app, stored_app. simpl.
        rewrite !app_nil_r, Hname. done.
      * rewrite !skipped_app. simpl. rewrite !app_nil_r.
        split; [done|]. intros [_ Hacc]. by rewrite Hacc in Hdb.
    + rewrite skipped_app. simpl. rewrite app_nil_r.
      split; [done|]. intros [Hacc _]. by rewrite Hacc in Hs3.
  - simpl. rewrite skipped_app, stored_app. simpl. by rewrite app_nil_r.
Qed.

(** The loop visits every file: the skipped names are the unparseable
    ones, in order, whatever the stores do; when the stores accept every
    write the counter grows by the number of parseable names and these are
    the stored ones. *)
Lemma uploadLoop_spec dataPath (files : list jsstring) :
  Forall (fun file => file ≠ [] ∧ Forall (fun c => c ≠ slash) file) files →
  ∀ successCount w,
  let '(n, w') :=
    uploadLoop normalize_NFC ext (map (path_join dataPath) files)
      successCount w in
  skipped (console w')
  = skipped (console w)
    ++ List.filter (fun f => negb (parses normalize_NFC f)) files
  ∧ (successCount <= n
     <= successCount + length (List.filter (parses normalize_NFC) files))%nat
  ∧ (stores_accept ext →
     n = (successCount + length (List.filter (parses normalize_NFC) files))%nat
     ∧ stored (console w')
       = stored (console w) ++ List.filter (parses normalize_NFC) files).
Proof.
  induction 1 as [|file files [Hne Hfile] _ IH]; intros successCount w; simpl.
  - rewrite !app_nil_r. repeat split; lia.
  - pose proof (processFile_console (path_join dataPath file) w) as Hstep.
    rewrite path_basename_join in Hstep by done. simpl in Hstep.
    destruct (processFile normalize_NFC ext (path_join dataPath file) w)
      as [ok w1].
    specialize (IH (if ok then S successCount else successCount) w1).
    destruct (uploadLoop normalize_NFC ext (map (path_join dataPath) files)
                (if ok then S successCount else successCount) w1) as [n w'].
    destruct IH as (Hskip & Hcount & Hacc).
    destruct (parses normalize_NFC file); simpl.
    + destruct Hstep as [Hskip1 Hok]. rewrite Hskip, Hskip1.
      split; [done|]. split; [destruct ok; lia|].
      intros Haccept. destruct (Hok Haccept) as [-> Hstored].
      destruct (Hacc Haccept) as [-> ->]. rewrite Hstored.
      split; [lia | by rewrite <- app_assoc].
    + destruct Hstep as (-> & Hskip1 & Hstored). rewrite Hskip, Hskip1.
      split; [by rewrite <- app_assoc|]. split; [lia|].
      intros Haccept. destruct (Hacc Haccept) as [-> ->].
      by rewrite Hstored.
Qed.

End LoopFacts.

Lemma Forall_List_filter {A : Type} (P : A -> Prop) (f : A -> bool) (l : list A) :
  Forall P l → Forall (fun x => f x = true ∧ P x) (List.filter f l).
Proof.
  induction 1 as [|x l Hx _ IH]; simpl; [done|].
  destruct (f x) eqn:Hfx; [by constructor | done].
Qed.

Lemma List_filter_partition_length {A : Type} (f : A -> bool) (l : list A) :
  (length (List.filter f l) + length (List.filter (fun x => negb (f x)) l)
   = length l)%nat.
Proof. induction l as [|x l IH]; simpl; [done|]. destruct (f x); simpl; lia. Qed.

Section PipelineTheorems.

Variable normalize_NFC : jsstring -> jsstring.

(** C8 (as amended).  The [storage_path] of a row stored by [processFile]
    is [generateStoragePath] of the metadata parsed from the file's base
    name, a key under "exams/"; it does not depend on the generated id, on
    the clock or on the state of the stores. *)
Theorem storage_path_from_metadata (filePath : jsstring) :
  (∀ ext w r,
     r ∈ documents (processFile normalize_NFC ext filePath w).2 →
     r ∈ documents w
     ∨ ∃ metadata,
         parseFilename normalize_NFC (path_basename filePath) = Some metadata
         ∧ SupabaseRecord.storage_path r = generateStoragePath metadata
         ∧ startsWith (SupabaseRecord.storage_path r) exams_prefix = true)
  ∧ (∀ ext1 ext2 w1 w2 r1 r2,
       r1 ∈ documents (processFile normalize_NFC ext1 filePath w1).2 →
       r1 ∉ documents w1 →
       r2 ∈ documents (processFile normalize_NFC ext2 filePath w2).2 →
       r2 ∉ documents w2 →
       SupabaseRecord.storage_path r1 = SupabaseRecord.storage_path r2).
Proof.
  assert (Hone : ∀ ext w r,
     r ∈ documents (processFile normalize_NFC ext filePath w).2 →
     r ∈ documents w
     ∨ ∃ metadata,
         parseFilename normalize_NFC (path_basename filePath) = Some metadata
         ∧ SupabaseRecord.storage_path r = generateStoragePath metadata
         ∧ startsWith (SupabaseRecord.storage_path r) exams_prefix = true).
  { intros ext w r Hr.
    apply processFile_documents in Hr as [Hold | (metadata & w1 & Hparse & ->)];
      [by left | right].
    exists metadata. split; [done|]. split; [done|].
    exact (startsWith_app exams_prefix _). }
  split; [exact Hone|].
  intros ext1 ext2 w1 w2 r1 r2 Hr1 Hnew1 Hr2 Hnew2.
  apply Hone in Hr1 as [? | (m1 & Hm1 & -> & _)]; [done|].
  apply Hone in Hr2 as [? | (m2 & Hm2 & -> & _)]; [done|].
  rewrite Hm1 in Hm2. by injection Hm2 as ->.
Qed.

(** C10 (as amended).  For a directory listing with at least one name
    ending in ".pdf", the loop handles each such name once and in order: the
    names logged as skipped are exactly the unparseable ones, whatever the
    stores answer; the summary is logged last; and when both stores accept
    every write, the counter equals the number of parseable names, which
    are the names logged as stored -- N successes and one skip for N
    parseable names and one unparseable name.  Names without the suffix are
    filtered out before the loop. *)
Theorem batch_upload_resilience (ext : Externals) (dataPath : jsstring)
    (files : list jsstring) (w : World) :
  Forall (Forall (fun c => c ≠ slash)) files →
  let pdfFiles := List.filter (fun file => endsWith file dot_pdf) files in
  let valid := List.filter (parses normalize_NFC) pdfFiles in
  let invalid :=
    List.filter (fun f => negb (parses normalize_NFC f)) pdfFiles in
  pdfFiles ≠ [] →
  let w' := uploadAllFiles normalize_NFC ext dataPath (Some files) w in
  skipped (console w') = skipped (console w) ++ invalid
  ∧ (length valid + length invalid = length pdfFiles)%nat
  ∧ ∃ successCount lines,
      console w' = lines ++ [UploadSummary successCount (length pdfFiles)]
      ∧ (successCount <= length valid)%nat
      ∧ (stores_accept ext →
         successCount = length valid
         ∧ stored (console w') = stored (console w) ++ valid
         ∧ ∀ N, length valid = N → length invalid = 1%nat →
             successCount = N
             ∧ length pdfFiles = S N
             ∧ length (skipped (console w'))
               = S (length (skipped (console w)))).
Proof.
  intros Hnames pdfFiles valid invalid Hne w'.
  assert (Hpdf : Forall (fun file => file ≠ []
                                     ∧ Forall (fun c => c ≠ slash) file) pdfFiles).
  { eapply Forall_impl; [apply Forall_List_filter, Hnames|].
    intros file [Hsuf Hfile]. eauto using endsWith_dot_pdf_nonempty. }
  unfold w', uploadAllFiles. fold pdfFiles.
  destruct (map (path_join dataPath) pdfFiles) as [|p0 ps] eqn:Hmap.
  { destruct pdfFiles; [done | discriminate]. }
  rewrite <- Hmap.
  pose proof (uploadLoop_spec normalize_NFC ext dataPath pdfFiles Hpdf 0%nat
                (log (FoundPdfFiles (length (map (path_join dataPath) pdfFiles))) w))
    as Hloop.
  destruct (uploadLoop normalize_NFC ext (map (path_join dataPath) pdfFiles)
              0%nat _) as [n w1].
  destruct Hloop as (Hskip & Hcount & Hacc).
  simpl console in *. rewrite !skipped_app, !stored_app in *.
  simpl in Hskip, Hacc. rewrite !app_nil_r in *.
  fold valid in Hcount, Hacc. fold invalid in Hskip.
  rewrite length_map.
  split; [exact Hskip|].
  split; [apply List_filter_partition_length|].
  exists n, (console w1). split; [done|]. split; [lia|].
  intros Haccept. destruct (Hacc Haccept) as [-> Hstored].
  split; [done|]. split; [exact Hstored|].
  intros N HN Hone.
  pose proof (List_filter_partition_length (parses normalize_NFC) pdfFiles) as Hlen.
  fold valid invalid in Hlen.
  split; [done|]. split; [lia|].
  rewrite Hskip, length_app. lia.
Qed.

End PipelineTheorems.

Lemma storage_path_from_metadata_witness :
  let filePath := path_join data_dir problem_pdf in
  let w' := (processFile Hangul.nfc accepting_stores filePath empty_world).2 in
  ∃ r metadata,
    documents w' = [r]
    ∧ parseFilename Hangul.nfc (path_basename filePath) = Some metadata
    ∧ SupabaseRecord.storage_path r = generateStoragePath metadata
    ∧ SupabaseRecord.storage_path r
      = lit "exams/고3/국어/국어/2024/11/평가원/problem.pdf".
Proof.
  intros filePath w'.
  destruct (documents w') as [|r rest] eqn:Hdocs;
    [vm_compute in Hdocs; discriminate|].
  assert (Hin : r ∈ documents w') by (rewrite Hdocs; left).
  destruct (proj1 (storage_path_from_metadata Hangul.nfc filePath)
              accepting_stores empty_world r Hin)
    as [Hold | (metadata & Hparse & Hpath & _)].
  - inversion Hold.
  - exists r, metadata.
    vm_compute in Hdocs. injection Hdocs as <- <-.
    split; [reflexivity|]. split; [exact Hparse|].
    split; [exact Hpath | reflexivity].
Defined.

(** C8, counterexample.  Two files stored under the same id get different
    storage paths, neither of which is documents/{id}.pdf. *)
Lemma storage_path_ignores_id :
  let uuid := lit "6f1c2a9e-0000-4000-8000-000000000001" in
  let stored_row file :=
    map (fun r => (SupabaseRecord.id r, SupabaseRecord.storage_path r))
      (documents (processFile Hangul.nfc accepting_stores
                    (path_join data_dir file) empty_world).2) in
  stored_row problem_pdf
  = [(uuid, lit "exams/고3/국어/국어/2024/11/평가원/problem.pdf")]
  ∧ stored_row answer_pdf
    = [(uuid, lit "exams/고3/국어/국어/2024/11/평가원/answer.pdf")]
  ∧ lit "exams/고3/국어/국어/2024/11/평가원/problem.pdf"
    ≠ lit "documents/6f1c2a9e-0000-4000-8000-000000000001.pdf".
Proof. vm_compute. repeat split; discriminate. Qed.

Lemma batch_upload_resilience_witness :
  let files := [problem_pdf; misnamed_pdf; naming_convention_md; answer_pdf] in
  let w' :=
    uploadAllFiles Hangul.nfc accepting_stores data_dir (Some files)
      empty_world in
  skipped (console w') = [misnamed_pdf]
  ∧ stored (console w') = [problem_pdf; answer_pdf]
  ∧ List.last (console w') (FoundPdfFiles 0) = UploadSummary 2 3.
Proof.
  intros files w'.
  assert (Hnames : Forall (Forall (fun c => c ≠ slash)) files).
  { repeat (constructor; [repeat (constructor; [discriminate|]); constructor|]).
    constructor. }
  assert (Hne : List.filter (fun file => endsWith file dot_pdf) files ≠ [])
    by discriminate.
  assert (Haccept : stores_accept accepting_stores) by by split.
  destruct (batch_upload_resilience Hangul.nfc accepting_stores data_dir files
              empty_world Hnames Hne)
    as (Hskip & _ & n & lines & Hconsole & _ & Hacc).
  destruct (Hacc Haccept) as (-> & Hstored & _).
  fold w' in Hskip, Hstored, Hconsole.
  split; [exact Hskip|]. split; [exact Hstored|].
  rewrite Hconsole, last_app_not_nil by discriminate. reflexivity.
Defined.

(** C10, counterexample.  An unparseable name without the ".pdf" suffix is
    dropped before the loop and never logged as skipped; and when the
    bucket refuses the upload, a parseable name is not counted as a
    success. *)
Lemma batch_counts_depend_on_suffix_and_stores :
  (parses Hangul.nfc problem_pdf = true
   ∧ parses Hangul.nfc naming_convention_md = false
   ∧ console (uploadAllFiles Hangul.nfc accepting_stores data_dir
                (Some [problem_pdf; naming_convention_md]) empty_world)
     = [ FoundPdfFiles 1;
         UploadedToS3 (lit "exams/고3/국어/국어/2024/11/평가원/problem.pdf");
         UploadedToSupabase problem_pdf;
         UploadSummary 1 1 ])
  ∧ (parses Hangul.nfc misnamed_pdf = false
     ∧ console (uploadAllFiles Hangul.nfc refusing_bucket data_dir
                  (Some [problem_pdf; misnamed_pdf]) empty_world)
       = [ FoundPdfFiles 2;
           S3UploadFailed (path_join data_dir problem_pdf);
           SkippingInvalidFilename misnamed_pdf;
           UploadSummary 0 2 ]).
Proof. vm_compute. done. Qed.

(** * Further properties of the code *)

(** ** The parser: layouts and accepted records *)

Section ParserLayouts.

Variable normalize_NFC : jsstring -> jsstring.

Lemma validateComponents_filename g c s comps f1 f2 :
  validateComponents normalize_NFC g c s comps f2
  = with_filename f2 <$> validateComponents normalize_NFC g c s comps f1.
Proof.
  destruct comps as [[[[[sel et] y] mo] src] dt]. unfold validateComponents.
  match goal with |- context [if ?b then _ else _] => destruct b end; done.
Qed.

Lemma parts_of_name_of_pieces parts :
  parts ≠ [] → Forall (Forall (fun c => c ≠ underscore)) parts →
  parts_of (name_of_pieces parts) = parts.
Proof.
  intros Hne Hall. unfold parts_of, name_of_pieces.
  change 4%nat with (length dot_pdf). rewrite slice_app.
  by apply split_join.
Qed.

(** X1.  A name with eight pieces and the name with an empty ninth piece
    in the selection slot (a double underscore) are read alike: both are
    rejected, or both give the same record apart from [filename]. *)
Theorem omitted_and_empty_selection_agree (parts : list jsstring) :
  length parts = 8%nat →
  Forall (Forall (fun c => c ≠ underscore)) parts →
  let short := name_of_pieces parts in
  let long := name_of_pieces (take 3 parts ++ [[]] ++ drop 3 parts) in
  parseFilename normalize_NFC long
  = with_filename long <$> parseFilename normalize_NFC short.
Proof.
  intros Hlen Hall short long.
  do 9 (destruct parts as [|? parts]; try discriminate). clear Hlen.
  assert (Hlong : Forall (Forall (fun c => c ≠ underscore))
            (take 3 [l; l0; l1; l2; l3; l4; l5; l6]
             ++ [[]] ++ drop 3 [l; l0; l1; l2; l3; l4; l5; l6])).
  { simpl. repeat (apply Forall_cons in Hall as [? Hall]).
    repeat (constructor; [done|]). constructor. }
  rewrite !parseFilename_accepted_shape;
    try apply endsWith_app;
    try (unfold short, long; rewrite parts_of_name_of_pieces by done;
         simpl; lia).
  unfold short, long. rewrite !parts_of_name_of_pieces by done.
  simpl take. simpl drop. simpl app.
  rewrite layout_nine. rewrite bool_decide_eq_true_2 by done.
  apply validateComponents_filename.
Qed.

(** X2.  Whatever the parser accepts has passed every check: the five
    vocabulary fields of the returned record are words of their
    vocabularies, neither the year nor the month is NaN, and the name ends
    in ".pdf".  Nothing bounds the year or the month. *)
Theorem accepted_record_is_valid (filename : jsstring) (m : ExamMetadata.t) :
  parseFilename normalize_NFC filename = Some m →
  ExamMetadata.grade_level m ∈ validGradeLevels
  ∧ ExamMetadata.category m ∈ validCategories
  ∧ ExamMetadata.exam_type m ∈ validExamTypes
  ∧ ExamMetadata.source m ∈ validSources
  ∧ ExamMetadata.doc_type m ∈ validDocTypes
  ∧ ExamMetadata.exam_year m ≠ JNaN
  ∧ ExamMetadata.exam_month m ≠ JNaN
  ∧ endsWith filename dot_pdf = true.
Proof.
  intros Hm.
  destruct (parseFilename_Some_shape _ _ _ Hm) as [Hsuf Hlen].
  rewrite parseFilename_accepted_shape in Hm by done.
  destruct (layout (parts_of filename)) as [[[[[sel et] y] mo] src] dt].
  assert (Hvalid : validateComponents normalize_NFC
            (at_ (parts_of filename) 0) (at_ (parts_of filename) 1)
            (at_ (parts_of filename) 2) (sel, et, y, mo, src, dt) filename
          ≠ None) by (rewrite Hm; done).
  rewrite validateComponents_None in Hvalid.
  apply validateComponents_Some in Hm. subst m. simpl. unfold ensureUTF8.
  assert (Hin : ∀ (voc : list jsstring) (x : jsstring),
            (x ∈ voc → x ∈ vocabulary) → ¬ (x ∉ voc) →
            utf8RoundTrip x ∈ voc).
  { intros voc x Hvoc Hx. destruct (decide (x ∈ voc)) as [Hyes|Hno]; [|done].
    by rewrite vocabulary_well_formed by auto. }
  assert (Hword : ∀ (voc : list jsstring) (x : jsstring),
            (x ∈ voc → x ∈ vocabulary) → (x ∉ voc → False) →
            utf8RoundTrip x ∈ voc) by exact Hin.
  split; [apply Hword; [intros; apply in_vocabulary; auto 10 |];
          intros Hno; apply Hvalid; auto 10|].
  split; [apply Hword; [intros; apply in_vocabulary; auto 10 |];
          intros Hno; apply Hvalid; auto 10|].
  split; [apply Hword; [intros; apply in_vocabulary; auto 10 |];
          intros Hno; apply Hvalid; auto 10|].
  split; [apply Hword; [intros; apply in_vocabulary; auto 10 |];
          intros Hno; apply Hvalid; auto 10|].
  split; [apply Hword; [intros; apply in_vocabulary; auto 10 |];
          intros Hno; apply Hvalid; auto 10|].
  split; [intros Hyear; apply Hvalid; auto 10|].
  split; [intros Hmonth; apply Hvalid; auto 10 | done].
Qed.

End ParserLayouts.

(** A month out of range passes. *)
Example month_out_of_range_is_accepted :
  ExamMetadata.exam_month
    <$> parseFilename Hangul.nfc
          (lit "고3_국어_국어__수능_2024_13_평가원_problem.pdf")
  = Some (JInt 13).
Proof. reflexivity. Qed.

Lemma omitted_and_empty_selection_agree_witness :
  let parts := map lit ["고3"; "국어"; "국어"; "수능"; "2024"; "11"; "평가원";
                        "problem"]%string in
  name_of_pieces parts = problem_pdf_short
  ∧ name_of_pieces (take 3 parts ++ [[]] ++ drop 3 parts) = problem_pdf
  ∧ parseFilename Hangul.nfc problem_pdf
    = with_filename problem_pdf <$> parseFilename Hangul.nfc problem_pdf_short.
Proof.
  intros parts. split; [reflexivity|]. split; [reflexivity|].
  apply (omitted_and_empty_selection_agree Hangul.nfc parts); [reflexivity|].
  simpl. repeat (constructor; [repeat (constructor; [discriminate|]); constructor|]).
  constructor.
Defined.

Lemma accepted_record_is_valid_witness :
  ∃ m, parseFilename Hangul.nfc problem_pdf = Some m
       ∧ ExamMetadata.grade_level m ∈ validGradeLevels
       ∧ ExamMetadata.doc_type m ∈ validDocTypes
       ∧ ExamMetadata.exam_year m ≠ JNaN.
Proof.
  destruct (parseFilename Hangul.nfc problem_pdf) as [m|] eqn:Hm;
    [|vm_compute in Hm; discriminate].
  exists m. split; [reflexivity|].
  destruct (accepted_record_is_valid Hangul.nfc problem_pdf m Hm)
    as (Hg & _ & _ & _ & Hd & Hy & _).
  by repeat split.
Defined.

(** ** Storage paths and titles *)

Section PathsAndTitles.

Lemma numberToString_units z :
  Forall (fun c => c = 45 ∨ 48 <= c <= 57) (numberToString (JInt z)).
Proof.
  assert (Hdigits : ∀ n, 0 <= n →
            Forall (fun c => c = 45 ∨ 48 <= c <= 57) (digitChars n)).
  { intros n Hn. unfold digitChars.
    destruct (decimalDigits_log2 n Hn) as (Hds & _ & _).
    apply Forall_map. eapply Forall_impl; [exact Hds|].
    intros d Hd. simpl in Hd. unfold compose. lia. }
  unfold numberToString. destruct (Z.ltb_spec z 0).
  - constructor; [by left|]. apply Hdigits. lia.
  - by apply Hdigits.
Qed.

Lemma numberToString_injective y1 y2 :
  numberToString (JInt y1) = numberToString (JInt y2) → y1 = y2.
Proof.
  intros Heq. apply (f_equal (fun s => parseInt s 0)) in Heq.
  rewrite !parseInt_numberToString in Heq. by injection Heq.
Qed.

Lemma generateStoragePath_join m :
  generateStoragePath m = join [slash] (path_pieces m).
Proof.
  unfold generateStoragePath, path_pieces.
  destruct (ExamMetadata.selection m) as [|c sel]; simpl;
    repeat rewrite <- app_assoc; reflexivity.
Qed.

Lemma path_pieces_slash_free m y mo :
  slash_free m →
  ExamMetadata.exam_year m = JInt y → ExamMetadata.exam_month m = JInt mo →
  Forall (Forall (fun c => c ≠ slash)) (path_pieces m).
Proof.
  unfold slash_free, path_pieces. intros Hfree -> ->.
  repeat (apply Forall_cons in Hfree as [? Hfree]).
  assert (Hnum : ∀ z, Forall (fun c => c ≠ slash) (numberToString (JInt z))).
  { intros z. eapply Forall_impl; [apply numberToString_units|].
    intros c Hc. simpl in Hc. unfold slash. lia. }
  assert (Hpdf : Forall (fun c => c ≠ slash) (ExamMetadata.doc_type m ++ dot_pdf)).
  { apply Forall_app. split; [done|].
    repeat (constructor; [discriminate|]). constructor. }
  assert (Hexams : Forall (fun c => c ≠ slash) (lit "exams")).
  { repeat (constructor; [discriminate|]). constructor. }
  destruct (ExamMetadata.selection m) as [|c sel]; cbn [app];
    repeat (constructor; [first [done | apply Hnum]|]); constructor.
Qed.

(** X3.  For records without path separators in their fields, two storage
    paths are equal exactly when grade level, category, subject, selection,
    year, month, source and document type agree: the exam type and the
    file name play no part, every other difference gives another key. *)
Theorem storage_path_collisions (m1 m2 : ExamMetadata.t) (y1 mo1 y2 mo2 : Z) :
  slash_free m1 → slash_free m2 →
  ExamMetadata.exam_year m1 = JInt y1 → ExamMetadata.exam_month m1 = JInt mo1 →
  ExamMetadata.exam_year m2 = JInt y2 → ExamMetadata.exam_month m2 = JInt mo2 →
  generateStoragePath m1 = generateStoragePath m2 ↔ same_path_fields m1 m2.
Proof.
  intros Hfree1 Hfree2 Hy1 Hmo1 Hy2 Hmo2. split.
  - intros Heq.
    assert (Hpieces : path_pieces m1 = path_pieces m2).
    { rewrite !generateStoragePath_join in Heq.
      apply (f_equal (split slash)) in Heq.
      rewrite !split_join in Heq; eauto using path_pieces_slash_free.
      all: unfold path_pieces; discriminate. }
    clear Heq Hfree1 Hfree2.
    destruct m1 as [g1 c1 s1 sel1 et1 ey1 em1 src1 dt1 f1],
             m2 as [g2 c2 s2 sel2 et2 ey2 em2 src2 dt2 f2].
    unfold same_path_fields. simpl in Hy1, Hmo1, Hy2, Hmo2 |- *. subst.
    unfold path_pieces in Hpieces.
    cbn -[numberToString lit dot_pdf] in Hpieces.
    assert (Hnum : ∀ a b, numberToString (JInt a) = numberToString (JInt b) →
                          JInt a = JInt b).
    { intros a b Hab. f_equal. by apply numberToString_injective. }
    destruct sel1 as [|x1 sel1], sel2 as [|x2 sel2];
      cbn -[numberToString lit dot_pdf] in Hpieces;
      injection Hpieces; intros; subst;
      repeat match goal with
        | H : _ ++ dot_pdf = _ ++ dot_pdf |- _ => apply app_inv_tail in H
        end;
      subst; try discriminate; repeat split; auto.
  - intros (Hg & Hc & Hs & Hsel & Hy & Hmo & Hsrc & Hdt).
    unfold generateStoragePath. by rewrite Hg, Hc, Hs, Hsel, Hy, Hmo, Hsrc, Hdt.
Qed.

Lemma vocabulary_no_space v :
  v ∈ validGradeLevels ∨ v ∈ validCategories →
  Forall (fun c => c ≠ DatabaseEncodingFixer.space) v.
Proof.
  intros Hv. assert (Hin : v ∈ validGradeLevels ++ validCategories)
    by (apply elem_of_app; tauto).
  clear Hv. revert v Hin. apply Forall_forall.
  unfold validGradeLevels, validCategories. simpl.
  repeat (constructor; [repeat (constructor; [done|]); constructor|]).
  constructor.
Qed.

(** X4.  The category that the encoding fix script reads back from a title
    is the category the upload script put into it, for every record with a
    valid grade level and category. *)
Theorem category_read_back_from_title (m : ExamMetadata.t) :
  ExamMetadata.grade_level m ∈ validGradeLevels →
  ExamMetadata.category m ∈ validCategories →
  DatabaseEncodingFixer.extractCategoryFromTitle (generateTitle m)
  = Some (ExamMetadata.category m).
Proof.
  intros Hg Hc.
  pose proof (vocabulary_no_space _ (or_introl Hg)) as Hg_sp.
  pose proof (vocabulary_no_space _ (or_intror Hc)) as Hc_sp.
  unfold generateTitle.
  set (rest := ExamMetadata.subject m ++ _).
  unfold DatabaseEncodingFixer.extractCategoryFromTitle.
  assert (Hsplit : split DatabaseEncodingFixer.space
            (ExamMetadata.grade_level m ++ [32]
             ++ ExamMetadata.category m ++ [32] ++ rest)
          = ExamMetadata.grade_level m :: ExamMetadata.category m
            :: split DatabaseEncodingFixer.space rest).
  { change ([32] ++ ?x) with (DatabaseEncodingFixer.space :: x).
    rewrite split_piece by done.
    change ([32] ++ ?x) with (DatabaseEncodingFixer.space :: x).
    by rewrite split_piece. }
  rewrite Hsplit.
  destruct (ExamMetadata.grade_level m ++ [32]
            ++ ExamMetadata.category m ++ [32] ++ rest) eqn:Htitle.
  { by destruct (ExamMetadata.grade_level m). }
  done.
Qed.

End PathsAndTitles.

Lemma storage_path_collisions_witness :
  ExamMetadata.exam_type regional_exam ≠ ExamMetadata.exam_type mock_exam
  ∧ generateStoragePath regional_exam = generateStoragePath mock_exam.
Proof.
  split; [discriminate|].
  apply (storage_path_collisions regional_exam mock_exam 2024 3 2024 3);
    try reflexivity.
  - unfold slash_free. simpl.
    repeat (constructor; [repeat (constructor; [discriminate|]); constructor|]).
    constructor.
  - unfold slash_free. simpl.
    repeat (constructor; [repeat (constructor; [discriminate|]); constructor|]).
    constructor.
  - repeat split.
Defined.

Lemma category_read_back_from_title_witness :
  generateTitle mock_exam = lit "고3 국어 국어 모의고사 2024년 3월 교육청"
  ∧ DatabaseEncodingFixer.extractCategoryFromTitle (generateTitle mock_exam)
    = Some (lit "국어").
Proof.
  split; [reflexivity|].
  apply (category_read_back_from_title mock_exam);
    apply includes_true; reflexivity.
Defined.

(** ** What one upload and a whole run leave in the stores *)

Section StoreEffects.

Variable normalize_NFC : jsstring -> jsstring.
Variable ext : Externals.

Lemma bucket_log l w : bucket (log l w) = bucket w.
Proof. done. Qed.

Lemma putObject_keeps_keys key filePath w k :
  k ∈ bucket_keys w → k ∈ bucket_keys (putObject key filePath w).
Proof.
  unfold bucket_keys, putObject. simpl.
  intros ([k' f] & -> & Hin)%list_elem_of_fmap. simpl.
  destruct (decide (k' = key)) as [->|Hne]; [by left|]. right.
  apply list_elem_of_fmap. exists (k', f). split; [done|].
  by apply list_elem_of_filter.
Qed.

Lemma upsert_keeps_ids data w i :
  i ∈ document_ids w → i ∈ document_ids (upsert data w).
Proof.
  unfold document_ids, upsert. simpl.
  intros (r & -> & Hin)%list_elem_of_fmap.
  change (map ?f ?l) with (f <$> l). rewrite fmap_app, elem_of_app.
  destruct (decide (SupabaseRecord.id r = SupabaseRecord.id data)) as [Heq|Hne].
  - right. rewrite Heq. by left.
  - left. apply list_elem_of_fmap. exists r. split; [done|].
    by apply list_elem_of_filter.
Qed.

(** X5.  One call of [processFile]: a failed call leaves the table as it
    was; a successful call appends exactly one row (replacing a row of the
    same id), whose storage path is the key under which this file now is
    in the bucket; and an object accepted by the bucket stays there even
    when the table then refuses the row. *)
Theorem row_only_after_object (filePath : jsstring) (w : World) :
  let '(ok, w') := processFile normalize_NFC ext filePath w in
  (ok = false → documents w' = documents w)
  ∧ (ok = true →
     ∃ metadata row,
       parseFilename normalize_NFC (path_basename filePath) = Some metadata
       ∧ SupabaseRecord.storage_path row = generateStoragePath metadata
       ∧ documents w'
         = filter (fun r => SupabaseRecord.id r ≠ SupabaseRecord.id row)
             (documents w) ++ [row]
       ∧ (SupabaseRecord.storage_path row, filePath) ∈ bucket w')
  ∧ (∀ metadata,
       parseFilename normalize_NFC (path_basename filePath) = Some metadata →
       s3_accepts ext w filePath (generateStoragePath metadata) = true →
       (generateStoragePath metadata, filePath) ∈ bucket w').
Proof.
  unfold processFile.
  destruct (parseFilename normalize_NFC (path_basename filePath))
    as [metadata|] eqn:Hparse; [|by repeat split].
  set (key := generateStoragePath metadata).
  unfold uploadToS3.
  destruct (s3_accepts ext w filePath key) eqn:Hs3; cbv beta iota; cycle 1.
  { cbn [negb]. cbv beta iota. repeat split; try done.
    intros m [= <-]. fold key. by rewrite Hs3. }
  cbn [negb]. cbv beta iota. unfold uploadToSupabase.
  set (w1 := log (UploadedToS3 key) (putObject key filePath w)).
  assert (Hobject : (key, filePath) ∈ bucket w1) by (simpl; by left).
  destruct (supabase_accepts ext w1 (supabaseRecord ext metadata key w1)) eqn:Hdb.
  - split; [done|]. split.
    + intros _. exists metadata, (supabaseRecord ext metadata key w1).
      split; [done|]. split; [reflexivity|]. split; [reflexivity|].
      exact Hobject.
    + intros m [= <-] _. exact Hobject.
  - split; [done|]. split; [done|]. intros m [= <-] _. exact Hobject.
Qed.

Lemma processFile_never_removes filePath w :
  let w' := (processFile normalize_NFC ext filePath w).2 in
  (∀ k, k ∈ bucket_keys w → k ∈ bucket_keys w')
  ∧ (∀ i, i ∈ document_ids w → i ∈ document_ids w')
  ∧ ∃ lines, console w' = console w ++ lines.
Proof.
  unfold processFile.
  destruct (parseFilename normalize_NFC (path_basename filePath))
    as [metadata|]; simpl; [|by eauto].
  unfold uploadToS3.
  destruct (s3_accepts ext w filePath (generateStoragePath metadata));
    simpl; [|by eauto].
  unfold uploadToSupabase.
  match goal with |- context [supabase_accepts ext ?w1 ?data] =>
    destruct (supabase_accepts ext w1 data) end; simpl.
  - split; [intros k Hk; by apply (putObject_keeps_keys _ _ w)|].
    split; [intros i Hi; by apply (upsert_keeps_ids _ (log _ (putObject _ _ w)))|].
    eexists. by rewrite <- app_assoc.
  - split; [intros k Hk; by apply (putObject_keeps_keys _ _ w)|].
    split; [done|]. eexists. by rewrite <- app_assoc.
Qed.

Lemma uploadLoop_never_removes pdfFiles : ∀ successCount w,
  let w' := (uploadLoop normalize_NFC ext pdfFiles successCount w).2 in
  (∀ k, k ∈ bucket_keys w → k ∈ bucket_keys w')
  ∧ (∀ i, i ∈ document_ids w → i ∈ document_ids w')
  ∧ ∃ lines, console w' = console w ++ lines.
Proof.
  induction pdfFiles as [|filePath rest IH]; intros successCount w; simpl.
  - repeat split; try done. exists []. by rewrite app_nil_r.
  - pose proof (processFile_never_removes filePath w) as (Hk & Hi & lines & Hc).
    destruct (processFile normalize_NFC ext filePath w) as [ok w1].
    simpl in Hk, Hi, Hc.
    destruct (IH (if ok then S successCount else successCount) w1)
      as (Hk' & Hi' & lines' & Hc').
    split; [auto|]. split; [auto|].
    exists (lines ++ lines'). by rewrite Hc', Hc, app_assoc.
Qed.

(** X6.  A run of [uploadAllFiles] never removes anything: every key of the
    bucket and every id of the table is still there afterwards, and the
    console only grows. *)
Theorem upload_never_removes (dataPath : jsstring)
    (listing : option (list jsstring)) (w : World) :
  let w' := uploadAllFiles normalize_NFC ext dataPath listing w in
  (∀ k, k ∈ bucket_keys w → k ∈ bucket_keys w')
  ∧ (∀ i, i ∈ document_ids w → i ∈ document_ids w')
  ∧ ∃ lines, console w' = console w ++ lines.
Proof.
  unfold uploadAllFiles. destruct listing as [files|]; [|by simpl; eauto].
  destruct (map (path_join dataPath)
              (List.filter (fun file => endsWith file dot_pdf) files))
    as [|p ps] eqn:Hmap; [by simpl; eauto|].
  set (w0 := log (FoundPdfFiles (length (p :: ps))) w).
  pose proof (uploadLoop_never_removes (p :: ps) 0%nat w0)
    as (Hk & Hi & lines & Hc).
  destruct (uploadLoop normalize_NFC ext (p :: ps) 0%nat w0) as [n w1].
  simpl in Hk, Hi, Hc |- *.
  split; [exact Hk|]. split; [exact Hi|].
  eexists. rewrite Hc. by rewrite <- !app_assoc.
Qed.

End StoreEffects.

Lemma row_only_after_object_witness :
  let filePath := path_join data_dir problem_pdf in
  let '(ok, w') := processFile Hangul.nfc refusing_table filePath empty_world in
  ok = false ∧ documents w' = []
  ∧ bucket w'
    = [(lit "exams/고3/국어/국어/2024/11/평가원/problem.pdf", filePath)].
Proof.
  intros filePath.
  pose proof (row_only_after_object Hangul.nfc refusing_table filePath
                empty_world) as H.
  destruct (processFile Hangul.nfc refusing_table filePath empty_world)
    as [ok w'] eqn:Hrun.
  destruct H as (Hfail & _ & _).
  vm_compute in Hrun. injection Hrun as <- <-.
  split; [reflexivity|]. split; [exact (Hfail eq_refl) | reflexivity].
Defined.

Lemma upload_never_removes_witness :
  let w' := uploadAllFiles Hangul.nfc accepting_stores data_dir
              (Some [problem_pdf; misnamed_pdf]) stocked_world in
  lit "exams/old.pdf" ∈ bucket_keys w' ∧ lit "old-id" ∈ document_ids w'
  ∧ length (documents w') = 2%nat.
Proof.
  intros w'.
  destruct (upload_never_removes Hangul.nfc accepting_stores data_dir
              (Some [problem_pdf; misnamed_pdf]) stocked_world)
    as (Hkeys & Hids & _).
  split; [apply Hkeys; by left|]. split; [apply Hids; by left | reflexivity].
Defined.

(** ** The catalog service: order, lookups and the query string *)

#[local] Instance newest_first_total : Total DocumentsService.newest_first.
Proof.
  intros a b. unfold DocumentsService.newest_first.
  destruct (total str_le (Document.created_at a) (Document.created_at b)); auto.
Qed.

#[local] Instance newest_first_trans : Transitive DocumentsService.newest_first.
Proof.
  intros a b c Hab Hbc. unfold DocumentsService.newest_first in *.
  by transitivity (Document.created_at b).
Qed.

Lemma StronglySorted_lookup_lt {A : Type} (R : relation A) l i j a b :
  StronglySorted R l → (i < j)%nat → l !! i = Some a → l !! j = Some b → R a b.
Proof.
  intros Hs. revert i j.
  induction Hs as [|x l Hl IH Hx]; intros i j Hij Hi Hj; [done|].
  destruct j as [|j]; [lia|]. simpl in Hj.
  destruct i as [|i]; simpl in Hi.
  - injection Hi as ->. apply (proj1 (Forall_forall _ _) Hx).
    by eapply list_elem_of_lookup_2.
  - apply (IH i j); [lia | done..].
Qed.

Lemma filter_at_most_one {A B : Type} `{EqDecision B} (f : A -> B) (v : B)
    (l : list A) :
  NoDup (map f l) →
  filter (fun x => f x = v) l = []
  ∨ ∃ x, filter (fun x => f x = v) l = [x].
Proof.
  induction l as [|x l IH]; intros Hnd; [by left|].
  simpl in Hnd. apply NoDup_cons in Hnd as [Hnotin Hnd].
  destruct (decide (f x = v)) as [Hx|Hx].
  - right. exists x. rewrite filter_cons_True by done. f_equal.
    destruct (filter (fun x => f x = v) l) as [|y ys] eqn:Hf; [done|].
    assert (Hy : y ∈ filter (fun x => f x = v) l) by (rewrite Hf; left).
    apply list_elem_of_filter in Hy as [Hfy Hy].
    destruct Hnotin. rewrite Hx, <- Hfy.
    change (map f l) with (f <$> l). apply list_elem_of_fmap. eauto.
  - rewrite filter_cons_False by done. by apply IH.
Qed.

Lemma trim_no_whitespace s :
  Forall (fun c => isStrWhiteSpaceChar c = false) s → trim s = s.
Proof.
  assert (Hstart : ∀ t, Forall (fun c => isStrWhiteSpaceChar c = false) t →
                        trimStart t = t).
  { intros t Ht. destruct Ht as [|c t Hc _]; [done|]. simpl. by rewrite Hc. }
  intros Hs. unfold trim, trimEnd. rewrite (Hstart s Hs).
  rewrite Hstart; [apply rev_involutive|]. by apply List.Forall_rev.
Qed.

Lemma digitChars_units n :
  0 <= n → digitChars n ≠ [] ∧ Forall (fun c => 48 <= c <= 57) (digitChars n).
Proof.
  intros Hn. unfold digitChars.
  destruct (decimalDigits_log2 n Hn) as (Hds & _ & Hne). split.
  - by destruct (decimalDigits (Z.to_nat (Z.log2 n)) n).
  - apply Forall_map. eapply Forall_impl; [exact Hds|].
    intros d Hd. unfold compose. simpl in Hd. lia.
Qed.

Lemma printed_integer_units z :
  numberToString (JInt z) ≠ []
  ∧ Forall (fun c => c = 45 ∨ 48 <= c <= 57) (numberToString (JInt z)).
Proof.
  unfold numberToString. destruct (Z.ltb_spec z 0).
  - destruct (digitChars_units (- z)) as [_ Hall]; [lia|]. split; [done|].
    constructor; [by left|]. eapply Forall_impl; [exact Hall|]. intros c Hc.
    simpl in Hc. by right.
  - destruct (digitChars_units z) as [Hne Hall]; [lia|]. split; [done|].
    eapply Forall_impl; [exact Hall|]. intros c Hc. simpl in Hc. by right.
Qed.

Lemma printed_integer_trimmed z :
  trim (numberToString (JInt z)) = numberToString (JInt z).
Proof.
  apply trim_no_whitespace.
  eapply Forall_impl; [apply printed_integer_units|].
  intros c [->|Hc]; [done|]. by destruct (digit_unit c Hc) as [-> _].
Qed.

(** [parseInt] with radix 10 on a plain run of decimal digits, signed or
    not. *)
Lemma parseInt10_digits (sign : bool) ds :
  ds ≠ [] → Forall (fun d => 0 <= d <= 9) ds →
  stripSign (trimStart (if sign then 45 :: map (fun d => 48 + d) ds
                        else map (fun d => 48 + d) ds))
  = ((if sign then -1 else 1), map (fun d => 48 + d) ds)
  ∧ parseInt (if sign then 45 :: map (fun d => 48 + d) ds
              else map (fun d => 48 + d) ds) 10
    = JInt ((if sign then -1 else 1) * digitsValue 10 ds).
Proof.
  intros Hne Hds.
  assert (Hsign : stripSign (trimStart (if sign then 45 :: map (fun d => 48 + d) ds
                        else map (fun d => 48 + d) ds))
                  = ((if sign then -1 else 1), map (fun d => 48 + d) ds)).
  { destruct sign; [done|].
    destruct ds as [|d0 ds]; [done|]. inversion_clear Hds as [|? ? Hd0 _].
    simpl. destruct (digit_unit (48 + d0)) as (-> & Hm & Hp & _); [lia|].
    unfold stripSign. by rewrite Hm, Hp. }
  split; [exact Hsign|]. unfold parseInt. rewrite Hsign.
  cbn [negb andb orb Z.eqb Z.ltb Z.compare Pos.compare Pos.compare_cont].
  by apply digits_parse_with_sign.
Qed.

Lemma parseInt10_numberToString z : parseInt (numberToString (JInt z)) 10 = JInt z.
Proof.
  unfold numberToString, digitChars. destruct (Z.ltb_spec z 0).
  - destruct (decimalDigits_log2 (- z)) as (Hds & Hval & Hne); [lia|].
    destruct (parseInt10_digits true _ Hne Hds) as [_ ->]. f_equal. lia.
  - destruct (decimalDigits_log2 z) as (Hds & Hval & Hne); [lia|].
    destruct (parseInt10_digits false _ Hne Hds) as [_ ->]. f_equal. lia.
Qed.

Lemma join_first_nonempty sep p ps : p ≠ [] → join sep (p :: ps) ≠ [].
Proof. intros Hp. destruct p; [done|]. by destruct ps. Qed.

Section ServiceListings.

Import DocumentsService.

Variable normalize_NFC : jsstring -> jsstring.
Hypothesis NFC_idempotent : ∀ s, normalize_NFC (normalize_NFC s) = normalize_NFC s.

Lemma ordered_newest_to_oldest rows : newest_to_oldest (order_created_at_desc rows).
Proof.
  intros i j a b Hij Ha Hb.
  apply (StronglySorted_lookup_lt newest_first (order_created_at_desc rows) i j);
    [|done..].
  apply StronglySorted_merge_sort; apply _.
Qed.

(** X7.  Every listing of the service (all documents, filtered, by
    category, by subject) runs from the newest document to the oldest: a
    document never comes before one created later.  The listing of all
    documents is a rearrangement of the table. *)
Theorem listings_run_newest_to_oldest filters value table :
  getAllDocuments table ≡ₚ table
  ∧ newest_to_oldest (getAllDocuments table)
  ∧ newest_to_oldest (getDocumentsWithFilters normalize_NFC filters table)
  ∧ newest_to_oldest (getDocumentsByCategory normalize_NFC value table)
  ∧ newest_to_oldest (getDocumentsBySubject normalize_NFC value table).
Proof.
  split; [apply order_created_at_desc_Permutation|].
  repeat split; apply ordered_newest_to_oldest.
Qed.

Lemma category_lookup_as_filter category table :
  getDocumentsByCategory normalize_NFC category table
  = getDocumentsWithFilters normalize_NFC (only_category category) table.
Proof.
  unfold getDocumentsByCategory, getDocumentsWithFilters, only_category.
  cbn [DocumentFilters.grade_levels DocumentFilters.categories
       DocumentFilters.exam_years DocumentFilters.exam_months whenNonEmpty map].
  f_equal. unfold eq_, in_. apply list_filter_iff. intros d.
  by rewrite list_elem_of_singleton.
Qed.

(** X8.  The two ways of asking for one category agree: the filtered
    endpoint called with only [categories] set to one comma-free, non-empty
    value returns what the category endpoint returns for the trimmed
    value. *)
Theorem category_endpoints_agree category table :
  category ≠ [] → Forall (fun c => c ≠ DocumentsController.comma) category →
  DocumentsController.data
    (DocumentsController.getDocumentsWithFilters normalize_NFC
       None (Some category) None None table)
  = getDocumentsByCategory normalize_NFC (trim category) table.
Proof.
  intros Hne Hcomma. rewrite category_lookup_as_filter.
  unfold DocumentsController.getDocumentsWithFilters.
  cbn [DocumentsController.data]. f_equal.
  unfold DocumentsController.parseQuery, only_category.
  destruct category as [|c r]; [done|].
  cbn [DocumentsController.whenTruthy]. by rewrite split_single.
Qed.

Lemma only_number_rows (column : Document.t -> Z) (v : Z) rows d :
  d ∈ in_ (fun d => JInt (column d)) [JInt v] rows ↔ d ∈ rows ∧ column d = v.
Proof.
  unfold in_. rewrite list_elem_of_filter, list_elem_of_singleton.
  split; [intros [[= ?] ?] | intros [? ->]]; done.
Qed.

Lemma nonempty_of_member {A : Type} (l : list A) x : x ∈ l → l ≠ [].
Proof. intros Hx ->. by apply elem_of_nil in Hx. Qed.

(** X9.  A year (a month) offered by the available filter values selects
    something: used alone as a filter it returns at least one document, and
    exactly the documents of the table with that year (that month). *)
Theorem available_number_selects_its_rows table :
  let values := getAvailableFilterValues normalize_NFC table in
  (∀ y, y ∈ exam_years values →
     getDocumentsWithFilters normalize_NFC (only_year y) table ≠ []
     ∧ ∀ d, d ∈ getDocumentsWithFilters normalize_NFC (only_year y) table
            ↔ d ∈ table ∧ Document.exam_year d = y)
  ∧ (∀ m, m ∈ exam_months values →
       getDocumentsWithFilters normalize_NFC (only_month m) table ≠ []
       ∧ ∀ d, d ∈ getDocumentsWithFilters normalize_NFC (only_month m) table
              ↔ d ∈ table ∧ Document.exam_month d = m).
Proof.
  intros values. unfold values, getAvailableFilterValues.
  cbn [exam_years exam_months].
  assert (Hyear : ∀ y d,
    d ∈ getDocumentsWithFilters normalize_NFC (only_year y) table
    ↔ d ∈ table ∧ Document.exam_year d = y).
  { intros y d. unfold getDocumentsWithFilters, only_year.
    cbn [DocumentFilters.grade_levels DocumentFilters.categories
         DocumentFilters.exam_years DocumentFilters.exam_months whenNonEmpty].
    rewrite order_created_at_desc_Permutation. apply only_number_rows. }
  assert (Hmonth : ∀ m d,
    d ∈ getDocumentsWithFilters normalize_NFC (only_month m) table
    ↔ d ∈ table ∧ Document.exam_month d = m).
  { intros m d. unfold getDocumentsWithFilters, only_month.
    cbn [DocumentFilters.grade_levels DocumentFilters.categories
         DocumentFilters.exam_years DocumentFilters.exam_months whenNonEmpty].
    rewrite order_created_at_desc_Permutation. apply only_number_rows. }
  split.
  - intros y Hy. split; [|apply Hyear].
    rewrite merge_sort_Permutation in Hy.
    apply (proj2 (newSet_spec _)), column_of_all_documents in Hy
      as (d & Hin & Hd).
    apply (nonempty_of_member _ d), Hyear. done.
  - intros m Hm. split; [|apply Hmonth].
    rewrite merge_sort_Permutation in Hm.
    apply (proj2 (newSet_spec _)), column_of_all_documents in Hm
      as (d & Hin & Hd).
    apply (nonempty_of_member _ d), Hmonth. done.
Qed.

Lemma normalizeKoreanText_twice text :
  normalizeKoreanText normalize_NFC (normalizeKoreanText normalize_NFC text)
  = normalizeKoreanText normalize_NFC text.
Proof.
  destruct text as [|c r]; [done|]. simpl.
  destruct (normalize_NFC (c :: r)) as [|c' r'] eqn:Hn; [done|].
  simpl. rewrite <- Hn. apply NFC_idempotent.
Qed.

(** X10.  A grade level offered by the available filter values, used alone
    as a filter, returns exactly the documents whose stored grade level is
    that very string; so it returns something whenever the stored grade
    levels are in canonical form, while a value that is only offered
    because a stored one normalizes to it returns no such row. *)
Theorem available_grade_selects_canonical_rows table g :
  g ∈ grade_levels (getAvailableFilterValues normalize_NFC table) →
  (∀ d, d ∈ getDocumentsWithFilters normalize_NFC (only_grade_level g) table
        ↔ d ∈ table ∧ Document.grade_level d = g)
  ∧ (grade_levels_canonical normalize_NFC table →
     getDocumentsWithFilters normalize_NFC (only_grade_level g) table ≠ []).
Proof.
  intros Hg. unfold getAvailableFilterValues in Hg. cbn [grade_levels] in Hg.
  rewrite merge_sort_Permutation in Hg.
  apply (proj2 (newSet_spec _)),
    (column_of_all_documents
       (fun doc => normalizeKoreanText normalize_NFC (Document.grade_level doc)))
    in Hg as (d0 & Hin & Hd0).
  symmetry in Hd0.
  assert (Hfixed : normalizeKoreanText normalize_NFC g = g).
  { rewrite <- Hd0. apply normalizeKoreanText_twice. }
  assert (Hrows : ∀ d,
    d ∈ getDocumentsWithFilters normalize_NFC (only_grade_level g) table
    ↔ d ∈ table ∧ Document.grade_level d = g).
  { intros d. unfold getDocumentsWithFilters, only_grade_level.
    cbn [DocumentFilters.grade_levels DocumentFilters.categories
         DocumentFilters.exam_years DocumentFilters.exam_months whenNonEmpty map].
    rewrite order_created_at_desc_Permutation. unfold in_.
    rewrite list_elem_of_filter, list_elem_of_singleton, Hfixed. tauto. }
  split; [exact Hrows|].
  intros Hcanonical. apply (nonempty_of_member _ d0), Hrows. split; [done|].
  rewrite <- Hd0. symmetry.
  exact (proj1 (Forall_forall _ _) Hcanonical d0 Hin).
Qed.

End ServiceListings.

Lemma category_endpoints_agree_witness :
  DocumentsController.data
    (DocumentsController.getDocumentsWithFilters Hangul.nfc
       None (Some (lit " 국어 ")) None None [D1; D2; D3])
  = DocumentsService.getDocumentsByCategory Hangul.nfc (lit "국어") [D1; D2; D3]
  ∧ DocumentsService.getDocumentsByCategory Hangul.nfc (lit " 국어 ") [D1; D2; D3]
    = [].
Proof.
  split; [|reflexivity].
  apply (category_endpoints_agree Hangul.nfc (lit " 국어 ") [D1; D2; D3]).
  - discriminate.
  - exact (bool_decide_unpack
             (Forall (fun c => c ≠ DocumentsController.comma) (lit " 국어 ")) I).
Defined.

Lemma available_number_selects_its_rows_witness :
  2023 ∈ DocumentsService.exam_years
           (DocumentsService.getAvailableFilterValues Hangul.nfc [D1; D2; D3])
  ∧ DocumentsService.getDocumentsWithFilters Hangul.nfc (only_year 2023)
      [D1; D2; D3] ≠ [].
Proof.
  assert (Hin : 2023 ∈ DocumentsService.exam_years
            (DocumentsService.getAvailableFilterValues Hangul.nfc [D1; D2; D3])).
  { exact (bool_decide_unpack (2023 ∈ [2024; 2023]) I). }
  split; [exact Hin|].
  exact (proj1 (proj1 (available_number_selects_its_rows Hangul.nfc [D1; D2; D3])
                  2023 Hin)).
Defined.

Lemma available_grade_selects_canonical_rows_witness :
  lit "고2" ∈ DocumentsService.grade_levels
                (DocumentsService.getAvailableFilterValues Hangul.nfc [D1; D2; D3])
  ∧ grade_levels_canonical Hangul.nfc [D1; D2; D3]
  ∧ DocumentsService.getDocumentsWithFilters Hangul.nfc
      (only_grade_level (lit "고2")) [D1; D2; D3] ≠ [].
Proof.
  assert (Hin : lit "고2" ∈ DocumentsService.grade_levels
            (DocumentsService.getAvailableFilterValues Hangul.nfc [D1; D2; D3])).
  { exact (bool_decide_unpack (lit "고2" ∈ [lit "고2"; lit "고3"]) I). }
  assert (Hcanonical : grade_levels_canonical Hangul.nfc [D1; D2; D3]).
  { repeat constructor. }
  split; [exact Hin|]. split; [exact Hcanonical|].
  exact (proj2 (available_grade_selects_canonical_rows Hangul.nfc
                  Hangul_nfc_idempotent [D1; D2; D3] (lit "고2") Hin) Hcanonical).
Defined.

(** The canonical form of a grade level stored with conjoining jamo is
    offered as a filter value, and selects nothing. *)
Example offered_grade_of_legacy_row :
  DocumentsService.grade_levels
    (DocumentsService.getAvailableFilterValues Hangul.nfc [legacy_row])
  = [lit "고3"]
  ∧ DocumentsService.getDocumentsWithFilters Hangul.nfc
      (only_grade_level (lit "고3")) [legacy_row] = [].
Proof. split; reflexivity. Qed.

Section QueryRoundTrips.

Import DocumentsController.

Variable normalize_NFC : jsstring -> jsstring.

Lemma vocabulary_trimmed_comma_free v :
  v ∈ vocabulary → trim v = v ∧ Forall (fun c => c ≠ comma) v.
Proof.
  intros Hv.
  assert (Hall : Forall (fun v => trim v = v ∧ Forall (fun c => c ≠ comma) v)
                   vocabulary).
  { exact (bool_decide_unpack
             (Forall (fun v => trim v = v ∧ Forall (fun c => c ≠ comma) v)
                vocabulary) I). }
  exact (proj1 (Forall_forall _ _) Hall v Hv).
Qed.

(** X11.  A selection of text values sent as one comma-joined parameter
    ([grade_levels] or [categories]) reaches the service as the list of the
    trimmed values, in order, provided no value holds a comma and the
    joined parameter is not empty; values of the closed vocabularies arrive
    unchanged. *)
Theorem text_selection_round_trip (values : list jsstring)
    (other1 other2 other3 : option jsstring) :
  joined values ≠ [] →
  Forall (Forall (fun c => c ≠ comma)) values →
  DocumentFilters.grade_levels
    (parseQuery (Some (joined values)) other1 other2 other3)
  = Some (map trim values)
  ∧ DocumentFilters.categories
      (parseQuery other1 (Some (joined values)) other2 other3)
    = Some (map trim values)
  ∧ (Forall (fun v => v ∈ vocabulary) values → map trim values = values).
Proof.
  intros Hne Hcomma.
  assert (Hvalues : values ≠ []) by (intros ->; done).
  assert (Hsplit : split comma (joined values) = values).
  { unfold joined. by apply split_join. }
  unfold parseQuery.
  cbn [DocumentFilters.grade_levels DocumentFilters.categories].
  destruct (joined values) as [|c r] eqn:Hjoined; [done|].
  cbn [whenTruthy]. rewrite Hsplit. split; [done|]. split; [done|].
  intros Hvoc. clear -Hvoc.
  induction Hvoc as [|v vs Hv _ IH]; [done|]. simpl.
  rewrite IH. f_equal. by apply vocabulary_trimmed_comma_free.
Qed.

Lemma printed_integer_comma_free z :
  Forall (fun c => c ≠ comma) (numberToString (JInt z)).
Proof.
  eapply Forall_impl; [apply printed_integer_units|].
  intros c Hc. unfold comma. simpl in Hc. lia.
Qed.

Lemma printed_integers_parse numbers :
  map (fun entry => parseInt (trim entry) 10)
      (map (fun z => numberToString (JInt z)) numbers)
  = map JInt numbers.
Proof.
  induction numbers as [|z numbers IH]; [done|].
  cbn [map]. rewrite IH. f_equal.
  rewrite printed_integer_trimmed. apply parseInt10_numberToString.
Qed.

(** X12.  A selection of integers sent as one comma-joined parameter
    ([exam_years] or [exam_months]), each printed in decimal, reaches the
    service as those integers, in order; the filtered endpoint called with
    such a list of years returns exactly the documents of the table whose
    year is in the list. *)
Theorem numeric_selection_round_trip (numbers : list Z)
    (other1 other2 other3 : option jsstring) (table : list Document.t) :
  numbers ≠ [] →
  Forall isSafeInteger numbers →
  DocumentFilters.exam_years
    (parseQuery other1 other2 (Some (joined_numbers numbers)) other3)
  = Some (map JInt numbers)
  ∧ DocumentFilters.exam_months
      (parseQuery other1 other2 other3 (Some (joined_numbers numbers)))
    = Some (map JInt numbers)
  ∧ ∀ d, d ∈ data (getDocumentsWithFilters normalize_NFC None None
                     (Some (joined_numbers numbers)) None table)
         ↔ d ∈ table ∧ Document.exam_year d ∈ numbers.
Proof.
  intros Hne _.
  assert (Hsplit : split comma (joined_numbers numbers)
                   = map (fun z => numberToString (JInt z)) numbers).
  { unfold joined_numbers, joined. apply split_join; [by destruct numbers|].
    apply Forall_map, Forall_forall. intros z _.
    apply printed_integer_comma_free. }
  assert (Hjoined : joined_numbers numbers ≠ []).
  { unfold joined_numbers, joined. destruct numbers as [|z numbers]; [done|].
    cbn [map]. apply join_first_nonempty, printed_integer_units. }
  assert (Hyears : ∀ o1 o2 o3, DocumentFilters.exam_years
            (parseQuery o1 o2 (Some (joined_numbers numbers)) o3)
          = Some (map JInt numbers)).
  { intros o1 o2 o3. unfold parseQuery. cbn [DocumentFilters.exam_years].
    destruct (joined_numbers numbers) as [|c r]; [done|].
    cbn [whenTruthy]. by rewrite Hsplit, printed_integers_parse. }
  split; [apply Hyears|]. split.
  - unfold parseQuery. cbn [DocumentFilters.exam_months].
    destruct (joined_numbers numbers) as [|c r]; [done|].
    cbn [whenTruthy]. by rewrite Hsplit, printed_integers_parse.
  - intros d. unfold getDocumentsWithFilters. cbn [data].
    unfold DocumentsService.getDocumentsWithFilters. rewrite Hyears.
    unfold parseQuery.
    cbn [DocumentFilters.grade_levels DocumentFilters.categories
         DocumentFilters.exam_months whenTruthy DocumentsService.whenNonEmpty].
    rewrite order_created_at_desc_Permutation.
    destruct numbers as [|z numbers]; [done|].
    cbn [map DocumentsService.whenNonEmpty]. unfold DocumentsService.in_.
    rewrite list_elem_of_filter.
    change (JInt z :: map JInt numbers) with (JInt <$> (z :: numbers)).
    rewrite list_elem_of_fmap. split.
    + intros [(y & [= ->] & Hy) Hd]. done.
    + intros [Hd Hy]. split; [eauto | done].
Qed.

End QueryRoundTrips.

Section LookupEndpoints.

Import DocumentsController.

(** X13.  With unique ids in the table, the lookup by id answers with
    success and a document exactly when that document is the row with the
    id, and with failure and no data exactly when no row has the id. *)
Theorem lookup_by_id (id : jsstring) (table : list Document.t) :
  NoDup (map Document.id table) →
  (∀ d, getDocumentById id table = (true, Some d)
        ↔ d ∈ table ∧ Document.id d = id)
  ∧ (getDocumentById id table = (false, None)
     ↔ id ∉ map Document.id table).
Proof.
  intros Hnd. unfold getDocumentById, DocumentsService.getDocumentById,
    DocumentsService.eq_.
  assert (Hmem : ∀ d, d ∈ filter (fun d => Document.id d = id) table
                      ↔ d ∈ table ∧ Document.id d = id).
  { intros d. rewrite list_elem_of_filter. tauto. }
  destruct (filter_at_most_one Document.id id table Hnd) as [Hf | [x Hf]];
    rewrite Hf in *; cbn [DocumentsService.single].
  - split.
    + intros d. split; [done|]. intros Hd. apply Hmem in Hd.
      by apply elem_of_nil in Hd.
    + split; [|done]. intros _ Hin.
      change (map Document.id table) with (Document.id <$> table) in Hin.
      apply list_elem_of_fmap in Hin as (d & Hid & Hd).
      assert (Hd' : d ∈ []) by (by apply Hmem).
      by apply elem_of_nil in Hd'.
  - split.
    + intros d. split.
      * intros [= <-]. apply Hmem. left.
      * intros Hd. apply Hmem, list_elem_of_singleton in Hd. by subst.
    + split; [done|]. intros Hnotin. destruct Hnotin.
      assert (Hx : x ∈ [x]) by left. apply Hmem in Hx as [Hx <-].
      change (map Document.id table) with (Document.id <$> table).
      apply list_elem_of_fmap. eauto.
Qed.

(** X14.  The list endpoints return distinct values: [categories/list]
    holds every exam type (not category) found in the table, each once, and
    [subjects/list] every subject, each once. *)
Theorem list_endpoints_hold_distinct_values (table : list Document.t) :
  (NoDup (snd (getAvailableCategories table))
   ∧ ∀ x, x ∈ snd (getAvailableCategories table)
          ↔ ∃ d, d ∈ table ∧ x = Document.exam_type d)
  ∧ (NoDup (snd (getAvailableSubjects table))
     ∧ ∀ x, x ∈ snd (getAvailableSubjects table)
            ↔ ∃ d, d ∈ table ∧ x = Document.subject d).
Proof.
  unfold getAvailableCategories, getAvailableSubjects. cbn [snd].
  split; (split; [apply newSet_spec|]); intros x;
    rewrite (proj2 (newSet_spec _)); apply column_of_all_documents.
Qed.

End LookupEndpoints.

Lemma text_selection_round_trip_witness :
  DocumentFilters.grade_levels
    (DocumentsController.parseQuery (Some (lit "고3,고2")) None None None)
  = Some [lit "고3"; lit "고2"].
Proof.
  destruct (text_selection_round_trip [lit "고3"; lit "고2"] None None None)
    as (Hgrades & _ & Hsame).
  - discriminate.
  - exact (bool_decide_unpack
             (Forall (Forall (fun c => c ≠ DocumentsController.comma))
                [lit "고3"; lit "고2"]) I).
  - rewrite <- Hsame; [exact Hgrades|].
    exact (bool_decide_unpack
             (Forall (fun v => v ∈ vocabulary) [lit "고3"; lit "고2"]) I).
Defined.

Lemma numeric_selection_round_trip_witness :
  joined_numbers [2024; 2023] = lit "2024,2023"
  ∧ DocumentFilters.exam_years
      (DocumentsController.parseQuery None None (Some (lit "2024,2023")) None)
    = Some [JInt 2024; JInt 2023].
Proof.
  split; [reflexivity|].
  refine (proj1 (numeric_selection_round_trip Hangul.nfc [2024; 2023]
                   None None None [] _ _)).
  - discriminate.
  - repeat constructor.
Defined.

Lemma lookup_by_id_witness :
  NoDup (map Document.id [D1; D2; D3])
  ∧ DocumentsController.getDocumentById (lit "D2") [D1; D2; D3] = (true, Some D2)
  ∧ DocumentsController.getDocumentById (lit "D2") [D1; D2; D2] = (false, None).
Proof.
  assert (Hnd : NoDup (map Document.id [D1; D2; D3])).
  { exact (bool_decide_unpack (NoDup (map Document.id [D1; D2; D3])) I). }
  split; [exact Hnd|]. split; [|reflexivity].
  apply (proj1 (lookup_by_id (lit "D2") [D1; D2; D3] Hnd)).
  split; [|reflexivity]. right. left.
Defined.

(** ** The normalization fix script *)

Section FixerRows.

Import KoreanNormalizationFixer.

Variable normalize_NFC : jsstring -> jsstring.
Variable update_accepts : list Document.t -> jsstring -> Updates -> bool.

Hypothesis NFC_idempotent : ∀ s, normalize_NFC (normalize_NFC s) = normalize_NFC s.

Lemma needs_false_fixed v :
  needsNormalization normalize_NFC v = false →
  normalizeKoreanText normalize_NFC v = v.
Proof.
  destruct v as [|c r]; [done|]. unfold needsNormalization. intros H.
  apply negb_false_iff, bool_decide_eq_true in H. by symmetry.
Qed.

Lemma needs_true_changed v :
  needsNormalization normalize_NFC v = true →
  normalizeKoreanText normalize_NFC v ≠ v.
Proof.
  destruct v as [|c r]; [done|]. unfold needsNormalization. intros H.
  apply negb_true_iff, bool_decide_eq_false in H. by intros Heq.
Qed.

Lemma checkField_default v :
  default v (checkField normalize_NFC (Some v))
  = normalizeKoreanText normalize_NFC v.
Proof.
  destruct v as [|c r]; [done|]. unfold checkField.
  destruct (needsNormalization normalize_NFC (c :: r)) eqn:H; [done|].
  symmetry. by apply needs_false_fixed.
Qed.

Lemma checkField_source ov :
  match checkField normalize_NFC ov with
  | Some v => Some v
  | None => ov
  end = normalizeKoreanText normalize_NFC <$> ov.
Proof.
  destruct ov as [[|c r]|]; [done| |done]. unfold checkField.
  destruct (needsNormalization normalize_NFC (c :: r)) eqn:H; [done|].
  simpl. f_equal. symmetry. by apply (needs_false_fixed (c :: r)).
Qed.

Lemma checkField_none ov :
  normalizeKoreanText normalize_NFC <$> ov = ov ↔
  checkField normalize_NFC ov = None.
Proof.
  destruct ov as [[|c r]|]; [done| |done]. unfold checkField.
  destruct (needsNormalization normalize_NFC (c :: r)) eqn:H.
  - apply needs_true_changed in H. split; [|done]. intros [= Heq]. done.
  - apply needs_false_fixed in H. split; [done|]. intros _.
    cbn [fmap option_fmap option_map]. by f_equal.
Qed.

Lemma applyUpdates_normalizes d :
  applyUpdates (updatesFor normalize_NFC d) d = normalized_row normalize_NFC d.
Proof.
  destruct d. unfold applyUpdates, updatesFor, normalized_row.
  cbn [title subject category exam_type selection grade_level source
       Document.id Document.title Document.subject Document.category
       Document.exam_year Document.exam_month Document.exam_type
       Document.selection Document.grade_level Document.filename
       Document.storage_path Document.created_at Document.source].
  by rewrite !checkField_default, checkField_source.
Qed.

Lemma hasChanges_spec d :
  hasChanges (updatesFor normalize_NFC d) = false
  ↔ normalized_row normalize_NFC d = d.
Proof.
  split.
  - intros H. rewrite <- applyUpdates_normalizes.
    unfold hasChanges in H. rewrite !orb_false_iff in H.
    destruct H as ((((((H1 & H2) & H3) & H4) & H5) & H6) & H7).
    destruct d. unfold applyUpdates.
    destruct (title _); [done|]. destruct (subject _); [done|].
    destruct (category _); [done|]. destruct (exam_type _); [done|].
    destruct (selection _); [done|]. destruct (grade_level _); [done|].
    destruct (source _); [done|]. done.
  - destruct d. unfold normalized_row. intros [= H1 H2 H3 H4 H5 H6 H7].
    unfold hasChanges, updatesFor.
    cbn [title subject category exam_type selection grade_level source
         Document.id Document.title Document.subject Document.category
         Document.exam_year Document.exam_month Document.exam_type
         Document.selection Document.grade_level Document.filename
         Document.storage_path Document.created_at Document.source] in *.
    rewrite !(proj1 (checkField_none (Some _))) by (cbn; by f_equal).
    by rewrite (proj1 (checkField_none _) H7).
Qed.

Lemma normalized_row_id d :
  Document.id (normalized_row normalize_NFC d) = Document.id d.
Proof. done. Qed.

Lemma update_other_rows u id rows :
  id ∉ map Document.id rows → update u id rows = rows.
Proof.
  induction rows as [|row rows IH]; [done|]. simpl. intros Hnotin.
  apply not_elem_of_cons in Hnotin as [Hne Hnotin].
  destruct (decide (Document.id row = id)); [done|]. f_equal. by apply IH.
Qed.

Lemma update_one_row u doc before after :
  Document.id doc ∉ map Document.id (before ++ after) →
  update u (Document.id doc) (before ++ doc :: after)
  = before ++ applyUpdates u doc :: after.
Proof.
  rewrite map_app. intros Hnotin.
  apply not_elem_of_app in Hnotin as [Hb Ha].
  unfold update. rewrite map_app. cbn [map].
  destruct (decide (Document.id doc = Document.id doc)); [|done].
  f_equal; [by apply update_other_rows|]. f_equal. by apply update_other_rows.
Qed.

Lemma fixLoop_counts documents : ∀ totalFixed documentsWithIssues table,
  (fixLoop normalize_NFC update_accepts documents totalFixed
     documentsWithIssues table).1.2
  = (documentsWithIssues
     + length (filter (fun d => normalized_row normalize_NFC d ≠ d) documents))%nat.
Proof.
  induction documents as [|doc rest IH]; intros f i table; simpl; [lia|].
  destruct (hasChanges (updatesFor normalize_NFC doc)) eqn:Hc.
  - rewrite filter_cons_True.
    2:{ intros Heq. apply hasChanges_spec in Heq. congruence. }
    destruct (updateDocument update_accepts (Document.id doc)
                (updatesFor normalize_NFC doc) table) as [success table1].
    rewrite IH. simpl. lia.
  - rewrite filter_cons_False.
    2:{ intros Hne. apply Hne. by apply hasChanges_spec. }
    apply IH.
Qed.

Lemma fixLoop_rows rest : ∀ before totalFixed documentsWithIssues,
  NoDup (map Document.id (before ++ rest)) →
  ∃ totalFixed' rest',
    (fixLoop normalize_NFC update_accepts rest totalFixed documentsWithIssues
       (before ++ rest)).1.1 = totalFixed'
    ∧ (fixLoop normalize_NFC update_accepts rest totalFixed
         documentsWithIssues (before ++ rest)).2 = before ++ rest'
    ∧ Forall2 (fun d d' => d' = d ∨ d' = normalized_row normalize_NFC d)
        rest rest'
    ∧ (totalFixed <= totalFixed')%nat
    ∧ (totalFixed' <= totalFixed
         + length (filter (fun d => normalized_row normalize_NFC d ≠ d) rest))%nat
    ∧ ((∀ t id u, update_accepts t id u = true) →
       rest' = map (normalized_row normalize_NFC) rest
       ∧ totalFixed' = (totalFixed
           + length (filter (fun d => normalized_row normalize_NFC d ≠ d) rest))%nat).
Proof.
  induction rest as [|doc rest IH]; intros before f i Hnd.
  { exists f, []. simpl. repeat split; try done; lia. }
  assert (Hnotin : Document.id doc ∉ map Document.id (before ++ rest)).
  { rewrite map_app in *. simpl in Hnd.
    apply NoDup_app in Hnd as (Hb & Hdisj & Hr).
    apply NoDup_cons in Hr as [Hnotin Hr].
    rewrite elem_of_app. intros [Hin|Hin]; [|done].
    apply (Hdisj _ Hin). left. }
  assert (Hnext : ∀ doc', Document.id doc' = Document.id doc →
            NoDup (map Document.id ((before ++ [doc']) ++ rest))).
  { intros doc' Hid. rewrite <- app_assoc. simpl.
    rewrite map_app in *. simpl in *. by rewrite Hid. }
  simpl fixLoop.
  destruct (hasChanges (updatesFor normalize_NFC doc)) eqn:Hc.
  - assert (Hchanged : normalized_row normalize_NFC doc ≠ doc).
    { intros Heq. apply hasChanges_spec in Heq. congruence. }
    rewrite filter_cons_True by done. unfold updateDocument.
    destruct (update_accepts (before ++ doc :: rest) (Document.id doc)
                (updatesFor normalize_NFC doc)) eqn:Hacc.
    + rewrite update_one_row, applyUpdates_normalizes by done.
      replace (before ++ normalized_row normalize_NFC doc :: rest)
        with ((before ++ [normalized_row normalize_NFC doc]) ++ rest)
        by (by rewrite <- app_assoc).
      destruct (IH (before ++ [normalized_row normalize_NFC doc]) (S f) (S i))
        as (f' & rest' & Hf & Ht & Hrows & Hle & Hge & Hall);
        [by apply Hnext|].
      exists f', (normalized_row normalize_NFC doc :: rest').
      rewrite Hf, Ht, <- app_assoc. simpl.
      repeat split; try done; try lia.
      * constructor; [by right | done].
      * f_equal. by apply Hall.
      * destruct (Hall H). lia.
    + replace (before ++ doc :: rest) with ((before ++ [doc]) ++ rest)
        by (by rewrite <- app_assoc).
      destruct (IH (before ++ [doc]) f (S i))
        as (f' & rest' & Hf & Ht & Hrows & Hle & Hge & Hall);
        [by apply Hnext|].
      exists f', (doc :: rest').
      rewrite Hf, Ht, <- app_assoc. simpl.
      repeat split; try done; try lia.
      * constructor; [by left | done].
      * rewrite H in Hacc. done.
      * rewrite H in Hacc. done.
  - assert (Hsame : normalized_row normalize_NFC doc = doc)
      by (by apply hasChanges_spec).
    rewrite filter_cons_False by (intros Hne; by apply Hne).
    replace (before ++ doc :: rest) with ((before ++ [doc]) ++ rest)
      by (by rewrite <- app_assoc).
    destruct (IH (before ++ [doc]) f i)
      as (f' & rest' & Hf & Ht & Hrows & Hle & Hge & Hall);
      [by apply Hnext|].
    exists f', (doc :: rest').
    rewrite Hf, Ht, <- app_assoc. simpl.
    repeat split; try done.
    * constructor; [by left | done].
    * rewrite Hsame. f_equal. by apply Hall.
    * by apply Hall.
Qed.

(** X15.  One run of the fix over a table with unique ids keeps every row
    in place and leaves it either as it was or with its seven text fields
    normalized, nothing else being touched; the summary counts the rows
    that differ from their normal form, and splits them into fixed and
    failed.  When the store accepts every update, every row ends up
    normalized and none is counted as failed. *)
Theorem fix_run_normalizes_rows (table : list Document.t) :
  NoDup (map Document.id table) →
  ∃ summary table',
    fixAllDocuments normalize_NFC update_accepts table = (summary, table')
    ∧ Forall2 (fun d d' => d' = d ∨ d' = normalized_row normalize_NFC d)
        table table'
    ∧ checked summary = length table
    ∧ withIssues summary
      = length (filter (fun d => normalized_row normalize_NFC d ≠ d) table)
    ∧ (fixed summary + failed summary)%nat = withIssues summary
    ∧ ((∀ t id u, update_accepts t id u = true) →
       table' = map (normalized_row normalize_NFC) table
       ∧ failed summary = 0%nat).
Proof.
  intros Hnd.
  destruct (fixLoop_rows table [] 0%nat 0%nat Hnd)
    as (f' & table' & Hf & Ht & Hrows & Hle & Hge & Hall).
  pose proof (fixLoop_counts table 0%nat 0%nat table) as Hcount.
  unfold fixAllDocuments. simpl in Hf, Ht, Hge, Hcount, Hall.
  destruct (fixLoop normalize_NFC update_accepts table 0 0 table)
    as [[totalFixed documentsWithIssues] table1].
  simpl in Hf, Ht, Hcount. subst.
  eexists _, _. split; [reflexivity|]. cbn [checked withIssues fixed failed].
  repeat split; try done; try lia.
  - by apply Hall.
  - destruct (Hall H). lia.
Qed.

Lemma normalizeKoreanText_fixer_twice text :
  normalizeKoreanText normalize_NFC (normalizeKoreanText normalize_NFC text)
  = normalizeKoreanText normalize_NFC text.
Proof.
  destruct text as [|c r]; [done|]. simpl.
  destruct (normalize_NFC (c :: r)) as [|c' r'] eqn:Hn; [done|].
  simpl. rewrite <- Hn. apply NFC_idempotent.
Qed.

Lemma normalized_row_twice d :
  normalized_row normalize_NFC (normalized_row normalize_NFC d)
  = normalized_row normalize_NFC d.
Proof.
  destruct d as [? ? ? ? ? ? ? ? ? ? ? ? src]. unfold normalized_row.
  cbn [Document.id Document.title Document.subject Document.category
       Document.exam_year Document.exam_month Document.exam_type
       Document.selection Document.grade_level Document.filename
       Document.storage_path Document.created_at Document.source].
  rewrite !normalizeKoreanText_fixer_twice. f_equal.
  destruct src; [|done]. simpl. by rewrite normalizeKoreanText_fixer_twice.
Qed.

Lemma fixLoop_canonical documents : ∀ totalFixed documentsWithIssues table,
  Forall (fun d => normalized_row normalize_NFC d = d) documents →
  fixLoop normalize_NFC update_accepts documents totalFixed
    documentsWithIssues table
  = (totalFixed, documentsWithIssues, table).
Proof.
  induction documents as [|doc rest IH]; intros f i table Hall; [done|].
  inversion_clear Hall as [|? ? Hdoc Hrest]. simpl.
  rewrite (proj2 (hasChanges_spec doc) Hdoc). by apply IH.
Qed.

End FixerRows.

Section FixerRuns.

Import KoreanNormalizationFixer.

Variable normalize_NFC : jsstring -> jsstring.
Variable update_accepts : list Document.t -> jsstring -> Updates -> bool.

Hypothesis NFC_idempotent : ∀ s, normalize_NFC (normalize_NFC s) = normalize_NFC s.

Lemma fix_run_on_canonical_table table :
  Forall (fun d => normalized_row normalize_NFC d = d) table →
  fixAllDocuments normalize_NFC update_accepts table
  = (mkSummary (length table) 0 0 0, table).
Proof.
  intros Hall. unfold fixAllDocuments.
  by rewrite (fixLoop_canonical normalize_NFC update_accepts table 0%nat 0%nat
                table Hall).
Qed.

(** X16.  The fix is a one-time repair: after a run in which the store
    accepted every update, a second run over the resulting table, whatever
    the store then answers, finds no document with an issue, fixes none
    and leaves the table as it is. *)
Theorem second_fix_run_changes_nothing (table : list Document.t) :
  NoDup (map Document.id table) →
  let table' := (fixAllDocuments normalize_NFC accepting_updates table).2 in
  fixAllDocuments normalize_NFC update_accepts table'
  = (mkSummary (length table) 0 0 0, table').
Proof.
  intros Hnd table'.
  destruct (fixLoop_rows normalize_NFC accepting_updates table [] 0%nat 0%nat Hnd)
    as (f' & rest' & _ & Ht & _ & _ & _ & Hall).
  destruct (Hall (fun _ _ _ => eq_refl)) as [-> _].
  assert (Htable' : table' = map (normalized_row normalize_NFC) table).
  { unfold table', fixAllDocuments. simpl in Ht.
    destruct (fixLoop normalize_NFC accepting_updates table 0 0 table)
      as [[totalFixed documentsWithIssues] table1]. exact Ht. }
  rewrite Htable', fix_run_on_canonical_table; [by rewrite length_map|].
  apply Forall_map, Forall_forall. intros d _.
  by apply normalized_row_twice.
Qed.

Lemma showLoop_spec documents : ∀ remaining examplesFound shown,
  (examplesFound + S remaining = 5)%nat →
  showLoop normalize_NFC documents examplesFound shown
  = ((examplesFound
      + length (take (S remaining)
                  (filter (fun d => normalized_row normalize_NFC d ≠ d)
                     documents)))%nat,
     shown ++ map Document.filename
                (take (S remaining)
                   (filter (fun d => normalized_row normalize_NFC d ≠ d)
                      documents))).
Proof.
  induction documents as [|doc rest IH]; intros k n shown Hk.
  { simpl. f_equal; [lia | by rewrite app_nil_r]. }
  cbn [showLoop].
  destruct (hasChanges (updatesFor normalize_NFC doc)) eqn:Hc.
  - rewrite filter_cons_True.
    2:{ intros Heq. apply (hasChanges_spec normalize_NFC) in Heq. congruence. }
    cbn [take length map].
    destruct (Nat.leb_spec 5 (S n)) as [Hfull|Hroom].
    + assert (k = 0%nat) as -> by lia. rewrite take_0.
      cbn [length map]. f_equal; lia.
    + destruct k as [|k]; [lia|].
      rewrite (IH k (S n) (shown ++ [Document.filename doc])) by lia.
      rewrite <- app_assoc. cbn [app]. f_equal; lia.
  - rewrite filter_cons_False.
    2:{ intros Hne. apply Hne. by apply (hasChanges_spec normalize_NFC). }
    by apply IH.
Qed.

(** X17.  The preview shows the file names of the first five documents
    that differ from their normal form, in table order, and no more; it
    reports that there is no issue exactly when no document differs, which
    is exactly when a fix run counts no document with issues. *)
Theorem preview_shows_first_five (table : list Document.t) :
  let pending := filter (fun d => normalized_row normalize_NFC d ≠ d) table in
  (showExamples normalize_NFC table).1
  = map Document.filename (take 5 pending)
  ∧ ((showExamples normalize_NFC table).2 = true ↔ pending = [])
  ∧ ((showExamples normalize_NFC table).2 = true
     ↔ withIssues (fixAllDocuments normalize_NFC update_accepts table).1
       = 0%nat).
Proof.
  intros pending. unfold showExamples.
  rewrite (showLoop_spec table 4%nat 0%nat []) by done. fold pending.
  cbn [fst snd app Nat.add].
  assert (Hnone : (length (take 5 pending) =? 0)%nat = true ↔ pending = []).
  { rewrite Nat.eqb_eq. destruct pending; [done|]. simpl. split; [lia|done]. }
  split; [done|]. split; [exact Hnone|].
  rewrite Hnone.
  pose proof (fixLoop_counts normalize_NFC update_accepts table 0%nat 0%nat table)
    as Hcount.
  unfold fixAllDocuments.
  destruct (fixLoop normalize_NFC update_accepts table 0 0 table)
    as [[totalFixed documentsWithIssues] table1].
  simpl in Hcount. cbn [fst withIssues]. rewrite Hcount. fold pending.
  destruct pending; simpl; [done|]. split; [done | lia].
Qed.

End FixerRuns.

(** A legacy table: one row stored with conjoining jamo, one canonical. *)
Lemma fix_run_normalizes_rows_witness :
  NoDup (map Document.id [legacy_row; D1])
  ∧ (KoreanNormalizationFixer.fixAllDocuments Hangul.nfc accepting_updates
       [legacy_row; D1]).2
    = [normalized_row Hangul.nfc legacy_row; D1]
  ∧ Document.grade_level (normalized_row Hangul.nfc legacy_row) = lit "고3"
  ∧ (KoreanNormalizationFixer.fixAllDocuments Hangul.nfc refusing_updates
       [legacy_row; D1])
    = (KoreanNormalizationFixer.mkSummary 2 1 0 1, [legacy_row; D1]).
Proof.
  assert (Hnd : NoDup (map Document.id [legacy_row; D1])).
  { exact (bool_decide_unpack (NoDup (map Document.id [legacy_row; D1])) I). }
  split; [exact Hnd|].
  destruct (fix_run_normalizes_rows Hangul.nfc accepting_updates
              [legacy_row; D1] Hnd)
    as (summary & table' & Hrun & _ & _ & _ & _ & Hall).
  destruct (Hall (fun _ _ _ => eq_refl)) as [Htable _].
  split; [by rewrite Hrun, Htable|]. split; reflexivity.
Defined.

Lemma second_fix_run_changes_nothing_witness :
  NoDup (map Document.id [legacy_row; D1])
  ∧ KoreanNormalizationFixer.fixAllDocuments Hangul.nfc refusing_updates
      [normalized_row Hangul.nfc legacy_row; D1]
    = (KoreanNormalizationFixer.mkSummary 2 0 0 0,
       [normalized_row Hangul.nfc legacy_row; D1]).
Proof.
  assert (Hnd : NoDup (map Document.id [legacy_row; D1])).
  { exact (bool_decide_unpack (NoDup (map Document.id [legacy_row; D1])) I). }
  split; [exact Hnd|].
  exact (second_fix_run_changes_nothing Hangul.nfc refusing_updates
           Hangul_nfc_idempotent [legacy_row; D1] Hnd).
Defined.

(** ** The rename script and the parser *)

Lemma lookup_key_Some {V : Type} (table : list (jsstring * V)) key v :
  RenameExams.lookup_key table key = Some v → (key, v) ∈ table.
Proof.
  induction table as [|[k v'] table IH]; [done|]. simpl.
  destruct (decide (k = key)) as [->|Hne].
  - rewrite bool_decide_eq_true_2 by done. intros [= ->]. left.
  - rewrite bool_decide_eq_false_2 by done. intros H. right. by apply IH.
Qed.

Lemma Forall_member {A : Type} (P : A → Prop) (l : list A) (x : A) :
  Forall P l → x ∈ l → P x.
Proof. intros Hall. by apply Forall_forall. Qed.

Ltac decide_by_computation :=
  match goal with
  | |- ?P => apply (bool_decide_unpack P); vm_compute; exact I
  end.

Lemma rename_tables_checked :
  Forall (fun s => Forall (fun d => rename_checked s d)
                     RenameExams.DOC_TYPE_MAPPINGS)
    RenameExams.SUBJECT_MAPPINGS.
Proof. decide_by_computation. Qed.

Lemma rename_tables_collisions :
  Forall (fun s1 => Forall (fun s2 =>
    Forall (fun d1 => Forall (fun d2 => rename_collides s1 s2 d1 d2)
                        RenameExams.DOC_TYPE_MAPPINGS)
      RenameExams.DOC_TYPE_MAPPINGS)
    RenameExams.SUBJECT_MAPPINGS)
    RenameExams.SUBJECT_MAPPINGS.
Proof. decide_by_computation. Qed.

Lemma Hangul_nfc_rename_strings v : v ∈ rename_strings → Hangul.nfc v = v.
Proof.
  revert v. apply Forall_forall. decide_by_computation.
Qed.

Section RenamedFiles.

Import RenameExams.

Variable normalize_NFC : jsstring -> jsstring.
Hypothesis NFC_rename_strings : ∀ v, v ∈ rename_strings → normalize_NFC v = v.

Lemma parseFilename_ext (nfc1 nfc2 : jsstring -> jsstring) file :
  Forall (fun p => nfc1 p = nfc2 p) (normalized_pieces file) →
  parseFilename nfc1 file = parseFilename nfc2 file.
Proof.
  unfold normalized_pieces, parseFilename, parts_of.
  destruct (negb (endsWith file dot_pdf)); [done|]. cbv zeta.
  destruct ((length (split underscore (slice_to_end_minus file 4)) <? 8)%nat
            || (9 <? length (split underscore (slice_to_end_minus file 4)))%nat);
    [done|].
  destruct (layout (split underscore (slice_to_end_minus file 4)))
    as [[[[[sel et] y] m] src] dt].
  intros H.
  apply Forall_cons in H as [H0 H]. apply Forall_cons in H as [H1 H].
  apply Forall_cons in H as [H2 H]. apply Forall_cons in H as [H3 H].
  apply Forall_cons in H as [H4 H]. apply Forall_cons in H as [H5 H].
  apply Forall_cons in H as [H6 _].
  unfold validateComponents. by rewrite H0, H1, H2, H3, H4, H5, H6.
Qed.

(** X18.  Every name the rename script builds from an entry of its subject
    table and an entry of its document-type table is one the uploader
    accepts, and it is read back as that entry: grade 고3, the mapped
    category and subject, no selection, 수능, 2024, 11, 평가원 and the
    mapped document type. *)
Theorem renamed_file_is_uploadable (sk dk : jsstring) (info : SubjectInfo)
    (docType : jsstring) :
  lookup_key SUBJECT_MAPPINGS sk = Some info →
  lookup_key DOC_TYPE_MAPPINGS dk = Some docType →
  generateNewFilename (Some sk) (Some dk) = Some (renamed_name info docType)
  ∧ parseFilename normalize_NFC (renamed_name info docType)
    = Some (renamed_record info docType (renamed_name info docType)).
Proof.
  intros Hs Hd. apply lookup_key_Some in Hs, Hd.
  pose proof (Forall_member _ _ _ rename_tables_checked Hs) as Hrow.
  cbv beta in Hrow.
  pose proof (Forall_member _ _ _ Hrow Hd) as (Hname & Hparse & Hpieces).
  cbn [fst snd] in Hname, Hparse, Hpieces.
  split; [exact Hname|]. rewrite <- Hparse.
  apply parseFilename_ext. eapply Forall_impl; [exact Hpieces|].
  intros p Hp. by apply NFC_rename_strings.
Qed.

(** X19.  Two files get the same new name exactly when they have the same
    subject key and their document-type keys map to the same type; so the
    answer sheets named 정답 and 답지 of one subject are renamed to one
    and the same file. *)
Theorem renamed_names_collide (sk1 dk1 sk2 dk2 : jsstring)
    (info1 info2 : SubjectInfo) (docType1 docType2 : jsstring) :
  lookup_key SUBJECT_MAPPINGS sk1 = Some info1 →
  lookup_key DOC_TYPE_MAPPINGS dk1 = Some docType1 →
  lookup_key SUBJECT_MAPPINGS sk2 = Some info2 →
  lookup_key DOC_TYPE_MAPPINGS dk2 = Some docType2 →
  generateNewFilename (Some sk1) (Some dk1)
  = generateNewFilename (Some sk2) (Some dk2)
  ↔ sk1 = sk2 ∧ docType1 = docType2.
Proof.
  intros Hs1 Hd1 Hs2 Hd2. apply lookup_key_Some in Hs1, Hd1, Hs2, Hd2.
  pose proof (Forall_member _ _ _ rename_tables_checked Hs1) as Hrow1.
  cbv beta in Hrow1.
  pose proof (Forall_member _ _ _ Hrow1 Hd1) as (Hname1 & _ & _).
  pose proof (Forall_member _ _ _ rename_tables_checked Hs2) as Hrow2.
  cbv beta in Hrow2.
  pose proof (Forall_member _ _ _ Hrow2 Hd2) as (Hname2 & _ & _).
  cbn [fst snd] in Hname1, Hname2. rewrite Hname1, Hname2.
  pose proof (Forall_member _ _ _ rename_tables_collisions Hs1) as H1.
  cbv beta in H1.
  pose proof (Forall_member _ _ _ H1 Hs2) as H2. cbv beta in H2.
  pose proof (Forall_member _ _ _ H2 Hd1) as H3. cbv beta in H3.
  pose proof (Forall_member _ _ _ H3 Hd2) as H4.
  unfold rename_collides in H4. cbn [fst snd] in H4.
  split.
  - intros Heq. apply (inj Some) in Heq.
    apply (bool_decide_eq_true_1 (sk1 = sk2 ∧ docType1 = docType2)).
    rewrite <- H4. by apply bool_decide_eq_true_2.
  - intros Hkeys. f_equal.
    apply (bool_decide_eq_true_1
             (renamed_name info1 docType1 = renamed_name info2 docType2)).
    rewrite H4. by apply bool_decide_eq_true_2.
Qed.

End RenamedFiles.

Lemma renamed_file_is_uploadable_witness :
  RenameExams.generateNewFilename (Some (lit "물리학1")) (Some (lit "정답"))
  = Some (lit "고3_과학탐구_물리학 I__수능_2024_11_평가원_answer.pdf")
  ∧ parses Hangul.nfc (lit "고3_과학탐구_물리학 I__수능_2024_11_평가원_answer.pdf")
    = true.
Proof.
  destruct (renamed_file_is_uploadable Hangul.nfc Hangul_nfc_rename_strings
              (lit "물리학1") (lit "정답")
              (RenameExams.info "과학탐구" "물리학 I") (lit "answer")
              eq_refl eq_refl) as [Hname Hparse].
  split; [exact Hname|]. unfold parses.
  change (lit "고3_과학탐구_물리학 I__수능_2024_11_평가원_answer.pdf")
    with (renamed_name (RenameExams.info "과학탐구" "물리학 I") (lit "answer")).
  by rewrite Hparse.
Defined.

Lemma renamed_names_collide_witness :
  RenameExams.generateNewFilename (Some (lit "국어")) (Some (lit "정답"))
  = RenameExams.generateNewFilename (Some (lit "국어")) (Some (lit "답지")).
Proof.
  apply (renamed_names_collide (lit "국어") (lit "정답") (lit "국어") (lit "답지")
           (RenameExams.info "국어" "국어") (RenameExams.info "국어" "국어")
           (lit "answer") (lit "answer")); done.
Defined.

(** ** The cleanup script *)

Section CleanupEffects.

Import ExamFileCleanup.

Variable ext : ExamFileCleanup.Externals.

Lemma batchSize_pos : (1 <= batchSize)%nat.
Proof. unfold batchSize. lia. Qed.

Lemma forallb_filter_all {A : Type} (f : A -> bool) (l : list A) :
  forallb f l = true → List.filter f l = l.
Proof.
  induction l as [|x l IH]; [done|]. simpl.
  intros [Hx Hl]%andb_true_iff. rewrite Hx. f_equal. by apply IH.
Qed.

Lemma deleteBatch_spec batch w :
  let '(ok, w1) := deleteBatch ext batch w in
  documents w1 = documents w
  ∧ console w1 = console w
  ∧ (∀ kv, kv ∈ bucket w1 → kv ∈ bucket w)
  ∧ (∀ kv, kv ∈ bucket w → kv.1 ∉ batch → kv ∈ bucket w1)
  ∧ (ok = true → ∀ kv, kv ∈ bucket w1 → kv.1 ∉ batch)
  ∧ ((∀ key, delete_object_succeeds ext w key = true) → ok = true).
Proof.
  unfold deleteBatch. cbn [documents console bucket].
  split; [done|]. split; [done|]. split; [|split; [|split]].
  - intros kv Hkv. by apply list_elem_of_filter in Hkv as [_ ?].
  - intros kv Hkv Hnot. apply list_elem_of_filter. split; [|done].
    intros Hin. apply Hnot. apply list_elem_of_In in Hin.
    apply list_elem_of_In. by apply List.filter_In in Hin as [? _].
  - intros Hok kv Hkv. apply list_elem_of_filter in Hkv as [Hnot _].
    by rewrite (forallb_filter_all _ _ Hok) in Hnot.
  - intros Hall. apply forallb_forall. intros key _. apply Hall.
Qed.

Lemma deleteLoop_spec rounds : ∀ objects i deletedCount w,
  (length objects - i <= rounds)%nat →
  let '(result, w') := deleteLoop ext rounds objects i deletedCount w in
  documents w' = documents w
  ∧ console w' = console w
  ∧ (∀ kv, kv ∈ bucket w' → kv ∈ bucket w)
  ∧ (∀ kv, kv ∈ bucket w → kv.1 ∉ drop i objects → kv ∈ bucket w')
  ∧ (∀ n, result = Some n →
       n = (deletedCount + length (drop i objects))%nat
       ∧ ∀ kv, kv ∈ bucket w' → kv.1 ∉ drop i objects)
  ∧ ((∀ w key, delete_object_succeeds ext w key = true) → result ≠ None).
Proof.
  assert (Hdone : ∀ objects i deletedCount w, (length objects <= i)%nat →
    documents w = documents w
    ∧ console w = console w
    ∧ (∀ kv, kv ∈ bucket w → kv ∈ bucket w)
    ∧ (∀ kv, kv ∈ bucket w → kv.1 ∉ drop i objects → kv ∈ bucket w)
    ∧ (∀ n, Some deletedCount = Some n →
         n = (deletedCount + length (drop i objects))%nat
         ∧ ∀ kv, kv ∈ bucket w → kv.1 ∉ drop i objects)
    ∧ ((∀ w key, delete_object_succeeds ext w key = true) →
       Some deletedCount ≠ None)).
  { intros objects i cnt w Hi. rewrite drop_ge by done.
    split; [done|]. split; [done|]. split; [done|]. split; [done|].
    split; [|done]. intros n [= <-]. split; [simpl; lia|].
    intros kv _ Hin. by apply elem_of_nil in Hin. }
  induction rounds as [|rounds IH]; intros objects i cnt w Hfuel.
  { apply Hdone. lia. }
  cbn [deleteLoop]. destruct (Nat.ltb_spec i (length objects)) as [Hlt|Hge];
    [|by apply Hdone].
  set (batch := take batchSize (drop i objects)).
  assert (Hsplit : drop i objects = batch ++ drop (i + batchSize) objects).
  { unfold batch. by rewrite <- drop_drop, take_drop. }
  pose proof (deleteBatch_spec batch w) as Hbatch.
  destruct (deleteBatch ext batch w) as [ok w1].
  destruct Hbatch as (Hd & Hc & Hsub & Hkeep & Hgone & Hall).
  destruct ok.
  - pose proof batchSize_pos as Hpos.
    specialize (IH objects (i + batchSize)%nat (cnt + length batch)%nat w1).
    destruct (deleteLoop ext rounds objects (i + batchSize)
                (cnt + length batch) w1) as [result w'].
    destruct IH as (Hd' & Hc' & Hsub' & Hkeep' & Hres' & Hall'); [lia|].
    split; [congruence|]. split; [congruence|]. split; [auto|].
    split; [|split].
    + intros kv Hkv Hnot. rewrite Hsplit in Hnot.
      apply not_elem_of_app in Hnot as [Hb Hr]. auto.
    + intros n Hn. destruct (Hres' n Hn) as [-> Hrest]. split.
      * rewrite Hsplit, length_app. lia.
      * intros kv Hkv. rewrite Hsplit. apply not_elem_of_app. split; auto.
    + exact Hall'.
  - split; [done|]. split; [done|]. split; [done|]. split; [|split].
    + intros kv Hkv Hnot. apply Hkeep; [done|]. rewrite Hsplit in Hnot.
      by apply not_elem_of_app in Hnot as [? _].
    + done.
    + intros Hyes. specialize (Hall (Hyes w)). done.
Qed.

Lemma listed_exam_keys w key :
  key ∈ listS3Objects ext exams_prefix w → exam_key key = true.
Proof.
  unfold listS3Objects. destruct (list_succeeds ext w).
  - by intros [? _]%list_elem_of_filter.
  - by intros ?%elem_of_nil.
Qed.

Lemma deleteFromS3_spec w :
  let '(n, w') := deleteFromS3 ext w in
  documents w' = documents w
  ∧ console w' = console w
  ∧ (∀ kv, kv ∈ bucket w' → kv ∈ bucket w)
  ∧ (∀ kv, kv ∈ bucket w → exam_key kv.1 = false → kv ∈ bucket w')
  ∧ (n = 0%nat ∨ n = length (filter (fun k => exam_key k = true) (bucket_keys w)))
  ∧ (cleanup_succeeds ext →
     n = length (filter (fun k => exam_key k = true) (bucket_keys w))
     ∧ ∀ kv, kv ∈ bucket w' ↔ kv ∈ bucket w ∧ exam_key kv.1 = false).
Proof.
  unfold deleteFromS3.
  destruct (listS3Objects ext exams_prefix w) as [|o objects] eqn:Hlist.
  { repeat split; try done; try (by left).
    - destruct H as (_ & _ & Hl & _). unfold listS3Objects in Hlist.
      rewrite Hl in Hlist. unfold bucket_keys, exam_key. by rewrite Hlist.
    - destruct (exam_key kv.1) eqn:Hk; [|done].
      destruct H as (_ & _ & Hl & _). unfold listS3Objects in Hlist.
      rewrite Hl in Hlist.
      assert (Hin : kv.1 ∈ filter (fun key => startsWith key exams_prefix = true)
                      (map fst (bucket w))).
      { apply list_elem_of_filter. split; [done|].
        change (map fst (bucket w)) with (fst <$> bucket w).
        apply list_elem_of_fmap. eauto. }
      rewrite Hlist in Hin. by apply elem_of_nil in Hin.
    - tauto. }
  rewrite <- Hlist.
  pose proof (deleteLoop_spec (length (listS3Objects ext exams_prefix w))
                (listS3Objects ext exams_prefix w) 0%nat 0%nat w) as Hloop.
  destruct (deleteLoop ext (length (listS3Objects ext exams_prefix w))
              (listS3Objects ext exams_prefix w) 0 0 w) as [result w'].
  destruct Hloop as (Hd & Hc & Hsub & Hkeep & Hres & Hall); [lia|].
  rewrite drop_0 in Hkeep, Hres.
  assert (Hkept : ∀ kv, kv ∈ bucket w → exam_key kv.1 = false → kv ∈ bucket w').
  { intros kv Hkv Hk. apply Hkeep; [done|]. intros Hin.
    apply listed_exam_keys in Hin. congruence. }
  assert (Hlisted : list_succeeds ext w = true →
            listS3Objects ext exams_prefix w
            = filter (fun k => exam_key k = true) (bucket_keys w)).
  { intros Hl. unfold listS3Objects. by rewrite Hl. }
  assert (Hyes : list_succeeds ext w = true).
  { unfold listS3Objects in Hlist. by destruct (list_succeeds ext w). }
  destruct result as [n|].
  - destruct (Hres n eq_refl) as [-> Hgone]. simpl.
    split; [done|]. split; [done|]. split; [done|]. split; [done|].
    split; [right; by rewrite Hlisted|].
    intros _. split; [by rewrite Hlisted|].
    intros kv. split.
    + intros Hkv. split; [auto|].
      destruct (exam_key kv.1) eqn:Hk; [|done].
      destruct (Hgone kv Hkv). rewrite Hlisted by done.
      apply list_elem_of_filter. split; [done|].
      unfold bucket_keys. change (map fst (bucket w)) with (fst <$> bucket w).
      apply list_elem_of_fmap. exists kv. split; [done | auto].
    + intros [Hkv Hk]. auto.
  - split; [done|]. split; [done|]. split; [done|]. split; [done|].
    split; [by left|].
    intros (_ & _ & _ & Hdel). by destruct (Hall Hdel).
Qed.

(** X20.  Whatever fails, the cleanup removes nothing but exam objects and
    rows: an object whose key is not under [exams/] and a row stored under
    the nil UUID are still there afterwards; nothing is added; and each of
    the two numbers it reports is either 0 or the number of rows, and of
    exam objects, found at the start. *)
Theorem cleanup_spares_other_data (w : World) :
  let '(supabaseDeleted, s3Deleted, w') := cleanup ext w in
  (∀ kv, kv ∈ bucket w → exam_key kv.1 = false → kv ∈ bucket w')
  ∧ (∀ r, r ∈ documents w → SupabaseRecord.id r = nil_uuid → r ∈ documents w')
  ∧ (∀ kv, kv ∈ bucket w' → kv ∈ bucket w)
  ∧ (∀ r, r ∈ documents w' → r ∈ documents w)
  ∧ (supabaseDeleted = 0%nat ∨ supabaseDeleted = length (documents w))
  ∧ (s3Deleted = 0%nat
     ∨ s3Deleted = length (filter (fun k => exam_key k = true) (bucket_keys w))).
Proof.
  unfold cleanup.
  assert (Hrows : let '(n, w1) := deleteFromSupabase ext w in
    bucket w1 = bucket w
    ∧ (∀ r, r ∈ documents w → SupabaseRecord.id r = nil_uuid → r ∈ documents w1)
    ∧ (∀ r, r ∈ documents w1 → r ∈ documents w)
    ∧ (n = 0%nat ∨ n = length (documents w))).
  { unfold deleteFromSupabase.
    destruct (count_succeeds ext w); cbn [negb]; [|by auto].
    destruct (delete_rows_succeeds ext w); cbn [negb]; [|by auto].
    cbn [bucket documents]. split; [done|]. split; [|split; [|by right]].
    - intros r Hr Hid. by apply list_elem_of_filter.
    - intros r Hr. by apply list_elem_of_filter in Hr as [_ ?]. }
  destruct (deleteFromSupabase ext w) as [supabaseDeleted w1].
  destruct Hrows as (Hbucket & Hnil & Hsubrows & Hcount).
  pose proof (deleteFromS3_spec w1) as Hobjects.
  destruct (deleteFromS3 ext w1) as [s3Deleted w2].
  destruct Hobjects as (Hd & _ & Hsub & Hkeep & Hn & _).
  unfold bucket_keys in *. rewrite Hbucket in *. rewrite Hd.
  repeat split; auto.
Qed.

(** X21.  When every call succeeds, the cleanup reports the number of rows
    and the number of exam objects found, leaves in the bucket exactly the
    objects whose key is not under [exams/], and leaves in the table
    exactly the rows stored under the nil UUID, which it has nevertheless
    counted as deleted. *)
Theorem cleanup_when_all_succeeds (w : World) :
  cleanup_succeeds ext →
  let '(supabaseDeleted, s3Deleted, w') := cleanup ext w in
  supabaseDeleted = length (documents w)
  ∧ s3Deleted = length (filter (fun k => exam_key k = true) (bucket_keys w))
  ∧ (∀ kv, kv ∈ bucket w' ↔ kv ∈ bucket w ∧ exam_key kv.1 = false)
  ∧ documents w'
    = filter (fun r => SupabaseRecord.id r = nil_uuid) (documents w).
Proof.
  intros Hyes. unfold cleanup, deleteFromSupabase.
  destruct Hyes as (Hcount & Hrows & Hlist & Hdel).
  rewrite Hcount, Hrows. cbn [negb].
  set (w1 := mkWorld (bucket w)
               (filter (fun r => SupabaseRecord.id r = nil_uuid) (documents w))
               (console w)).
  pose proof (deleteFromS3_spec w1) as Hobjects.
  destruct (deleteFromS3 ext w1) as [s3Deleted w2].
  destruct Hobjects as (Hd & _ & _ & _ & _ & Hall).
  destruct Hall as [Hn Hbucket]; [by repeat split|].
  split; [done|]. split; [exact Hn|]. split; [exact Hbucket|]. exact Hd.
Qed.

End CleanupEffects.

Lemma cleanup_when_all_succeeds_witness :
  cleanup_succeeds reliable_cleanup
  ∧ ExamFileCleanup.cleanup reliable_cleanup mixed_world
    = (2%nat, 2%nat,
       mkWorld [(lit "document_submissions/s1.pdf", lit "/srv/s1.pdf")]
         (filter (fun r => SupabaseRecord.id r = ExamFileCleanup.nil_uuid)
            (documents mixed_world)) [])
  ∧ length (filter (fun r => SupabaseRecord.id r = ExamFileCleanup.nil_uuid)
              (documents mixed_world)) = 1%nat.
Proof.
  assert (Hyes : cleanup_succeeds reliable_cleanup) by (by repeat split).
  split; [exact Hyes|]. split; [|by vm_compute].
  pose proof (cleanup_when_all_succeeds reliable_cleanup mixed_world Hyes) as H.
  destruct (ExamFileCleanup.cleanup reliable_cleanup mixed_world)
    as [[supabaseDeleted s3Deleted] w'] eqn:Hrun.
  destruct H as (-> & -> & _ & _). rewrite <- Hrun. by vm_compute.
Defined.

(** One failed deletion makes the cleanup report 0 objects, although the
    other exam object is gone. *)
Example cleanup_reports_zero_after_deleting :
  ExamFileCleanup.deleteFromS3 (cleanup_failing_on (lit "exams/a.pdf"))
    mixed_world
  = (0%nat,
     mkWorld [(lit "exams/a.pdf", lit "/srv/a.pdf");
              (lit "document_submissions/s1.pdf", lit "/srv/s1.pdf")]
       (documents mixed_world) []).
Proof. by vm_compute. Qed.

Section UploadThenCleanup.

Variable normalize_NFC : jsstring -> jsstring.
Variable uploader : Externals.
Variable cleaner : ExamFileCleanup.Externals.

Lemma generateStoragePath_exam_key metadata :
  exam_key (generateStoragePath metadata) = true.
Proof. unfold exam_key, generateStoragePath. apply startsWith_app. Qed.

Lemma putObject_other_keys key filePath w kv :
  kv.1 ≠ key → kv ∈ bucket (putObject key filePath w) ↔ kv ∈ bucket w.
Proof.
  intros Hne. unfold putObject. cbn [bucket].
  rewrite elem_of_cons, list_elem_of_filter. split.
  - intros [-> | [_ ?]]; [done | done].
  - intros Hkv. right. done.
Qed.

Lemma processFile_other_keys filePath w kv :
  exam_key kv.1 = false →
  kv ∈ bucket (processFile normalize_NFC uploader filePath w).2 ↔ kv ∈ bucket w.
Proof.
  intros Hk. unfold processFile.
  destruct (parseFilename normalize_NFC (path_basename filePath))
    as [metadata|]; [|done].
  assert (Hne : kv.1 ≠ generateStoragePath metadata).
  { intros Heq. rewrite Heq, generateStoragePath_exam_key in Hk. done. }
  unfold uploadToS3.
  destruct (s3_accepts uploader w filePath (generateStoragePath metadata));
    cbn [negb]; cbv beta iota; [|done].
  unfold uploadToSupabase.
  match goal with |- context [supabase_accepts uploader ?w1 ?data] =>
    destruct (supabase_accepts uploader w1 data) end;
    cbn [snd log upsert bucket]; by apply putObject_other_keys.
Qed.

Lemma uploadLoop_other_keys pdfFiles : ∀ successCount w kv,
  exam_key kv.1 = false →
  kv ∈ bucket (uploadLoop normalize_NFC uploader pdfFiles successCount w).2
  ↔ kv ∈ bucket w.
Proof.
  induction pdfFiles as [|filePath rest IH]; intros n w kv Hk; [done|].
  cbn [uploadLoop].
  pose proof (processFile_other_keys filePath w kv Hk) as Hstep.
  destruct (processFile normalize_NFC uploader filePath w) as [ok w1].
  cbn [snd] in Hstep. by rewrite IH.
Qed.

Lemma uploadAllFiles_other_keys dataPath listing w kv :
  exam_key kv.1 = false →
  kv ∈ bucket (uploadAllFiles normalize_NFC uploader dataPath listing w)
  ↔ kv ∈ bucket w.
Proof.
  intros Hk. unfold uploadAllFiles. destruct listing as [files|]; [|done].
  destruct (map (path_join dataPath)
              (List.filter (fun file => endsWith file dot_pdf) files))
    as [|p ps]; [done|].
  set (w0 := log (FoundPdfFiles (length (p :: ps))) w).
  pose proof (uploadLoop_other_keys (p :: ps) 0%nat w0 kv Hk) as Hloop.
  destruct (uploadLoop normalize_NFC uploader (p :: ps) 0%nat w0) as [n w1].
  cbn [snd] in Hloop. cbn [log bucket]. by rewrite Hloop.
Qed.

(** X22.  The cleanup undoes the uploads: after a run of the uploader
    followed by a cleanup in which every call succeeds, the bucket holds
    exactly the objects it held before the upload under keys outside
    [exams/]; whatever the uploader stored is gone. *)
Theorem cleanup_removes_every_upload (dataPath : jsstring)
    (listing : option (list jsstring)) (w : World) :
  cleanup_succeeds cleaner →
  let uploaded := uploadAllFiles normalize_NFC uploader dataPath listing w in
  ∀ kv, kv ∈ bucket (ExamFileCleanup.cleanup cleaner uploaded).2
        ↔ kv ∈ bucket w ∧ exam_key kv.1 = false.
Proof.
  intros Hyes uploaded kv. unfold ExamFileCleanup.cleanup.
  assert (Hrows : bucket (ExamFileCleanup.deleteFromSupabase cleaner uploaded).2
                  = bucket uploaded).
  { unfold ExamFileCleanup.deleteFromSupabase.
    destruct (ExamFileCleanup.count_succeeds cleaner uploaded); [|done].
    by destruct (ExamFileCleanup.delete_rows_succeeds cleaner uploaded). }
  destruct (ExamFileCleanup.deleteFromSupabase cleaner uploaded)
    as [supabaseDeleted w1].
  cbn [snd] in Hrows.
  pose proof (deleteFromS3_spec cleaner w1) as Hobjects.
  destruct (ExamFileCleanup.deleteFromS3 cleaner w1) as [s3Deleted w2].
  destruct Hobjects as (_ & _ & _ & _ & _ & Hall).
  destruct (Hall Hyes) as [_ Hbucket]. cbn [snd].
  rewrite Hbucket, Hrows.
  split; intros [Hkv Hk]; (split; [|done]);
    by apply (uploadAllFiles_other_keys dataPath listing w kv Hk).
Qed.

End UploadThenCleanup.

Lemma cleanup_removes_every_upload_witness :
  cleanup_succeeds reliable_cleanup
  ∧ bucket (uploadAllFiles Hangul.nfc accepting_stores data_dir
              (Some [problem_pdf; answer_pdf]) empty_world) ≠ []
  ∧ ∀ kv, kv ∉ bucket (ExamFileCleanup.cleanup reliable_cleanup
                         (uploadAllFiles Hangul.nfc accepting_stores data_dir
                            (Some [problem_pdf; answer_pdf]) empty_world)).2.
Proof.
  assert (Hyes : cleanup_succeeds reliable_cleanup) by (by repeat split).
  split; [exact Hyes|]. split; [by vm_compute|].
  intros kv Hkv.
  apply (cleanup_removes_every_upload Hangul.nfc accepting_stores
           reliable_cleanup data_dir (Some [problem_pdf; answer_pdf])
           empty_world Hyes) in Hkv as [Hin _].
  by apply elem_of_nil in Hin.
Defined.

(** ** The thumbnail generator *)

Section ThumbnailEffects.

Import ThumbnailGenerator.

Variable ext : ThumbnailGenerator.Externals.

Lemma getObject_absent key objects :
  key ∉ map fst objects → getObject key objects = None.
Proof.
  induction objects as [|[k body] objects IH]; [done|]. simpl.
  intros Hnot. apply not_elem_of_cons in Hnot as [Hne Hnot].
  rewrite bool_decide_eq_false_2 by done. by apply IH.
Qed.

Lemma getObject_filter key k objects :
  key ≠ k →
  getObject key (filter (fun kv => kv.1 ≠ k) objects) = getObject key objects.
Proof.
  intros Hne. induction objects as [|[k' body] objects IH]; [done|].
  destruct (decide (k' = k)) as [->|Hk].
  - rewrite filter_cons_False by (simpl; auto). simpl.
    by rewrite bool_decide_eq_false_2.
  - rewrite filter_cons_True by done. simpl. by rewrite IH.
Qed.

Lemma getObject_putObject key k body w :
  getObject key (bucket (putObject k body w))
  = if decide (key = k) then Some body else getObject key (bucket w).
Proof.
  unfold putObject. cbn [bucket getObject].
  destruct (decide (key = k)) as [->|Hne].
  - by rewrite bool_decide_eq_true_2.
  - rewrite bool_decide_eq_false_2 by done. by apply getObject_filter.
Qed.

Lemma generator_keys_not_exam_keys id :
  exam_key (thumbnailS3Key id) = false ∧ exam_key (pdfS3Key id) = false
  ∧ thumbnail_key (pdfS3Key id) = false
  ∧ thumbnail_key (thumbnailS3Key id) = true.
Proof. done. Qed.

Ltac unchanged :=
  split; [done|]; split; [done|]; split; [done|]; split; [by auto | done].

Lemma processDocument_spec document w :
  let '(ok, w') := processDocument ext document w in
  documents w' = documents w
  ∧ console w' = console w
  ∧ (∀ key, thumbnail_key key = false →
       getObject key (bucket w') = getObject key (bucket w))
  ∧ (∀ key body, getObject key (bucket w') = Some body →
       getObject key (bucket w) = Some body
       ∨ ∃ pdf, key = thumbnailS3Key (SupabaseRecord.id document)
                ∧ getObject (pdfS3Key (SupabaseRecord.id document)) (bucket w)
                  = Some pdf
                ∧ render ext pdf = Some body)
  ∧ (getObject (pdfS3Key (SupabaseRecord.id document)) (bucket w) = None →
     getObject (thumbnailS3Key (SupabaseRecord.id document)) (bucket w) = None →
     ok = false ∧ w' = w).
Proof.
  unfold processDocument, thumbnailExists, downloadPDFFromS3.
  set (id := SupabaseRecord.id document).
  destruct (getObject (thumbnailS3Key id) (bucket w)) as [old|] eqn:Hthumb.
  - destruct (get_succeeds ext w (thumbnailS3Key id)); [unchanged|].
    destruct (getObject (pdfS3Key id) (bucket w)) as [pdf|] eqn:Hpdf;
      [|unchanged].
    destruct (get_succeeds ext w (pdfS3Key id)); [|unchanged].
    destruct (render ext pdf) as [thumbnail|] eqn:Hrender; [|unchanged].
    unfold uploadThumbnailToS3.
    destruct (put_succeeds ext w (thumbnailS3Key id)); [|unchanged].
    split; [done|]. split; [done|]. split; [|split; [|done]].
    + intros key Hkey. rewrite getObject_putObject.
      destruct (decide (key = thumbnailS3Key id)) as [->|]; done.
    + intros key body. rewrite getObject_putObject.
      destruct (decide (key = thumbnailS3Key id)) as [->|]; [|by left].
      intros [= <-]. right. by exists pdf.
  - destruct (getObject (pdfS3Key id) (bucket w)) as [pdf|] eqn:Hpdf;
      [|unchanged].
    destruct (get_succeeds ext w (pdfS3Key id)); [|unchanged].
    destruct (render ext pdf) as [thumbnail|] eqn:Hrender; [|unchanged].
    unfold uploadThumbnailToS3.
    destruct (put_succeeds ext w (thumbnailS3Key id)); [|unchanged].
    split; [done|]. split; [done|]. split; [|split; [|done]].
    + intros key Hkey. rewrite getObject_putObject.
      destruct (decide (key = thumbnailS3Key id)) as [->|]; done.
    + intros key body. rewrite getObject_putObject.
      destruct (decide (key = thumbnailS3Key id)) as [->|]; [|by left].
      intros [= <-]. right. by exists pdf.
Qed.

Lemma generateLoop_spec documents : ∀ successCount errorCount w,
  let '(successCount', errorCount', w') :=
    generateLoop ext documents successCount errorCount w in
  (successCount' + errorCount' = successCount + errorCount + length documents)%nat
  ∧ ExamFileUploader.documents w' = ExamFileUploader.documents w
  ∧ console w' = console w
  ∧ (∀ key, thumbnail_key key = false →
       getObject key (bucket w') = getObject key (bucket w))
  ∧ (∀ key body, getObject key (bucket w') = Some body →
       getObject key (bucket w) = Some body
       ∨ ∃ document pdf,
           document ∈ documents
           ∧ key = thumbnailS3Key (SupabaseRecord.id document)
           ∧ getObject (pdfS3Key (SupabaseRecord.id document)) (bucket w)
             = Some pdf
           ∧ render ext pdf = Some body).
Proof.
  induction documents as [|document rest IH]; intros s e w.
  { simpl. split; [lia|]. by auto. }
  cbn [generateLoop].
  pose proof (processDocument_spec document w) as Hstep.
  destruct (processDocument ext document w) as [ok w1].
  destruct Hstep as (Hd & Hc & Hother & Hnew & _).
  assert (Hrest : ∀ s1 e1,
    (s1 + e1 = s + e + 1)%nat →
    let '(successCount', errorCount', w') := generateLoop ext rest s1 e1 w1 in
    (successCount' + errorCount' = s + e + length (document :: rest))%nat
    ∧ ExamFileUploader.documents w' = ExamFileUploader.documents w
    ∧ console w' = console w
    ∧ (∀ key, thumbnail_key key = false →
         getObject key (bucket w') = getObject key (bucket w))
    ∧ (∀ key body, getObject key (bucket w') = Some body →
         getObject key (bucket w) = Some body
         ∨ ∃ document0 pdf,
             document0 ∈ document :: rest
             ∧ key = thumbnailS3Key (SupabaseRecord.id document0)
             ∧ getObject (pdfS3Key (SupabaseRecord.id document0)) (bucket w)
               = Some pdf
             ∧ render ext pdf = Some body)).
  { intros s1 e1 Hsum. specialize (IH s1 e1 w1).
    destruct (generateLoop ext rest s1 e1 w1) as [[s' e'] w'].
    destruct IH as (Hsum' & Hd' & Hc' & Hother' & Hnew').
    split; [simpl; lia|]. split; [congruence|]. split; [congruence|].
    split.
    - intros key Hkey. rewrite Hother' by done. by apply Hother.
    - intros key body Hbody.
      destruct (Hnew' key body Hbody) as [Hold | (d & pdf & Hin & -> & Hpdf & Hr)].
      + destruct (Hnew key body Hold) as [? | (pdf & -> & Hpdf & Hr)];
          [by left|].
        right. exists document, pdf. split; [left|]. done.
      + right. exists d, pdf. split; [by right|]. split; [done|].
        split; [|done]. rewrite <- Hother; [done|].
        apply generator_keys_not_exam_keys. }
  destruct ok; apply Hrest; lia.
Qed.

(** X23.  A run of the thumbnail generator counts every document once, as
    a success or as an error; it leaves the table and every object outside
    [thumbnails/] as they were; and every object found afterwards either
    was there before or is the picture rendered from the PDF stored under
    [documents/<id>.pdf] for a document of the table, stored under
    [thumbnails/<id>.png]. *)
Theorem thumbnails_come_from_document_objects (w : World) :
  let '(successCount, errorCount, w') := generateAllThumbnails ext w in
  (successCount + errorCount = length (documents w))%nat
  ∧ documents w' = documents w
  ∧ (∀ key, thumbnail_key key = false →
       getObject key (bucket w') = getObject key (bucket w))
  ∧ (∀ key body, getObject key (bucket w') = Some body →
       getObject key (bucket w) = Some body
       ∨ ∃ document pdf,
           document ∈ documents w
           ∧ key = thumbnailS3Key (SupabaseRecord.id document)
           ∧ getObject (pdfS3Key (SupabaseRecord.id document)) (bucket w)
             = Some pdf
           ∧ render ext pdf = Some body).
Proof.
  unfold generateAllThumbnails.
  pose proof (generateLoop_spec (documents w) 0%nat 0%nat w) as Hloop.
  destruct (generateLoop ext (documents w) 0 0 w) as [[s e] w'].
  destruct Hloop as (Hsum & Hd & _ & Hother & Hnew).
  split; [lia|]. done.
Qed.

Lemma generateLoop_without_sources documents : ∀ successCount errorCount w,
  (∀ key, key ∈ bucket_keys w → exam_key key = true) →
  generateLoop ext documents successCount errorCount w
  = (successCount, (errorCount + length documents)%nat, w).
Proof.
  induction documents as [|document rest IH]; intros s e w Hkeys.
  { simpl. do 2 f_equal. lia. }
  cbn [generateLoop].
  pose proof (processDocument_spec document w) as Hstep.
  destruct (processDocument ext document w) as [ok w1].
  destruct Hstep as (_ & _ & _ & _ & Hfail).
  assert (Habsent : ∀ key, exam_key key = false →
            getObject key (bucket w) = None).
  { intros key Hkey. apply getObject_absent. intros Hin.
    specialize (Hkeys key Hin). congruence. }
  destruct Hfail as [-> ->]; [apply Habsent, generator_keys_not_exam_keys..|].
  rewrite IH by done. cbn [length]. do 2 f_equal. lia.
Qed.

End ThumbnailEffects.

Section UploadThenThumbnails.

Import ThumbnailGenerator.

Variable normalize_NFC : jsstring -> jsstring.
Variable uploader : ExamFileUploader.Externals.
Variable ext : ThumbnailGenerator.Externals.

(** X24.  The thumbnail generator finds nothing to work on after an
    upload: on the stores left by a run of the exam uploader over an empty
    bucket, it counts every document as an error and stores no thumbnail,
    since it reads [documents/<id>.pdf] while the uploader writes under
    [exams/]. *)
Theorem no_thumbnails_for_uploaded_exams (dataPath : jsstring)
    (listing : option (list jsstring)) (w : World) :
  bucket w = [] →
  let uploaded := uploadAllFiles normalize_NFC uploader dataPath listing w in
  generateAllThumbnails ext uploaded
  = (0%nat, length (documents uploaded), uploaded).
Proof.
  intros Hempty uploaded. unfold generateAllThumbnails.
  rewrite generateLoop_without_sources; [done|].
  intros key Hkey. destruct (exam_key key) eqn:Hexam; [done|].
  unfold bucket_keys in Hkey. change (map fst ?l) with (fst <$> l) in Hkey.
  apply list_elem_of_fmap in Hkey as (kv & -> & Hkv).
  apply (uploadAllFiles_other_keys normalize_NFC uploader dataPath listing w)
    in Hkv; [|done].
  rewrite Hempty in Hkv. by apply elem_of_nil in Hkv.
Qed.

End UploadThenThumbnails.

Lemma no_thumbnails_for_uploaded_exams_witness :
  let uploaded := uploadAllFiles Hangul.nfc accepting_stores data_dir
                    (Some [problem_pdf; answer_pdf]) empty_world in
  length (bucket uploaded) = 2%nat
  ∧ ThumbnailGenerator.generateAllThumbnails reliable_thumbnails uploaded
    = (0%nat, length (documents uploaded), uploaded).
Proof.
  intros uploaded.
  assert (Hlen : length (bucket uploaded) = 2%nat) by (by vm_compute).
  split; [exact Hlen|].
  exact (no_thumbnails_for_uploaded_exams Hangul.nfc accepting_stores
           reliable_thumbnails data_dir (Some [problem_pdf; answer_pdf])
           empty_world eq_refl).
Defined.

(** With the PDF stored where the generator looks for it, the thumbnail is
    rendered and stored. *)
Example thumbnail_of_a_document_object :
  ThumbnailGenerator.generateAllThumbnails reliable_thumbnails paged_world
  = (1%nat, 1%nat,
     mkWorld [(lit "thumbnails/id-1.png", lit "/srv/a.pdf#page1");
              (lit "documents/id-1.pdf", lit "/srv/a.pdf")]
       (documents mixed_world) []).
Proof. by vm_compute. Qed.

(** ** The submission uploader *)

Section SubmissionEffects.

Import DocumentSubmissionUploader.

Variable ext : DocumentSubmissionUploader.Externals.

Lemma updateStoragePath_fresh_row row rows :
  SupabaseSubmissionRecord.id row ∉ map SupabaseSubmissionRecord.id rows →
  document_submissions
    (updateStoragePath (SupabaseSubmissionRecord.id row)
       (SupabaseSubmissionRecord.storage_path row)
       (mkStores [] (rows ++ [row])))
  = rows ++ [row].
Proof.
  intros Hfresh. unfold updateStoragePath. cbn [document_submissions].
  rewrite map_app. cbn [map].
  destruct (decide (SupabaseSubmissionRecord.id row
                    = SupabaseSubmissionRecord.id row)); [|done].
  f_equal; [|by destruct row].
  induction rows as [|r rows IH]; [done|]. cbn [map] in *.
  apply not_elem_of_cons in Hfresh as [Hne Hfresh].
  destruct (decide (SupabaseSubmissionRecord.id r
                    = SupabaseSubmissionRecord.id row)); [congruence|].
  f_equal. by apply IH.
Qed.

Ltac call_failed :=
  split; [done|]; split; [intros _; split; [done | by auto]|];
  first [done | by intros _].

(** X25.  One submission, the id drawn being new to the table.  The row
    is written first and never taken back: a successful call leaves the
    table with exactly the new row appended, and with the file under
    [document_submissions/<id>.pdf], the path recorded in the row, when
    there is a file (the bucket and an empty path otherwise); a failed
    call leaves the bucket as it was, and the table either as it was or
    with the new row appended, whose path then names an object that was
    not stored. *)
Theorem submission_row_comes_first (data : SubmissionData.t) (st : Stores) :
  randomUUID ext st ∉ submission_ids st →
  let row := submissionRecord ext data st in
  let key := generateSubmissionStoragePath (randomUUID ext st) in
  let '(ok, st') := processSubmission ext data st in
  (ok = true →
   document_submissions st' = document_submissions st ++ [row]
   ∧ match truthy (SubmissionData.filePath data) with
     | Some filePath =>
       SupabaseSubmissionRecord.storage_path row = key
       ∧ bucket st' = (key, filePath) :: filter (fun kv => kv.1 ≠ key) (bucket st)
     | None =>
       SupabaseSubmissionRecord.storage_path row = [] ∧ bucket st' = bucket st
     end)
  ∧ (ok = false →
     bucket st' = bucket st
     ∧ (document_submissions st' = document_submissions st
        ∨ document_submissions st' = document_submissions st ++ [row]))
  ∧ (insert_accepts ext st row = true → row ∈ document_submissions st').
Proof.
  intros Hfresh row key. unfold processSubmission, uploadSubmissionToSupabase.
  fold row.
  assert (Hid : SupabaseSubmissionRecord.id row = randomUUID ext st) by done.
  assert (Hlast : row ∈ document_submissions st ++ [row]).
  { apply elem_of_app. right. left. }
  destruct (insert_accepts ext st row) eqn:Hinsert; [|call_failed].
  rewrite Hid. destruct (randomUUID ext st) as [|c r] eqn:Huuid.
  { cbn [document_submissions bucket]. call_failed. }
  assert (Hpath : ∀ filePath,
    truthy (SubmissionData.filePath data) = Some filePath →
    SupabaseSubmissionRecord.storage_path row = key).
  { intros filePath Hfile. unfold row, submissionRecord.
    cbn [SupabaseSubmissionRecord.storage_path]. by rewrite Hfile, Huuid. }
  destruct (truthy (SubmissionData.filePath data)) as [filePath|] eqn:Hfile.
  - set (st1 := mkStores (bucket st) (document_submissions st ++ [row])).
    assert (Hupdate : document_submissions
              (updateStoragePath (c :: r)
                 (generateSubmissionStoragePath (c :: r)) st1)
            = document_submissions st ++ [row]).
    { pose proof (updateStoragePath_fresh_row row (document_submissions st))
        as Hrow.
      rewrite Hid, (Hpath filePath eq_refl) in Hrow. unfold key in Hrow.
      rewrite ?Huuid in Hrow.
      apply Hrow. unfold submission_ids in Hfresh. done. }
    destruct (update_accepts ext st1 (c :: r)); [|call_failed].
    unfold uploadFileToS3.
    destruct (s3_accepts ext _ filePath (generateSubmissionStoragePath (c :: r))).
    + cbn [document_submissions bucket]. rewrite Hupdate.
      split; [|split; [done | by intros _]].
      intros _. split; [done|]. split; [by apply (Hpath filePath)|done].
    + rewrite Hupdate. cbn [bucket]. call_failed.
  - cbn [document_submissions bucket].
    split; [|split; [done | by intros _]].
    intros _. split; [done|]. split; [|done].
    unfold row, submissionRecord.
    cbn [SupabaseSubmissionRecord.storage_path]. by rewrite Hfile.
Qed.

End SubmissionEffects.

Lemma submission_row_comes_first_witness :
  let ext := submission_stores false in
  let '(ok, st') :=
    DocumentSubmissionUploader.processSubmission ext submission_with_file
      no_submissions in
  ok = false
  ∧ DocumentSubmissionUploader.bucket st' = []
  ∧ map SupabaseSubmissionRecord.storage_path
      (DocumentSubmissionUploader.document_submissions st')
    = [lit "document_submissions/6f1c2a9e-0000-4000-8000-000000000002.pdf"].
Proof.
  intros ext.
  pose proof (submission_row_comes_first ext submission_with_file
                no_submissions) as H.
  destruct (DocumentSubmissionUploader.processSubmission ext
              submission_with_file no_submissions) as [ok st'] eqn:Hrun.
  assert (Hok : ok = false).
  { change ok with (ok, st').1. rewrite <- Hrun. by vm_compute. }
  destruct H as (_ & Hfail & Hrow).
  { intros Hin. by apply elem_of_nil in Hin. }
  destruct (Hfail Hok) as [Hbucket _].
  split; [exact Hok|]. split; [exact Hbucket|].
  change st' with (ok, st').2. rewrite <- Hrun. by vm_compute.
Defined.

(** A score of 0 is recorded as [null]. *)
Example zero_score_is_recorded_as_null :
  SupabaseSubmissionRecord.score
    (DocumentSubmissionUploader.submissionRecord (submission_stores true)
       submission_without_file no_submissions) = None
  ∧ SubmissionData.score submission_without_file = Some (JInt 0).
Proof. split; reflexivity. Qed.

(** ** The thumbnail updater *)

Section UpdaterEffects.

Import ThumbnailGenerator.

Variable ext : ThumbnailUpdater.Externals.

Ltac update_failed :=
  split; [done|]; split; [done|]; split; [done|]; by auto.

(** X26.  One update touches the thumbnail of its document only.  When it
    succeeds, the thumbnail is the picture rendered from the PDF under
    [documents/<id>.pdf]; when it fails, the thumbnail is either as it was
    or gone: the old picture is deleted before the new one is written, and
    is not restored when the write fails. *)
Theorem failed_update_may_drop_thumbnail (document : SupabaseRecord.t)
    (w : World) :
  let id := SupabaseRecord.id document in
  let '(ok, w') := ThumbnailUpdater.processDocument ext document w in
  documents w' = documents w
  ∧ (∀ key, key ≠ thumbnailS3Key id →
       getObject key (bucket w') = getObject key (bucket w))
  ∧ (ok = true →
     ∃ pdf thumbnail,
       getObject (pdfS3Key id) (bucket w) = Some pdf
       ∧ render (ThumbnailUpdater.s3 ext) pdf = Some thumbnail
       ∧ getObject (thumbnailS3Key id) (bucket w') = Some thumbnail)
  ∧ (ok = false →
     getObject (thumbnailS3Key id) (bucket w')
     = getObject (thumbnailS3Key id) (bucket w)
     ∨ getObject (thumbnailS3Key id) (bucket w') = None).
Proof.
  intros id. unfold ThumbnailUpdater.processDocument. fold id.
  unfold downloadPDFFromS3.
  destruct (getObject (pdfS3Key id) (bucket w)) as [pdf|] eqn:Hpdf;
    [|update_failed].
  destruct (get_succeeds (ThumbnailUpdater.s3 ext) w (pdfS3Key id));
    [|update_failed].
  destruct (render (ThumbnailUpdater.s3 ext) pdf) as [thumbnail|] eqn:Hrender;
    [|update_failed].
  set (w1 := if thumbnailExists (ThumbnailUpdater.s3 ext) (thumbnailS3Key id) w
             then (ThumbnailUpdater.deleteThumbnailFromS3 ext
                     (thumbnailS3Key id) w).2
             else w).
  assert (Hw1 : documents w1 = documents w
    ∧ (∀ key, key ≠ thumbnailS3Key id →
         getObject key (bucket w1) = getObject key (bucket w))
    ∧ (getObject (thumbnailS3Key id) (bucket w1)
       = getObject (thumbnailS3Key id) (bucket w)
       ∨ getObject (thumbnailS3Key id) (bucket w1) = None)).
  { unfold w1, ThumbnailUpdater.deleteThumbnailFromS3.
    destruct (thumbnailExists (ThumbnailUpdater.s3 ext) (thumbnailS3Key id) w);
      [|by auto].
    destruct (ThumbnailUpdater.delete_succeeds ext w (thumbnailS3Key id));
      [|by auto].
    cbn [snd documents bucket]. split; [done|]. split.
    - intros key Hkey. by apply getObject_filter.
    - right. apply getObject_absent. intros Hin.
      change (map fst ?l) with (fst <$> l) in Hin.
      apply list_elem_of_fmap in Hin as (kv & Hk & Hkv).
      apply list_elem_of_filter in Hkv as [Hne _]. by symmetry in Hk. }
  destruct Hw1 as (Hd1 & Hother1 & Hthumb1).
  unfold uploadThumbnailToS3.
  destruct (put_succeeds (ThumbnailUpdater.s3 ext) w1 (thumbnailS3Key id)).
  - split; [done|]. split; [|split; [|done]].
    + intros key Hkey. rewrite getObject_putObject.
      destruct (decide (key = thumbnailS3Key id)); [done|]. by apply Hother1.
    + intros _. exists pdf, thumbnail. split; [done|]. split; [done|].
      rewrite getObject_putObject.
      by destruct (decide (thumbnailS3Key id = thumbnailS3Key id)).
  - split; [done|]. split; [done|]. split; [done|]. by intros _.
Qed.

End UpdaterEffects.

(** The loss happens: reads and the deletion succeed, the write fails. *)
Example update_loses_the_old_thumbnail :
  ThumbnailGenerator.getObject (lit "thumbnails/id-1.png") (bucket pictured_world)
  = Some (lit "old picture")
  ∧ ThumbnailUpdater.processDocument updater_without_writes
      (SupabaseRecord.mk (lit "id-1") [] [] [] [] [] [] [] [] [] []
         (JInt 0) (JInt 0) [] [])
      pictured_world
    = (false,
       mkWorld [(lit "documents/id-1.pdf", lit "/srv/a.pdf")]
         (documents mixed_world) []).
Proof. split; by vm_compute. Qed.

(** ** The category fix of the database encoding script *)

Lemma subject_table_checked :
  Forall (fun entry =>
            entry.1 ≠ [] ∧ entry.2 ≠ []
            ∧ DatabaseEncodingFixer.normalizeKoreanText entry.2 = entry.2)
    DatabaseEncodingFixer.subjectToCategory.
Proof. decide_by_computation. Qed.

Lemma rename_subjects_checked :
  Forall (fun entry =>
            DatabaseEncodingFixer.getCorrectCategory
              (RenameExams.subject entry.2)
            = RenameExams.category entry.2)
    RenameExams.SUBJECT_MAPPINGS.
Proof. decide_by_computation. Qed.

Section CategoryFix.

Import DatabaseEncodingFixer.

Variable update_accepts : list Document.t -> jsstring -> jsstring -> bool.

Lemma getCorrectCategory_known d category :
  category_of_subject d = Some category →
  getCorrectCategory (Document.subject d) = category
  ∧ category ≠ [] ∧ normalizeKoreanText category = category.
Proof.
  unfold category_of_subject. intros Hlookup.
  pose proof (Forall_member _ _ _ subject_table_checked
                (lookup_key_Some _ _ _ Hlookup)) as (Hkey & Hvalue & Hfixed).
  cbn [fst snd] in Hkey, Hvalue, Hfixed.
  split; [|done]. unfold getCorrectCategory.
  destruct (Document.subject d); [done|]. by rewrite Hlookup.
Qed.

Lemma getCorrectCategory_unknown d :
  category_of_subject d = None → getCorrectCategory (Document.subject d) = [].
Proof.
  unfold category_of_subject, getCorrectCategory. intros Hlookup.
  destruct (Document.subject d); [done|]. by rewrite Hlookup.
Qed.

Lemma updateCategory_other_rows category id rows :
  id ∉ map Document.id rows → updateCategory category id rows = rows.
Proof.
  induction rows as [|row rows IH]; [done|]. simpl. intros Hnotin.
  apply not_elem_of_cons in Hnotin as [Hne Hnotin].
  destruct (decide (Document.id row = id)); [done|]. f_equal. by apply IH.
Qed.

Lemma updateCategory_one_row category doc before after :
  Document.id doc ∉ map Document.id (before ++ after) →
  updateCategory category (Document.id doc) (before ++ doc :: after)
  = before ++ with_category category doc :: after.
Proof.
  rewrite map_app. intros Hnotin.
  apply not_elem_of_app in Hnotin as [Hb Ha].
  unfold updateCategory. rewrite map_app. cbn [map].
  destruct (decide (Document.id doc = Document.id doc)); [|done].
  f_equal; [by apply updateCategory_other_rows|].
  f_equal. by apply updateCategory_other_rows.
Qed.

Lemma categoryLoop_spec rest : ∀ before updatedCount errorCount,
  NoDup (map Document.id (before ++ rest)) →
  ∃ updatedCount' errorCount' rest',
    categoryLoop update_accepts rest updatedCount errorCount (before ++ rest)
    = (updatedCount', errorCount', before ++ rest')
    ∧ Forall2 (fun d d' => d' = d ∨ d' = recategorized d) rest rest'
    ∧ (updatedCount' + errorCount'
       = updatedCount + errorCount + length (known_subjects rest))%nat
    ∧ ((∀ t id c, update_accepts t id c = true) →
       rest' = map recategorized rest ∧ errorCount' = errorCount).
Proof.
  induction rest as [|doc rest IH]; intros before u e Hnd.
  { exists u, e, []. simpl. repeat split; try done; lia. }
  assert (Hnotin : Document.id doc ∉ map Document.id (before ++ rest)).
  { rewrite map_app in *. simpl in Hnd.
    apply NoDup_app in Hnd as (Hb & Hdisj & Hr).
    apply NoDup_cons in Hr as [Hnotin Hr].
    rewrite elem_of_app. intros [Hin|Hin]; [|done].
    apply (Hdisj _ Hin). left. }
  assert (Hnext : ∀ doc', Document.id doc' = Document.id doc →
            NoDup (map Document.id ((before ++ [doc']) ++ rest))).
  { intros doc' Hid. rewrite <- app_assoc. simpl.
    rewrite map_app in *. simpl in *. by rewrite Hid. }
  cbn [categoryLoop]. unfold known_subjects.
  destruct (category_of_subject doc) as [category|] eqn:Hknown.
  - destruct (getCorrectCategory_known doc category Hknown)
      as (-> & Hne & Hfixed).
    rewrite filter_cons_True by (rewrite Hknown; eauto).
    destruct category as [|c r]; [done|]. rewrite Hfixed.
    destruct (update_accepts (before ++ doc :: rest) (Document.id doc) (c :: r))
      eqn:Hacc.
    + rewrite updateCategory_one_row by done.
      replace (before ++ with_category (c :: r) doc :: rest)
        with ((before ++ [with_category (c :: r) doc]) ++ rest)
        by (by rewrite <- app_assoc).
      destruct (IH (before ++ [with_category (c :: r) doc]) (S u) e)
        as (u' & e' & rest' & Hrun & Hrows & Hsum & Hall); [by apply Hnext|].
      exists u', e', (with_category (c :: r) doc :: rest').
      rewrite Hrun, <- app_assoc. split; [done|]. split.
      { constructor; [|done]. right. unfold recategorized. by rewrite Hknown. }
      split; [cbn [length]; unfold known_subjects in Hsum; lia|].
      intros Hyes. destruct (Hall Hyes) as [-> ->].
      split; [|done]. cbn [map]. unfold recategorized at 2. by rewrite Hknown.
    + replace (before ++ doc :: rest) with ((before ++ [doc]) ++ rest)
        by (by rewrite <- app_assoc).
      destruct (IH (before ++ [doc]) u (S e))
        as (u' & e' & rest' & Hrun & Hrows & Hsum & Hall); [by apply Hnext|].
      exists u', e', (doc :: rest').
      rewrite Hrun, <- app_assoc. split; [done|]. split.
      { constructor; [by left | done]. }
      split; [cbn [length]; unfold known_subjects in Hsum; lia|].
      intros Hyes. rewrite Hyes in Hacc. done.
  - rewrite (getCorrectCategory_unknown doc Hknown).
    rewrite filter_cons_False by (rewrite Hknown; by intros [? ?]).
    replace (before ++ doc :: rest) with ((before ++ [doc]) ++ rest)
      by (by rewrite <- app_assoc).
    destruct (IH (before ++ [doc]) u e)
      as (u' & e' & rest' & Hrun & Hrows & Hsum & Hall); [by apply Hnext|].
    exists u', e', (doc :: rest').
    rewrite Hrun, <- app_assoc. split; [done|]. split.
    { constructor; [by left | done]. }
    split; [exact Hsum|].
    intros Hyes. destruct (Hall Hyes) as [-> ->].
    split; [|done]. cbn [map]. unfold recategorized at 2. by rewrite Hknown.
Qed.

(** X27.  One run of the category fix over a table with unique ids, no
    subject being the name of an inherited object property: every row
    stays in place and is either as it was or has the category that the
    subject table gives for its subject, nothing else being touched; rows
    of unknown subject are skipped and not counted; updated plus errors
    is the number of rows of known subject.  When the store accepts every
    update, every row of known subject ends up with the category of its
    subject and no error is counted. *)
Theorem category_fix_follows_subject (table : list Document.t) :
  NoDup (map Document.id table) →
  Forall (fun d => Document.subject d ∉ object_prototype_keys) table →
  ∃ updatedCount errorCount table',
    fixCategoryEncoding update_accepts table
    = (updatedCount, errorCount, table')
    ∧ Forall2 (fun d d' => d' = d ∨ d' = recategorized d) table table'
    ∧ (updatedCount + errorCount = length (known_subjects table))%nat
    ∧ ((∀ t id c, update_accepts t id c = true) →
       table' = map recategorized table ∧ errorCount = 0%nat).
Proof.
  intros Hnd _. unfold fixCategoryEncoding.
  destruct (categoryLoop_spec table [] 0%nat 0%nat Hnd)
    as (u & e & table' & Hrun & Hrows & Hsum & Hall).
  exists u, e, table'. cbn [app] in Hrun.
  split; [exact Hrun|]. split; [exact Hrows|]. split; [lia|]. exact Hall.
Qed.

(** X28.  The subject table of the encoding fix agrees with the table of
    the rename script: for every entry of the latter, the category found
    for its subject is its category; so the fix leaves a row that carries
    the category and the subject of such an entry as it is. *)
Theorem category_fix_agrees_with_rename (key : jsstring)
    (info : RenameExams.SubjectInfo) (d : Document.t) :
  RenameExams.lookup_key RenameExams.SUBJECT_MAPPINGS key = Some info →
  Document.subject d = RenameExams.subject info →
  Document.category d = RenameExams.category info →
  getCorrectCategory (Document.subject d) = Document.category d
  ∧ recategorized d = d
  ∧ ∃ updatedCount errorCount,
      fixCategoryEncoding update_accepts [d] = (updatedCount, errorCount, [d]).
Proof.
  intros Hentry Hsubject Hcategory.
  pose proof (Forall_member _ _ _ rename_subjects_checked
                (lookup_key_Some _ _ _ Hentry)) as Hagree.
  cbn [snd] in Hagree. rewrite <- Hsubject, <- Hcategory in Hagree.
  assert (Hsame : recategorized d = d).
  { unfold recategorized.
    destruct (category_of_subject d) as [category|] eqn:Hknown; [|done].
    destruct (getCorrectCategory_known d category Hknown) as (Hc & _ & _).
    rewrite Hagree in Hc. subst category. by destruct d. }
  split; [exact Hagree|]. split; [exact Hsame|].
  destruct (categoryLoop_spec [d] [] 0%nat 0%nat)
    as (u & e & table' & Hrun & Hrows & _).
  { apply NoDup_singleton. }
  exists u, e. unfold fixCategoryEncoding. cbn [app] in Hrun.
  rewrite Hrun. f_equal.
  apply Forall2_cons_inv_l in Hrows as (d' & rest & Hd & Hrest & ->).
  apply Forall2_nil_inv_l in Hrest as ->.
  destruct Hd as [-> | ->]; [done|]. by rewrite Hsame.
Qed.

End CategoryFix.

Lemma category_fix_follows_subject_witness :
  NoDup (map Document.id [misfiled_row; legacy_row])
  ∧ DatabaseEncodingFixer.fixCategoryEncoding accepting_category_updates
      [misfiled_row; legacy_row]
    = (1%nat, 0%nat, [with_category (lit "과학탐구") misfiled_row; legacy_row]).
Proof.
  assert (Hnd : NoDup (map Document.id [misfiled_row; legacy_row])).
  { decide_by_computation. }
  split; [exact Hnd|].
  destruct (category_fix_follows_subject accepting_category_updates
              [misfiled_row; legacy_row] Hnd)
    as (u & e & table' & Hrun & _ & Hsum & Hall).
  { repeat constructor; decide_by_computation. }
  destruct (Hall (fun _ _ _ => eq_refl)) as [-> ->].
  assert (Hknown : length (known_subjects [misfiled_row; legacy_row]) = 1%nat)
    by (by vm_compute).
  rewrite Hknown in Hsum. rewrite Hrun.
  replace u with 1%nat by lia. by vm_compute.
Defined.

Lemma category_fix_agrees_with_rename_witness :
  DatabaseEncodingFixer.getCorrectCategory (lit "물리학 I") = lit "과학탐구"
  ∧ recategorized (with_category (lit "과학탐구") misfiled_row)
    = with_category (lit "과학탐구") misfiled_row.
Proof.
  destruct (category_fix_agrees_with_rename accepting_category_updates
              (lit "물리학1") (RenameExams.info "과학탐구" "물리학 I")
              (with_category (lit "과학탐구") misfiled_row)
              eq_refl eq_refl eq_refl) as (Hcategory & Hsame & _).
  split; [exact Hcategory | exact Hsame].
Defined.

(** The text normalizer of this script replaces any text that contains
    one of its six category names by that name. *)
Example category_name_inside_a_text :
  DatabaseEncodingFixer.normalizeKoreanText (lit "제2외국어") = lit "국어".
Proof. reflexivity. Qed.
